(** * The error collector of Lantern's [errors] package

    A shallow embedding of the Go package [errors] (classification of
    error values by [parseError], the [With...] decorators, the
    [ErrorCollector] and the process-wide [Reporter]) together with the
    properties its specification states about it. *)

From Stdlib Require Import Strings.String Strings.Ascii Strings.Byte NArith ZArith List Lia.
From stdpp Require Import base option strings gmap list pretty.

Open Scope string_scope.
Open Scope list_scope.

(** ** Outcomes of Go code

    A Go call either returns or panics.  Run-time panics that the code of
    the package can trigger itself (a method call through a nil interface,
    the hash of an unhashable map key, the explicit [panic] of [toJSON])
    are part of the model. *)

Inductive result (A : Type) : Type :=
| Returns (a : A)
| Panics (why : string).
Arguments Returns {A} a.
Arguments Panics {A} why.

#[global] Instance result_ret : MRet result := fun _ a => Returns a.
#[global] Instance result_bind : MBind result := fun _ _ f m =>
  match m with
  | Returns a => f a
  | Panics why => Panics why
  end.

Definition returned {A} (m : result A) : Prop :=
  match m with Returns _ => True | Panics _ => False end.

Definition panicked {A} (m : result A) : Prop :=
  match m with Returns _ => False | Panics _ => True end.

Definition nil_dereference : string :=
  "invalid memory address or nil pointer dereference".

(** ** Dynamic types

    [reflect.TypeOf(err).String()] prints the dynamic type of an error
    value: a named type prints as [pkg.Name], a pointer type with a star
    in front, a struct literal type between braces. *)

Inductive gotype : Type :=
| TNamed (pkg name : string)
| TPtr (elem : gotype)
| TStruct (fields : string).

Fixpoint type_String (t : gotype) : string :=
  match t with
  | TNamed pkg name => pkg +:+ "." +:+ name
  | TPtr elem => "*" +:+ type_String elem
  | TStruct fields => "struct {" +:+ fields +:+ "}"
  end.

(** ** Error values

    Identities of the error singletons that the two tables of the package
    are keyed by.  All entries of [miscErrors] are values made by
    [errors.New], that is pointers of type [*errors.errorString]; all
    entries of [httpProtocolErrors] are pointers of type
    [*http.ProtocolError]. *)

Inductive sentinel : Type :=
| bufio_ErrInvalidUnreadByte | bufio_ErrInvalidUnreadRune
| bufio_ErrBufferFull | bufio_ErrNegativeCount | bufio_ErrTooLong
| bufio_ErrNegativeAdvance | bufio_ErrAdvanceTooFar | bufio_ErrFinalToken
| http_ErrWriteAfterFlush | http_ErrBodyNotAllowed | http_ErrHijacked
| http_ErrContentLength | http_ErrBodyReadAfterClose
| http_ErrHandlerTimeout | http_ErrLineTooLong | http_ErrMissingFile
| http_ErrNoCookie | http_ErrNoLocation | http_ErrSkipAltProtocol
| io_EOF | io_ErrClosedPipe | io_ErrNoProgress | io_ErrShortBuffer
| io_ErrShortWrite | io_ErrUnexpectedEOF
| os_ErrInvalid | os_ErrPermission | os_ErrExist | os_ErrNotExist
| exec_ErrNotFound
| x509_ErrUnsupportedAlgorithm | x509_IncorrectPasswordError
| hex_ErrLength.

Inductive protocolSentinel : Type :=
| http_ErrHeaderTooLong | http_ErrShortBody | http_ErrNotSupported
| http_ErrUnexpectedTrailer | http_ErrMissingContentLength
| http_ErrNotMultipart | http_ErrMissingBoundary.

#[global] Instance sentinel_eq_dec : EqDecision sentinel.
Proof. solve_decision. Defined.
#[global] Instance protocolSentinel_eq_dec : EqDecision protocolSentinel.
Proof. solve_decision. Defined.

(** A pointer to an error object is either one of the package-level
    singletons of the standard library or some other allocation. *)
Inductive ref (S : Type) : Type :=
| Known (s : S)
| Alloc (a : nat).
Arguments Known {S} s.
Arguments Alloc {S} a.

(** An [error] is a Go interface value: [nil], or a dynamic value
    together with the text its [Error] method returns.  [value] lists
    the dynamic types [parseError] dispatches on, plus [Other] for every
    type it does not name.  Pointer shapes stand for non-nil pointers;
    fields of type [error] ([Err]) may hold any error, [nil] included.

    An [Error] method is code of the standard library or of the caller,
    and it need not return: that of [*os.LinkError] calls the method of
    its [Err], that of [x509.HostnameError] reads its [Certificate], that
    of [*json.UnsupportedTypeError] calls its [Type], and each panics
    when that field is nil.  [Faulting] stands for the values whose
    [Error] method panics when [parseError] calls it, of whatever type
    whose case calls that method; they have no text, and [parseError]
    does not read the text paired with one.  A wrapper of the standard
    library whose [Err] is nil or faulting can be written with a text,
    but no call gives it: [Error_returns] below tells the values whose
    text is one their method returns. *)
Inductive error : Type :=
| nil_error
| iface (dyn : value) (text : string)
with value : Type :=
(* package net *)
| net_OpError (Op Net : string) (Source Addr : option string) (Err : error)
| net_AddrError (Err Addr : string)
| net_DNSError (Err Name Server : string)
| net_InvalidAddrError_ptr
| net_ParseError (Type_ Text : string)
| net_UnknownNetworkError
| syscall_Errno (errno : N)
| url_Error (Op URL : string) (Err : error)
(* package runtime *)
| runtime_TypeAssertionError
(* structs *)
| http_ProtocolError (p : ref protocolSentinel) (ErrorString : string)
| url_EscapeError (pointer : bool)
| url_InvalidHostError (pointer : bool)
| textproto_Error (Code : N) (Msg : string)
| textproto_ProtocolError (pointer : bool)
| tls_RecordHeaderError (Msg : string) (RecordHeader : list byte)
| x509_CertificateInvalidError
| x509_ConstraintViolationError
| x509_HostnameError (Host : string)
| x509_InsecureAlgorithmError
| x509_SystemRootsError
| x509_UnhandledCriticalExtension
| x509_UnknownAuthorityError
| hex_InvalidByteError
| json_InvalidUTF8Error
| json_InvalidUnmarshalError
| json_MarshalerError
| json_SyntaxError
| json_UnmarshalFieldError
| json_UnmarshalTypeError
| json_UnsupportedTypeError
| json_UnsupportedValueError
| os_LinkError (Op Old New : string) (Err : error)
| os_PathError (Op Path : string) (Err : error)
| os_SyscallError (Syscall : string) (Err : error)
| exec_Error (Name : string) (Err : error)
| exec_ExitError (Stderr : string)
| strconv_NumError (Func Num : string) (Err : error)
| time_ParseError (Layout Value LayoutElem ValueElem Message : string)
(* values made by errors.New *)
| errors_errorString (p : ref sentinel)
(* any other dynamic type: its name, whether it has the methods of
   net.Error and of runtime.Error, and whether it is comparable *)
| Other (ty : gotype) (isNetError isRuntimeError comparable : bool)
(* a value whose Error method panics: its type, whether it has the
   methods of net.Error and of runtime.Error, and the value of the panic *)
| Faulting (ty : gotype) (isNetError isRuntimeError : bool) (why : string).

Definition star (pointer : bool) (t : gotype) : gotype :=
  if pointer then TPtr t else t.

Definition typeOf (v : value) : gotype :=
  match v with
  | net_OpError _ _ _ _ _ => TPtr (TNamed "net" "OpError")
  | net_AddrError _ _ => TPtr (TNamed "net" "AddrError")
  | net_DNSError _ _ _ => TPtr (TNamed "net" "DNSError")
  | net_InvalidAddrError_ptr => TPtr (TNamed "net" "InvalidAddrError")
  | net_ParseError _ _ => TPtr (TNamed "net" "ParseError")
  | net_UnknownNetworkError => TNamed "net" "UnknownNetworkError"
  | syscall_Errno _ => TNamed "syscall" "Errno"
  | url_Error _ _ _ => TPtr (TNamed "url" "Error")
  | runtime_TypeAssertionError => TPtr (TNamed "runtime" "TypeAssertionError")
  | http_ProtocolError _ _ => TPtr (TNamed "http" "ProtocolError")
  | url_EscapeError p => star p (TNamed "url" "EscapeError")
  | url_InvalidHostError p => star p (TNamed "url" "InvalidHostError")
  | textproto_Error _ _ => TPtr (TNamed "textproto" "Error")
  | textproto_ProtocolError p => star p (TNamed "textproto" "ProtocolError")
  | tls_RecordHeaderError _ _ => TNamed "tls" "RecordHeaderError"
  | x509_CertificateInvalidError => TNamed "x509" "CertificateInvalidError"
  | x509_ConstraintViolationError => TNamed "x509" "ConstraintViolationError"
  | x509_HostnameError _ => TNamed "x509" "HostnameError"
  | x509_InsecureAlgorithmError => TNamed "x509" "InsecureAlgorithmError"
  | x509_SystemRootsError => TNamed "x509" "SystemRootsError"
  | x509_UnhandledCriticalExtension => TNamed "x509" "UnhandledCriticalExtension"
  | x509_UnknownAuthorityError => TNamed "x509" "UnknownAuthorityError"
  | hex_InvalidByteError => TNamed "hex" "InvalidByteError"
  | json_InvalidUTF8Error => TPtr (TNamed "json" "InvalidUTF8Error")
  | json_InvalidUnmarshalError => TPtr (TNamed "json" "InvalidUnmarshalError")
  | json_MarshalerError => TPtr (TNamed "json" "MarshalerError")
  | json_SyntaxError => TPtr (TNamed "json" "SyntaxError")
  | json_UnmarshalFieldError => TPtr (TNamed "json" "UnmarshalFieldError")
  | json_UnmarshalTypeError => TPtr (TNamed "json" "UnmarshalTypeError")
  | json_UnsupportedTypeError => TPtr (TNamed "json" "UnsupportedTypeError")
  | json_UnsupportedValueError => TPtr (TNamed "json" "UnsupportedValueError")
  | os_LinkError _ _ _ _ => TPtr (TNamed "os" "LinkError")
  | os_PathError _ _ _ => TPtr (TNamed "os" "PathError")
  | os_SyscallError _ _ => TPtr (TNamed "os" "SyscallError")
  | exec_Error _ _ => TPtr (TNamed "exec" "Error")
  | exec_ExitError _ => TPtr (TNamed "exec" "ExitError")
  | strconv_NumError _ _ _ => TPtr (TNamed "strconv" "NumError")
  | time_ParseError _ _ _ _ _ => TPtr (TNamed "time" "ParseError")
  | errors_errorString _ => TPtr (TNamed "errors" "errorString")
  | Other ty _ _ _ => ty
  | Faulting ty _ _ _ => ty
  end.

(** [err.(net.Error)]: the types of the standard library with the
    methods [Timeout] and [Temporary] next to [Error], and the foreign
    types that declare them.  The assertion fails on the nil interface. *)
Definition implements_net_Error (err : error) : bool :=
  match err with
  | nil_error => false
  | iface v _ =>
      match v with
      | net_OpError _ _ _ _ _ | net_AddrError _ _ | net_DNSError _ _ _
      | net_InvalidAddrError_ptr | net_ParseError _ _
      | net_UnknownNetworkError | syscall_Errno _ | url_Error _ _ _ => true
      | Other _ isNetError _ _ => isNetError
      | Faulting _ isNetError _ _ => isNetError
      | _ => false
      end
  end.

(** [err.(runtime.Error)]. *)
Definition implements_runtime_Error (err : error) : bool :=
  match err with
  | nil_error => false
  | iface v _ =>
      match v with
      | runtime_TypeAssertionError => true
      | Other _ _ isRuntimeError _ => isRuntimeError
      | Faulting _ _ isRuntimeError _ => isRuntimeError
      | _ => false
      end
  end.

(** [err.Error()]: a method call through the nil interface panics, and
    so does the method of a faulting value. *)
Definition Error_ (err : error) : result string :=
  match err with
  | nil_error => Panics nil_dereference
  | iface (Faulting _ _ _ why) _ => Panics why
  | iface _ text => Returns text
  end.

(** [reflect.TypeOf(err).String()]: [reflect.TypeOf(nil)] is the nil
    [Type], on which [String] panics. *)
Definition reflect_TypeOf_String (err : error) : result string :=
  match err with
  | nil_error => Panics nil_dereference
  | iface v _ => Returns (type_String (typeOf v))
  end.

(** ** [encoding/hex] *)

Definition hextable : string := "0123456789abcdef".

Definition hex_digit (n : N) : ascii :=
  match String.get (N.to_nat n) hextable with
  | Some c => c
  | None => "0"%char
  end.

Fixpoint hex_EncodeToString (src : list byte) : string :=
  match src with
  | [] => ""
  | b :: rest =>
      String (hex_digit (N.shiftr (Byte.to_N b) 4))
        (String (hex_digit (N.land (Byte.to_N b) 15))
           (hex_EncodeToString rest))
  end.

(** ** The results of [parseError]

    The four named results [op], [goType], [desc] and [extra].  A Go map
    is a reference that may be nil: [None] is the nil map, [Some m] a map
    made by [make]. *)

Definition gomap : Type := option (gmap string string).

Definition make_map : gomap := Some ∅.

Record parsed : Type := mkParsed {
  op : string;
  goType : string;
  desc : string;
  extra : gomap
}.

Definition zero_parsed : parsed :=
  {| op := ""; goType := ""; desc := ""; extra := None |}.

Definition set_op (s : string) (r : parsed) : parsed :=
  {| op := s; goType := goType r; desc := desc r; extra := extra r |}.
Definition set_goType (s : string) (r : parsed) : parsed :=
  {| op := op r; goType := s; desc := desc r; extra := extra r |}.
Definition set_desc (s : string) (r : parsed) : parsed :=
  {| op := op r; goType := goType r; desc := s; extra := extra r |}.
Definition set_extra (m : gomap) (r : parsed) : parsed :=
  {| op := op r; goType := goType r; desc := desc r; extra := m |}.

(** [extra[k] = v]; an assignment to an entry of the nil map panics. *)
Definition assign (k v : string) (r : parsed) : result parsed :=
  match extra r with
  | Some m => Returns (set_extra (Some (<[k:=v]> m)) r)
  | None => Panics "assignment to entry in nil map"
  end.

(** ** The two tables, keyed by error identity *)

Definition httpProtocolErrors : list (protocolSentinel * string) :=
  [ (http_ErrHeaderTooLong, "http.ErrHeaderTooLong");
    (http_ErrShortBody, "http.ErrShortBody");
    (http_ErrNotSupported, "http.ErrNotSupported");
    (http_ErrUnexpectedTrailer, "http.ErrUnexpectedTrailer");
    (http_ErrMissingContentLength, "http.ErrMissingContentLength");
    (http_ErrNotMultipart, "http.ErrNotMultipart");
    (http_ErrMissingBoundary, "http.ErrMissingBoundary") ].

Definition miscErrors : list (sentinel * string) :=
  [ (bufio_ErrInvalidUnreadByte, "bufio.ErrInvalidUnreadByte");
    (bufio_ErrInvalidUnreadRune, "bufio.ErrInvalidUnreadRune");
    (bufio_ErrBufferFull, "bufio.ErrBufferFull");
    (bufio_ErrNegativeCount, "bufio.ErrNegativeCount");
    (bufio_ErrTooLong, "bufio.ErrTooLong");
    (bufio_ErrNegativeAdvance, "bufio.ErrNegativeAdvance");
    (bufio_ErrAdvanceTooFar, "bufio.ErrAdvanceTooFar");
    (bufio_ErrFinalToken, "bufio.ErrFinalToken");

    (http_ErrWriteAfterFlush, "http.ErrWriteAfterFlush");
    (http_ErrBodyNotAllowed, "http.ErrBodyNotAllowed");
    (http_ErrHijacked, "http.ErrHijacked");
    (http_ErrContentLength, "http.ErrContentLength");
    (http_ErrBodyReadAfterClose, "http.ErrBodyReadAfterClose");
    (http_ErrHandlerTimeout, "http.ErrHandlerTimeout");
    (http_ErrLineTooLong, "http.ErrLineTooLong");
    (http_ErrMissingFile, "http.ErrMissingFile");
    (http_ErrNoCookie, "http.ErrNoCookie");
    (http_ErrNoLocation, "http.ErrNoLocation");
    (http_ErrSkipAltProtocol, "http.ErrSkipAltProtocol");

    (io_EOF, "io.EOF");
    (io_ErrClosedPipe, "io.ErrClosedPipe");
    (io_ErrNoProgress, "io.ErrNoProgress");
    (io_ErrShortBuffer, "io.ErrShortBuffer");
    (io_ErrShortWrite, "io.ErrShortWrite");
    (io_ErrUnexpectedEOF, "io.ErrUnexpectedEOF");

    (os_ErrInvalid, "os.ErrInvalid");
    (os_ErrPermission, "os.ErrPermission");
    (os_ErrExist, "os.ErrExist");
    (os_ErrNotExist, "os.ErrNotExist");

    (exec_ErrNotFound, "exec.ErrNotFound");

    (x509_ErrUnsupportedAlgorithm, "x509.ErrUnsupportedAlgorithm");
    (x509_IncorrectPasswordError, "x509.IncorrectPasswordError");

    (hex_ErrLength, "hex.ErrLength") ].

Fixpoint assoc {K} `{EqDecision K} (k : K) (m : list (K * string)) : option string :=
  match m with
  | [] => None
  | (k', name) :: rest => if decide (k' = k) then Some name else assoc k rest
  end.

(** The key of an error value in each table: only a pointer to one of
    the singletons can be equal to an entry. *)
Definition protocol_key (err : error) : option protocolSentinel :=
  match err with
  | iface (http_ProtocolError (Known s) _) _ => Some s
  | _ => None
  end.

Definition sentinel_key (err : error) : option sentinel :=
  match err with
  | iface (errors_errorString (Known s)) _ => Some s
  | _ => None
  end.

(** Hashing an interface key panics when its dynamic type is not
    comparable (a slice, a map, a struct holding one). *)
Definition hashable (err : error) : bool :=
  match err with
  | iface (Other _ _ _ comparable) _ => comparable
  | _ => true
  end.

(** [name, ok := m[err]] *)
Definition index {K} `{EqDecision K} (m : list (K * string))
    (key : error -> option K) (err : error) : result (option string) :=
  if hashable err then Returns (k ← key err; assoc k m)
  else Panics "hash of unhashable type".

(** ** [parseError] *)

(** Lines 221-231: a [*net.OpError] gives its [Op], addresses and network
    and is replaced by the error it wraps. *)
Definition unwrapOpError (err : error) (r : parsed) : result (error * parsed) :=
  match err with
  | iface (net_OpError Op Net Source Addr Err) _ =>
      let r := set_op Op r in
      r ← match Source with
          | Some s => assign "localAddr" s r
          | None => Returns r
          end;
      r ← match Addr with
          | Some s => assign "remoteAddr" s r
          | None => Returns r
          end;
      r ← assign "network" Net r;
      Returns (Err, r)
  | _ => Returns (err, r)
  end.

(** Lines 232-265: the type switch of the [net.Error] branch. *)
Definition switchNet (err : error) (r : parsed) : result parsed :=
  match err with
  | iface (net_AddrError Err Addr) _ =>
      let r := set_goType "net.AddrError" r in
      let r := set_desc Err r in
      assign "addr" Addr r
  | iface (net_DNSError Err Name Server) _ =>
      let r := set_goType "net.DNSError" r in
      let r := set_desc Err r in
      r ← assign "domain" Name r;
      if negb (String.eqb Server "") then assign "dnsServer" Server r
      else Returns r
  | iface net_InvalidAddrError_ptr text =>
      let r := set_goType "net.InvalidAddrError" r in
      Returns (set_desc text r)
  | iface (net_ParseError Type_ Text) _ =>
      let r := set_goType "net.ParseError" r in
      let r := set_desc ("invalid " +:+ Type_) r in
      assign "textToParse" Text r
  | iface net_UnknownNetworkError _ =>
      let r := set_goType "net.UnknownNetworkError" r in
      Returns (set_desc "unknown network" r)
  | iface (syscall_Errno _) text =>
      let r := set_goType "syscall.Errno" r in
      Returns (set_desc text r)
  | iface (url_Error Op _ Err) _ =>
      let r := set_goType "url.Error" r in
      d ← Error_ Err;
      let r := set_desc d r in
      Returns (set_op Op r)
  | _ =>
      t ← reflect_TypeOf_String err;
      let r := set_goType t r in
      d ← Error_ err;
      Returns (set_desc d r)
  end.

(** Lines 267-276: the [runtime.Error] branch. *)
Definition switchRuntime (err : error) (r : parsed) : result parsed :=
  d ← Error_ err;
  let r := set_desc d r in
  match err with
  | iface runtime_TypeAssertionError _ =>
      Returns (set_goType "runtime.TypeAssertionError" r)
  | _ =>
      t ← reflect_TypeOf_String err;
      Returns (set_goType t r)
  end.

(** Lines 279-389: the type switch over the struct types, with the
    sentinel table and the dynamic type name in its default case. *)
Definition switchStruct (err : error) (r : parsed) : result parsed :=
  match err with
  | iface (http_ProtocolError _ ErrorString) _ =>
      let r := set_desc ErrorString r in
      found ← index httpProtocolErrors protocol_key err;
      match found with
      | Some name => Returns (set_goType name r)
      | None => Returns (set_goType "http.ProtocolError" r)
      end
  | iface (url_EscapeError _) _ =>
      let r := set_goType "url.EscapeError" r in
      Returns (set_desc "invalid URL escape" r)
  | iface (url_InvalidHostError _) _ =>
      let r := set_goType "url.InvalidHostError" r in
      Returns (set_desc "invalid character in host name" r)
  | iface (textproto_Error _ _) text =>
      let r := set_goType "textproto.Error" r in
      Returns (set_desc text r)
  | iface (textproto_ProtocolError _) text =>
      let r := set_goType "textproto.ProtocolError" r in
      Returns (set_desc text r)

  | iface (tls_RecordHeaderError Msg RecordHeader) _ =>
      let r := set_goType "tls.RecordHeaderError" r in
      let r := set_desc Msg r in
      assign "header" (hex_EncodeToString RecordHeader) r
  | iface x509_CertificateInvalidError text =>
      let r := set_goType "x509.CertificateInvalidError" r in
      Returns (set_desc text r)
  | iface x509_ConstraintViolationError text =>
      let r := set_goType "x509.ConstraintViolationError" r in
      Returns (set_desc text r)
  | iface (x509_HostnameError Host) text =>
      let r := set_goType "x509.HostnameError" r in
      let r := set_desc text r in
      assign "host" Host r
  | iface x509_InsecureAlgorithmError text =>
      let r := set_goType "x509.InsecureAlgorithmError" r in
      Returns (set_desc text r)
  | iface x509_SystemRootsError text =>
      let r := set_goType "x509.SystemRootsError" r in
      Returns (set_desc text r)
  | iface x509_UnhandledCriticalExtension text =>
      let r := set_goType "x509.UnhandledCriticalExtension" r in
      Returns (set_desc text r)
  | iface x509_UnknownAuthorityError text =>
      let r := set_goType "x509.UnknownAuthorityError" r in
      Returns (set_desc text r)
  | iface hex_InvalidByteError _ =>
      let r := set_goType "hex.InvalidByteError" r in
      Returns (set_desc "invalid byte" r)
  | iface json_InvalidUTF8Error _ =>
      let r := set_goType "json.InvalidUTF8Error" r in
      Returns (set_desc "invalid UTF-8 in string" r)
  | iface json_InvalidUnmarshalError text =>
      let r := set_goType "json.InvalidUnmarshalError" r in
      Returns (set_desc text r)
  | iface json_MarshalerError text =>
      let r := set_goType "json.MarshalerError" r in
      Returns (set_desc text r)
  | iface json_SyntaxError text =>
      let r := set_goType "json.SyntaxError" r in
      Returns (set_desc text r)
  | iface json_UnmarshalFieldError text =>
      let r := set_goType "json.UnmarshalFieldError" r in
      Returns (set_desc text r)
  | iface json_UnmarshalTypeError text =>
      let r := set_goType "json.UnmarshalTypeError" r in
      Returns (set_desc text r)
  | iface json_UnsupportedTypeError text =>
      let r := set_goType "json.UnsupportedTypeError" r in
      Returns (set_desc text r)
  | iface json_UnsupportedValueError text =>
      let r := set_goType "json.UnsupportedValueError" r in
      Returns (set_desc text r)

  | iface (os_LinkError _ _ _ _) text =>
      let r := set_goType "textproto.ProtocolError" r in
      Returns (set_desc text r)
  | iface (os_PathError Op _ Err) _ =>
      let r := set_goType "os.PathError" r in
      let r := set_op Op r in
      d ← Error_ Err;
      Returns (set_desc d r)
  | iface (os_SyscallError Syscall Err) _ =>
      let r := set_goType "os.SyscallError" r in
      let r := set_op Syscall r in
      d ← Error_ Err;
      Returns (set_desc d r)
  | iface (exec_Error _ Err) _ =>
      let r := set_goType "exec.Error" r in
      d ← Error_ Err;
      Returns (set_desc d r)
  | iface (exec_ExitError Stderr) text =>
      let r := set_goType "exec.ExitError" r in
      let r := set_desc text r in
      assign "stderr" Stderr r
  | iface (strconv_NumError Func _ Err) _ =>
      let r := set_goType "strconv.NumError" r in
      d ← Error_ Err;
      let r := set_desc d r in
      assign "function" Func r
  | iface (time_ParseError _ _ _ _ Message) _ =>
      let r := set_goType "time.ParseError" r in
      Returns (set_desc Message r)
  | _ =>
      d ← Error_ err;
      let r := set_desc d r in
      found ← index miscErrors sentinel_key err;
      match found with
      | Some t => Returns (set_goType t r)
      | None =>
          t ← reflect_TypeOf_String err;
          Returns (set_goType t r)
      end
  end.

(** [parseError(err)], lines 216-390. *)
Definition parseError (err : error) : result parsed :=
  let r := zero_parsed in
  let r := set_extra make_map r in
  if implements_net_Error err then
    '(err, r) ← unwrapOpError err r;
    switchNet err r
  else if implements_runtime_Error err then
    switchRuntime err r
  else
    switchStruct err r.

(** Some values of the standard library. *)
Definition EOF : error := iface (errors_errorString (Known io_EOF)) "EOF".
Definition ErrNotExist : error :=
  iface (errors_errorString (Known os_ErrNotExist)) "file does not exist".
Definition ErrShortBody : error :=
  iface (http_ProtocolError (Known http_ErrShortBody) "entity body too short")
        "entity body too short".

(** [errors.New(text)]: a fresh allocation, equal to no singleton. *)
Definition errors_New (a : nat) (text : string) : error :=
  iface (errors_errorString (Alloc a)) text.

(** ** The record and its context blocks *)

Definition Op : Type := string.

Definition OpDial : Op := "dial".
Definition OpRead : Op := "read".
Definition OpWrite : Op := "write".
Definition OpClose : Op := "close".

Record systemInfo : Type := {
  OSType : string;
  OSVersion : string;
  OSArch : string
}.

Record UserLocale : Type := {
  TimeZone : string;
  Language : string;
  Country : string
}.

Definition ProxyType : Type := string.

Definition NoProxy : ProxyType := "no".
Definition ChainedProxy : ProxyType := "chained".
Definition FrontedProxy : ProxyType := "fronted".
Definition DirectFrontedProxy : ProxyType := "DDF".

Record ProxyingInfo : Type := {
  ProxyingInfo_ProxyType : ProxyType;
  LocalAddr : string;
  ProxyAddr : string;
  ProxyDC : string;
  OriginSite : string;
  Scheme : string
}.

Record UserAgentInfo : Type := {
  UserAgent : string
}.

(** A Go pointer: nil or the address of a block. *)
Definition ptr : Type := option nat.

(** [Error]: the four embedded pointers are fields named after their
    types in Go; here they carry the prefix [Error_]. *)
Record Error : Type := mkError {
  GoPackage : string;
  GoType : string;
  Desc : string;
  Error_Op : Op;
  Extra : gomap;
  Error_systemInfo : ptr;
  Error_ProxyingInfo : ptr;
  Error_UserLocale : ptr;
  Error_UserAgentInfo : ptr
}.

(** [ErrorCollector]; its [logger] is never read and left out. *)
Record ErrorCollector : Type := {
  goPackage : string;
  ErrorCollector_systemInfo : ptr
}.

(** The blocks pointers point to, one store per type.  The package
    allocates [systemInfo] and [UserLocale] blocks itself (a new block
    goes to the end of the list, its address is its index); the
    [ProxyingInfo] and [UserAgentInfo] blocks belong to the callers. *)
Record Heap : Type := {
  systemInfos : list systemInfo;
  proxyingInfos : gmap nat ProxyingInfo;
  userLocales : list UserLocale;
  userAgentInfos : gmap nat UserAgentInfo
}.

(** [Reporter]: the nil interface, the package's [StdReporter], or a
    sink of another package, which returns from [Report] or panics. *)
Inductive Reporter : Type :=
| nil_Reporter
| StdReporter
| Custom (id : nat) (faulty : bool).

#[global] Instance Reporter_eq_dec : EqDecision Reporter.
Proof. solve_decision. Defined.

(** What the package reads from outside itself: the constants of package
    [runtime], the probes of the host ([osversion], [jibber_jabber], the
    time zone printed by [time.Now().Format("MST")]) with the error they
    return dropped as the code drops it, and [json.Marshal], which gives
    the bytes ([inl]) or an error ([inr]). *)
Record Outside : Type := {
  runtime_GOOS : string;
  runtime_GOARCH : string;
  osversion_GetHumanReadable : string;
  jibber_jabber_DetectLanguage : string;
  jibber_jabber_DetectTerritory : string;
  time_Now_Format_MST : string;
  json_Marshal : Heap -> Error -> string + string
}.

(** The state of the process: the outside, the blocks, the package
    variable [currentReporter], standard output, and the history of the
    calls [r.Report(e)] made so far, oldest first. *)
Record World : Type := {
  outside : Outside;
  heap : Heap;
  currentReporter : Reporter;
  stdout : list string;
  reports : list (Reporter * Error)
}.

(** Code that runs in the process: it changes the world and returns or
    panics; the changes made before a panic stay. *)
Definition M (A : Type) : Type := World -> World * result A.

#[global] Instance M_ret : MRet M := fun _ a w => (w, Returns a).
#[global] Instance M_bind : MBind M := fun _ _ f m w =>
  match m w with
  | (w', Returns a) => f a w'
  | (w', Panics why) => (w', Panics why)
  end.

Definition lift {A} (m : result A) : M A := fun w => (w, m).
Definition panic {A} (why : string) : M A := fun w => (w, Panics why).
Definition get : M World := fun w => (w, Returns w).

Definition set_heap (h : Heap) (w : World) : World :=
  {| outside := outside w; heap := h; currentReporter := currentReporter w;
     stdout := stdout w; reports := reports w |}.
Definition set_currentReporter (r : Reporter) (w : World) : World :=
  {| outside := outside w; heap := heap w; currentReporter := r;
     stdout := stdout w; reports := reports w |}.
Definition set_stdout (out : list string) (w : World) : World :=
  {| outside := outside w; heap := heap w; currentReporter := currentReporter w;
     stdout := out; reports := reports w |}.
Definition set_reports (l : list (Reporter * Error)) (w : World) : World :=
  {| outside := outside w; heap := heap w; currentReporter := currentReporter w;
     stdout := stdout w; reports := l |}.

(** [&UserLocale{...}] and [&systemInfo{...}] *)
Definition new_UserLocale (l : UserLocale) : M ptr := fun w =>
  let h := heap w in
  (set_heap {| systemInfos := systemInfos h; proxyingInfos := proxyingInfos h;
               userLocales := userLocales h ++ [l];
               userAgentInfos := userAgentInfos h |} w,
   Returns (Some (length (userLocales h)))).

Definition new_systemInfo (s : systemInfo) : M ptr := fun w =>
  let h := heap w in
  (set_heap {| systemInfos := systemInfos h ++ [s];
               proxyingInfos := proxyingInfos h;
               userLocales := userLocales h;
               userAgentInfos := userAgentInfos h |} w,
   Returns (Some (length (systemInfos h)))).

(** Reading through a pointer. *)
Definition systemInfo_at (h : Heap) (p : ptr) : option systemInfo :=
  a ← p; systemInfos h !! a.
Definition ProxyingInfo_at (h : Heap) (p : ptr) : option ProxyingInfo :=
  a ← p; proxyingInfos h !! a.
Definition UserLocale_at (h : Heap) (p : ptr) : option UserLocale :=
  a ← p; userLocales h !! a.
Definition UserAgentInfo_at (h : Heap) (p : ptr) : option UserAgentInfo :=
  a ← p; userAgentInfos h !! a.

(** ** Decorators

    A [withFunc] is one of the closures the four constructors of the
    package return; calling it mutates the record it is given. *)

Inductive withFunc : Type :=
| WithOp (op : Op)
| WithProxy (info : ptr)
| WithLocale
| WithUserAgent (info : ptr).

Definition set_Op (o : Op) (e : Error) : Error :=
  mkError (GoPackage e) (GoType e) (Desc e) o (Extra e) (Error_systemInfo e)
          (Error_ProxyingInfo e) (Error_UserLocale e) (Error_UserAgentInfo e).
Definition set_ProxyingInfo (p : ptr) (e : Error) : Error :=
  mkError (GoPackage e) (GoType e) (Desc e) (Error_Op e) (Extra e)
          (Error_systemInfo e) p (Error_UserLocale e) (Error_UserAgentInfo e).
Definition set_UserLocale (p : ptr) (e : Error) : Error :=
  mkError (GoPackage e) (GoType e) (Desc e) (Error_Op e) (Extra e)
          (Error_systemInfo e) (Error_ProxyingInfo e) p (Error_UserAgentInfo e).
Definition set_UserAgentInfo (p : ptr) (e : Error) : Error :=
  mkError (GoPackage e) (GoType e) (Desc e) (Error_Op e) (Extra e)
          (Error_systemInfo e) (Error_ProxyingInfo e) (Error_UserLocale e) p.

(** [f(actual)], lines 132-160. *)
Definition decorate (f : withFunc) (e : Error) : M Error :=
  match f with
  | WithOp op => mret (set_Op op e)
  | WithProxy info => mret (set_ProxyingInfo info e)
  | WithLocale =>
      w ← get;
      let lang := jibber_jabber_DetectLanguage (outside w) in
      let country := jibber_jabber_DetectTerritory (outside w) in
      p ← new_UserLocale {| TimeZone := time_Now_Format_MST (outside w);
                            Language := lang;
                            Country := country |};
      mret (set_UserLocale p e)
  | WithUserAgent info => mret (set_UserAgentInfo info e)
  end.

(** [for _, f := range with { f(actual) }] *)
Fixpoint range (with_ : list withFunc) (actual : Error) : M Error :=
  match with_ with
  | [] => mret actual
  | f :: rest => actual ← decorate f actual; range rest actual
  end.

(** ** Reporters *)

(** [toJSON], lines 201-207. *)
Definition toJSON (e : Error) : M string :=
  w ← get;
  match json_Marshal (outside w) (heap w) e with
  | inl b => mret b
  | inr err => panic ("failed to convert error to json: " +:+ err)
  end.

(** [fmt.Printf("%+v", s)] *)
Definition fmt_Printf (s : string) : M unit := fun w =>
  (set_stdout (stdout w ++ [s]) w, Returns tt).

(** The call [r.Report(e)] is written to the history before the body of
    the method runs.  Through the nil interface the call panics and
    nothing is handed over. *)
Definition handed (r : Reporter) (e : Error) : M unit := fun w =>
  (set_reports (reports w ++ [(r, e)]) w, Returns tt).

Definition Report (r : Reporter) (e : Error) : M unit :=
  match r with
  | nil_Reporter => panic nil_dereference
  | StdReporter =>
      handed r e;;
      b ← toJSON e;
      fmt_Printf b
  | Custom _ faulty =>
      handed r e;;
      if faulty then panic "Report" else mret tt
  end.

(** [ReportTo], lines 197-199. *)
Definition ReportTo (r : Reporter) : M unit := fun w =>
  (set_currentReporter r w, Returns tt).

(** ** The collector *)

(** [NewErrorCollector], lines 178-189. *)
Definition NewErrorCollector (goPackage : string) : M ErrorCollector :=
  w ← get;
  let version := osversion_GetHumanReadable (outside w) in
  s ← new_systemInfo {| OSType := runtime_GOOS (outside w);
                        OSVersion := version;
                        OSArch := runtime_GOARCH (outside w) |};
  mret {| goPackage := goPackage; ErrorCollector_systemInfo := s |}.

(** The record [Log] builds from the results of [parseError], lines
    164-171; the three fields it does not name are nil. *)
Definition actual_of (c : ErrorCollector) (r : parsed) : Error :=
  {| GoPackage := goPackage c;
     GoType := goType r;
     Desc := desc r;
     Error_Op := op r;
     Extra := extra r;
     Error_systemInfo := ErrorCollector_systemInfo c;
     Error_ProxyingInfo := None;
     Error_UserLocale := None;
     Error_UserAgentInfo := None |}.

(** [c.Log(err, with...)], lines 162-176. *)
Definition Log (c : ErrorCollector) (err : error) (with_ : list withFunc) : M unit :=
  r ← lift (parseError err);
  let actual := actual_of c r in
  actual ← range with_ actual;
  w ← get;
  Report (currentReporter w) actual.

(** ** Runs of the process

    The calls other packages make, one after the other.  A caller may
    recover from a panic, so a run goes on after one. *)

Inductive call : Type :=
| call_NewErrorCollector (goPackage : string)
| call_ReportTo (r : Reporter)
| call_Log (c : ErrorCollector) (err : error) (with_ : list withFunc).

Definition step (w : World) (k : call) : World :=
  match k with
  | call_NewErrorCollector goPackage => fst (NewErrorCollector goPackage w)
  | call_ReportTo r => fst (ReportTo r w)
  | call_Log c err with_ => fst (Log c err with_ w)
  end.

Definition run (calls : list call) (w : World) : World :=
  fold_left step calls w.

(** The process at its start: [currentReporter] is [&StdReporter{}]. *)
Definition start (o : Outside) : World :=
  {| outside := o;
     heap := {| systemInfos := []; proxyingInfos := ∅;
                userLocales := []; userAgentInfos := ∅ |};
     currentReporter := StdReporter;
     stdout := [];
     reports := [] |}.

(** ** Well-formed error values

    [parseError] calls the [Error] method of the error it is given or of
    the error field it reads; it returns when that call returns and the
    value can be hashed. *)

Definition non_nil (err : error) : bool :=
  match err with
  | nil_error => false
  | iface _ _ => true
  end.

(** The error [parseError] classifies: the one inside a [*net.OpError],
    the error itself otherwise. *)
Definition subject (err : error) : error :=
  match err with
  | iface (net_OpError _ _ _ _ Err) _ => Err
  | _ => err
  end.

(** The error field whose message becomes the description. *)
Definition cause (err : error) : option error :=
  match err with
  | iface (url_Error _ _ Err) _
  | iface (os_PathError _ _ Err) _
  | iface (os_SyscallError _ Err) _
  | iface (exec_Error _ Err) _
  | iface (strconv_NumError _ _ Err) _ => Some Err
  | _ => None
  end.

(** The [Error] method of the value returns: the value is not nil and
    not faulting, and when it is one of the wrappers of the standard
    library, whose method calls the method of the error it wraps
    ([*net.OpError], [*url.Error], [*os.LinkError], [*os.PathError],
    [*os.SyscallError], [*exec.Error], [*strconv.NumError]), the method
    of that error returns, in turn. *)
Fixpoint Error_returns (err : error) : bool :=
  match err with
  | nil_error => false
  | iface v _ =>
      match v with
      | Faulting _ _ _ _ => false
      | net_OpError _ _ _ _ Err
      | url_Error _ _ Err
      | os_LinkError _ _ _ Err
      | os_PathError _ _ Err
      | os_SyscallError _ Err
      | exec_Error _ Err
      | strconv_NumError _ _ Err => Error_returns Err
      | _ => true
      end
  end.

(** The error that is classified is not nil, its [Error] method returns,
    so that the method of the cause read for the description returns as
    well, and its dynamic type is comparable. *)
Definition well_formed (err : error) : bool :=
  Error_returns (subject err) && hashable (subject err).

(** The value has a text: it is neither nil nor faulting. *)
Definition speaks (err : error) : bool :=
  match err with
  | nil_error | iface (Faulting _ _ _ _) _ => false
  | _ => true
  end.

(** [parseError] returns exactly on these values. *)

Definition net_sound (err : error) : bool :=
  match err with
  | iface (url_Error _ _ Err) _ => speaks Err
  | _ => speaks err
  end.

Definition struct_sound (err : error) : bool :=
  match err with
  | iface (os_PathError _ _ Err) _
  | iface (os_SyscallError _ Err) _
  | iface (exec_Error _ Err) _
  | iface (strconv_NumError _ _ Err) _ => speaks Err
  | _ => speaks err && hashable err
  end.

Definition classifiable (err : error) : bool :=
  if implements_net_Error err then net_sound (subject err)
  else if implements_runtime_Error err then speaks err
  else struct_sound err.

(** The message strings of an error value are all non-empty: the text of
    its [Error] method, the message fields of its struct, the text of the
    error it wraps. *)
Definition nonempty (s : string) : bool := negb (String.eqb s "").

Definition text_of (err : error) : string :=
  match err with
  | nil_error => ""
  | iface _ text => text
  end.

Definition worded1 (err : error) : bool :=
  nonempty (text_of err)
  && match err with
     | iface (net_AddrError Err _) _ | iface (net_DNSError Err _ _) _ => nonempty Err
     | iface (http_ProtocolError _ ErrorString) _ => nonempty ErrorString
     | iface (tls_RecordHeaderError Msg _) _ => nonempty Msg
     | iface (time_ParseError _ _ _ _ Message) _ => nonempty Message
     | _ => true
     end
  && match cause err with
     | Some Err => nonempty (text_of Err)
     | None => true
     end.

Definition worded (err : error) : bool := worded1 (subject err).

(** ** The decorators of a list *)

Definition is_WithOp (f : withFunc) : bool :=
  match f with WithOp _ => true | _ => false end.
Definition is_WithLocale (f : withFunc) : bool :=
  match f with WithLocale => true | _ => false end.

(** The records handed over between two states of the process. *)
Definition handed_since (w w' : World) : list (Reporter * Error) :=
  drop (length (reports w)) (reports w').

(** A caller writes through its pointer: [*info = v]. *)
Definition store_ProxyingInfo (a : nat) (v : ProxyingInfo) (w : World) : World :=
  let h := heap w in
  set_heap {| systemInfos := systemInfos h;
              proxyingInfos := <[a:=v]> (proxyingInfos h);
              userLocales := userLocales h;
              userAgentInfos := userAgentInfos h |} w.

(** What [Log] hands over for a classified error and a decorated
    record: package, classification and system information are those of
    the call. *)
Definition record_of (c : ErrorCollector) (err : error) (e : Error) : Prop :=
  exists r, parseError err = Returns r
    /\ GoPackage e = goPackage c
    /\ GoType e = goType r
    /\ Desc e = desc r
    /\ Extra e = extra r
    /\ Error_systemInfo e = ErrorCollector_systemInfo c.

Definition delivers (r : Reporter) (k : call) (d : Reporter * Error) : Prop :=
  match k with
  | call_Log c err _ => d.1 = r /\ record_of c err d.2
  | _ => False
  end.

Definition produces_record (k : call) : bool :=
  match k with
  | call_Log _ err _ => classifiable err
  | _ => false
  end.

(** What a returned classification has: a map, a type name, and a
    description when the error brought one. *)
Definition sound_result (err : error) (r : parsed) : Prop :=
  is_Some (extra r) /\ goType r <> "" /\ (worded1 err = true -> desc r <> "").

(** What the decorators leave alone, in the process and in the record. *)
Definition frame (w w' : World) : Prop :=
  outside w' = outside w
  /\ currentReporter w' = currentReporter w
  /\ stdout w' = stdout w
  /\ reports w' = reports w
  /\ systemInfos (heap w') = systemInfos (heap w)
  /\ proxyingInfos (heap w') = proxyingInfos (heap w)
  /\ userAgentInfos (heap w') = userAgentInfos (heap w).

Definition same_base (e e' : Error) : Prop :=
  GoPackage e' = GoPackage e
  /\ GoType e' = GoType e
  /\ Desc e' = Desc e
  /\ Extra e' = Extra e
  /\ Error_systemInfo e' = Error_systemInfo e.

(** The record once the decorators of [Log] have run. *)
Definition decorated (with_ : list withFunc) (e : Error) (w : World) : Error :=
  match snd (range with_ e w) with
  | Returns e' => e'
  | Panics _ => e
  end.

(** The argument of the last decorator of one kind in a list. *)
Definition pick_Op (f : withFunc) : option Op :=
  match f with WithOp o => Some o | _ => None end.
Definition pick_ProxyingInfo (f : withFunc) : option ptr :=
  match f with WithProxy info => Some info | _ => None end.
Definition pick_UserAgentInfo (f : withFunc) : option ptr :=
  match f with WithUserAgent info => Some info | _ => None end.

Definition last_arg {A} (pick : withFunc -> option A) (with_ : list withFunc) (a : A) : A :=
  fold_left (fun a f => default a (pick f)) with_ a.

(** The block [WithLocale] attaches. *)
Definition probed_UserLocale (o : Outside) : UserLocale :=
  {| TimeZone := time_Now_Format_MST o;
     Language := jibber_jabber_DetectLanguage o;
     Country := jibber_jabber_DetectTerritory o |}.

(** The snapshot [NewErrorCollector] takes. *)
Definition snapshot (o : Outside) : systemInfo :=
  {| OSType := runtime_GOOS o;
     OSVersion := osversion_GetHumanReadable o;
     OSArch := runtime_GOARCH o |}.

(** What the locale decorators of a list do to the store of locale
    blocks and to the pointer of the record. *)
Definition locale_effect (with_ : list withFunc) (e e' : Error) (w w' : World) : Prop :=
  userLocales (heap w) `prefix_of` userLocales (heap w')
  /\ (existsb is_WithLocale with_ = true ->
      exists a, Error_UserLocale e' = Some a
        /\ length (userLocales (heap w)) <= a
        /\ userLocales (heap w') !! a = Some (probed_UserLocale (outside w)))
  /\ (existsb is_WithLocale with_ = false ->
      Error_UserLocale e' = Error_UserLocale e
      /\ userLocales (heap w') = userLocales (heap w)).

(** The records one call of [Log] hands over: none when [parseError]
    panics or the reporter is nil, else the decorated record, once. *)
Definition Log_hands (c : ErrorCollector) (err : error) (with_ : list withFunc)
    (w : World) : list (Reporter * Error) :=
  match parseError err with
  | Returns p =>
      if decide (currentReporter w = nil_Reporter) then []
      else [(currentReporter w, decorated with_ (actual_of c p) w)]
  | Panics _ => []
  end.

Definition step_hands (w : World) (k : call) : list (Reporter * Error) :=
  match k with
  | call_Log c err with_ => Log_hands c err with_ w
  | _ => []
  end.

Definition is_ReportTo (k : call) : bool :=
  match k with call_ReportTo _ => true | _ => false end.

(** Two decorators made by the same constructor. *)
Definition same_kind (f g : withFunc) : bool :=
  match f, g with
  | WithOp _, WithOp _ | WithProxy _, WithProxy _
  | WithLocale, WithLocale | WithUserAgent _, WithUserAgent _ => true
  | _, _ => false
  end.

(** The dynamic types no case of [parseError] names. *)
Definition unnamed (v : value) : bool :=
  match v with
  | Other _ _ _ _ | errors_errorString (Alloc _) => true
  | _ => false
  end.

(** The struct types the last type switch names, and the name each case
    is written for: the type without its star. *)
Definition struct_case (v : value) : bool :=
  match v with
  | net_OpError _ _ _ _ _ | net_AddrError _ _ | net_DNSError _ _ _
  | net_InvalidAddrError_ptr | net_ParseError _ _ | net_UnknownNetworkError
  | syscall_Errno _ | url_Error _ _ _ | runtime_TypeAssertionError
  | errors_errorString _ | Other _ _ _ _ | Faulting _ _ _ _ => false
  | _ => true
  end.

Definition base_type (t : gotype) : gotype :=
  match t with
  | TPtr elem => elem
  | _ => t
  end.

(** ** A process to run examples in

    A host, a serializer that succeeds and one that fails, and the
    collector of one package. *)

Definition some_json : Heap -> Error -> string + string :=
  fun _ _ => inl "{}".

Definition host (marshal : Heap -> Error -> string + string) : Outside :=
  {| runtime_GOOS := "linux";
     runtime_GOARCH := "amd64";
     osversion_GetHumanReadable := "Ubuntu 14.04";
     jibber_jabber_DetectLanguage := "en";
     jibber_jabber_DetectTerritory := "US";
     time_Now_Format_MST := "UTC";
     json_Marshal := marshal |}.

(** The process after [NewErrorCollector("flashlight")], and the
    collector that call returns. *)
Definition booted (marshal : Heap -> Error -> string + string) : World :=
  fst (NewErrorCollector "flashlight" (start (host marshal))).

Definition flashlight : ErrorCollector :=
  {| goPackage := "flashlight"; ErrorCollector_systemInfo := Some 0 |}.

(** Error values of the examples. *)
Definition ENOENT : error := iface (syscall_Errno 2) "no such file or directory".

Definition rename_failed : error :=
  iface (os_LinkError "rename" "a" "b" ENOENT)
        "rename a b: no such file or directory".

Definition read_EOF : error :=
  iface (net_OpError "read" "tcp" None (Some "10.0.0.1:443") EOF)
        "read tcp 10.0.0.1:443: EOF".


(** A [scanner.ErrorList] of package [go/scanner]: a slice type with an
    [Error] method, hence not comparable. *)
Definition ErrorList : error :=
  iface (Other (TNamed "scanner" "ErrorList") false false false)
        "x.go:1:1: expected 'package', found 'EOF'".

Definition bad_time : error :=
  iface (time_ParseError "2006-01-02" "garbage" "2006" "garbage" "")
        "parsing time garbage as 2006-01-02: cannot parse garbage as 2006".

Definition Get_failed : error :=
  iface (url_Error "Get" "http://example.invalid/" EOF)
        "Get http://example.invalid/: EOF".

Definition proxy_block : ProxyingInfo :=
  {| ProxyingInfo_ProxyType := ChainedProxy;
     LocalAddr := "127.0.0.1:8787";
     ProxyAddr := "10.0.0.1:443";
     ProxyDC := "fra1";
     OriginSite := "example.com";
     Scheme := "http" |}.

(** The process with a [ProxyingInfo] block of a caller at address 7,
    and the record of [io.EOF] with a proxy and a locale pointer. *)
Definition proxied : World := store_ProxyingInfo 7 proxy_block (booted some_json).

Definition EOF_record (p l : ptr) : Error :=
  mkError "flashlight" "io.EOF" "EOF" "" (Some ∅) (Some 0) p l None.

(** ** Further definitions for the properties of the classifier *)

(** The keys [parseError] writes. *)
Definition wrapper_keys : gset string := {[ "localAddr"; "remoteAddr"; "network" ]}.
Definition shape_keys : gset string :=
  {[ "addr"; "domain"; "dnsServer"; "textToParse"; "header"; "host"; "stderr"; "function" ]}.

Definition is_OpError (err : error) : bool :=
  match err with
  | iface (net_OpError _ _ _ _ _) _ => true
  | _ => false
  end.

Definition is_sentinel (err : error) : bool :=
  match err with
  | iface (errors_errorString (Known _)) _ => true
  | iface (http_ProtocolError (Known _) _) _ => true
  | _ => false
  end.

Definition same_identity (e1 e2 : error) : Prop :=
  match e1, e2 with
  | iface (errors_errorString (Known s1)) _, iface (errors_errorString (Known s2)) _ =>
      s1 = s2
  | iface (http_ProtocolError (Known s1) _) _, iface (http_ProtocolError (Known s2) _) _ =>
      s1 = s2
  | _, _ => False
  end.

Definition all_sentinels : list ((sentinel + protocolSentinel) * string) :=
  map (fun kn => (inl (fst kn), snd kn)) miscErrors
  ++ map (fun kn => (inr (fst kn), snd kn)) httpProtocolErrors.

Definition is_LinkError (v : value) : bool :=
  match v with os_LinkError _ _ _ _ => true | _ => false end.

(** The name a case of the struct switch is written for. *)
Definition case_name (v : value) : string := type_String (base_type (typeOf v)).

(** The struct cases that give the name of their own type: all but the
    one of [*os.LinkError], and a [*http.ProtocolError] that is not one of
    the singletons of the table. *)
Definition own_name_case (v : value) : bool :=
  struct_case v && negb (is_LinkError v)
  && match v with
     | http_ProtocolError (Known _) _ => false
     | _ => true
     end.

(** The value of a hexadecimal digit, and the byte two digits stand for. *)
Definition hex_value (c : ascii) : option N :=
  N.of_nat <$> String.index 0 (String c EmptyString) hextable.

Definition hex_byte (c1 c2 : ascii) : option byte :=
  hi ← hex_value c1; lo ← hex_value c2; Byte.of_N (16 * hi + lo).

Fixpoint hex_bytes (s : string) : option (list byte) :=
  match s with
  | EmptyString => Some []
  | String c1 (String c2 rest) =>
      b ← hex_byte c1 c2; l ← hex_bytes rest; Some (b :: l)
  | String _ EmptyString => None
  end.

(** * Package [config]: the poller of the cloud configuration *)

Module textproto.

(** [validHeaderFieldByte]: the characters of an HTTP token. *)
Definition validHeaderFieldByte (c : ascii) : bool :=
  let n := N_of_ascii c in
  ((48 <=? n) && (n <=? 57) || (65 <=? n) && (n <=? 90) || (97 <=? n) && (n <=? 122)
   || existsb (Ascii.eqb c) (list_ascii_of_string "!#$%&'*+-.^_`|~"))%N.

Definition is_lower (c : ascii) : bool := ((97 <=? N_of_ascii c) && (N_of_ascii c <=? 122))%N.
Definition is_upper (c : ascii) : bool := ((65 <=? N_of_ascii c) && (N_of_ascii c <=? 90))%N.
Definition to_upper (c : ascii) : ascii := ascii_of_N (N_of_ascii c - 32).
Definition to_lower (c : ascii) : ascii := ascii_of_N (N_of_ascii c + 32).

Fixpoint canonical (upper : bool) (s : string) : string :=
  match s with
  | EmptyString => EmptyString
  | String c rest =>
      let c := if upper && is_lower c then to_upper c
               else if negb upper && is_upper c then to_lower c
               else c in
      String c (canonical (Ascii.eqb c "-") rest)
  end.

(** [CanonicalMIMEHeaderKey]: a key that is not a token is left as it
    is; in a token the first letter and each letter after a hyphen are
    made upper case, the others lower case. *)
Definition CanonicalMIMEHeaderKey (s : string) : string :=
  if forallb validHeaderFieldByte (list_ascii_of_string s) then canonical true s else s.

End textproto.

Module http.

(** [http.Header]: a map from canonical keys to the values of the key. *)
Definition Header : Type := gmap string (list string).

Definition Set_ (key value : string) (h : Header) : Header :=
  <[textproto.CanonicalMIMEHeaderKey key := [value]]> h.

Definition Get (key : string) (h : Header) : string :=
  match h !! textproto.CanonicalMIMEHeaderKey key with
  | Some (v :: _) => v
  | _ => ""
  end.

Record Request : Type := {
  Method : string;
  URL : string;
  Request_Header : Header;
  Close : bool
}.

Record Response : Type := {
  StatusCode : Z;
  Response_Header : Header;
  Body : string
}.

End http.

(** * Package [errlog]

    The poller logs its errors through [github.com/getlantern/errlog],
    a package outside the sources modelled here: of its logger only the
    calls are known, [elog.Log(err, errlog.WithOp(op))].  What a call does is left open:
    a logger is any function that takes the error and the options, moves
    the process from one state to another, and returns or panics.  The
    state [State] is whatever the process keeps. *)

Module errlog.

Definition Proc (State A : Type) : Type := State -> State * result A.

#[global] Instance Proc_ret {State : Type} : MRet (Proc State) | 100 :=
  fun _ a s => (s, Returns a).
#[global] Instance Proc_bind {State : Type} : MBind (Proc State) | 100 := fun _ _ f m s =>
  match m s with
  | (s', Returns a) => f a s'
  | (s', Panics why) => (s', Panics why)
  end.

Definition lift {State A : Type} (m : result A) : Proc State A := fun s => (s, m).
Definition panic {State A : Type} (why : string) : Proc State A := fun s => (s, Panics why).

(** The options the poller passes. *)
Inductive option_ : Type :=
| WithOp (op : string).

Record ErrorLogger (State : Type) : Type := {
  Log : error -> list option_ -> Proc State unit
}.
Arguments Log {State} _ _ _ _.

End errlog.

Module config.

Definition etag : string := "X-Lantern-Etag".
Definition ifNoneMatch : string := "X-Lantern-If-None-Match".
Definition userIDHeader : string := "X-Lantern-User-Id".
Definition tokenHeader : string := "X-Lantern-Pro-Token".
Definition chainedCloudConfigURL : string := "http://config.getiantem.org/cloud.yaml.gz".
Definition frontedCloudConfigURL : string := "http://d2wi0vwulmtn99.cloudfront.net/cloud.yaml.gz".

(** [time.Duration] is an [int64] of nanoseconds. *)
Definition wrap64 (z : Z) : Z := (z + 2 ^ 63) mod 2 ^ 64 - 2 ^ 63.
Definition Second : Z := 1000000000.
Definition Minute : Z := 60 * Second.

(** The fields of [Config] the poller reads. *)
Record Config : Type := {
  CloudConfig : string;
  FrontedCloudConfig : string
}.

(** A [yamlconf.Config]: a [*Config] or a value of another type. *)
Inductive yamlconf_Config : Type :=
| a_Config (cfg : Config)
| another_Config.

(** [UserConfig]: what its two methods return. *)
Record UserConfig : Type := {
  GetUserID : string;
  GetToken : string
}.

(** [fetcher]; its [httpFetcher] is part of the outside. *)
Record fetcher : Type := {
  lastCloudConfigETag : gomap;
  user : UserConfig
}.

(** What a poll meets outside the package: the interval variable, the
    random number, the UUID, and the answers of [http.NewRequest],
    [httpFetcher.Do], [httputil.DumpResponse], [gzip.NewReader] and
    [ioutil.ReadAll], each a pair of a value and an error as in Go. *)
Record Web : Type := {
  CloudConfigPollInterval : Z;
  rand_Int63n : Z -> Z;
  uuid_New : string;
  http_NewRequest : string -> string -> error;
  Do : http.Request -> option http.Response * error;
  httputil_DumpResponse : http.Response -> string * error;
  gzip_NewReader : string -> error;
  ioutil_ReadAll : string -> option string * error
}.

(** [fmt.Errorf]: a new [*errors.errorString] with the formatted text. *)
Definition fmt_Errorf (text : string) : error :=
  iface (errors_errorString (Alloc 0)) text.

(** An error under the verb [%s]: the text of its [Error] method; [fmt]
    recovers a panic of that method and prints the value of the panic
    in its place (in the form the Go of the time of these sources, 1.6,
    gives it). *)
Definition fmt_s (err : error) : string :=
  match err with
  | nil_error => "%!s(<nil>)"
  | iface (Faulting _ _ _ why) _ => "%!s(PANIC=" +:+ why +:+ ")"
  | iface _ text => text
  end.

Definition newline : string := String (ascii_of_N 10) EmptyString.

(** [NewFetcher], lines 53-55. *)
Definition NewFetcher (conf : UserConfig) : fetcher :=
  {| lastCloudConfigETag := Some ∅; user := conf |}.

(** [m[k]] and [m[k] = v] on a map that may be nil. *)
Definition map_get (m : gomap) (k : string) : string :=
  match m with
  | Some g => default "" (g !! k)
  | None => ""
  end.

Definition map_set (m : gomap) (k v : string) : result gomap :=
  match m with
  | Some g => Returns (Some (<[k:=v]> g))
  | None => Panics "assignment to entry in nil map"
  end.

(** [cloudPollSleepTime], lines 172-174.  [rand.Int63n] panics on an
    argument that is not positive. *)
Definition cloudPollSleepTime (web : Web) : result Z :=
  let n := CloudConfigPollInterval web in
  if (n <=? 0)%Z then Panics "invalid argument to Int63n"
  else Returns (wrap64 (Z.quot n 2 + rand_Int63n web n)).

(** What [fetchCloudConfig] gives back, and the request it handed to
    [Do], if it came that far. *)
Record fetched : Type := {
  cf_after : fetcher;
  bytes : option string;
  err : error;
  sent : option http.Request
}.

Definition set_ETag (cf : fetcher) (m : gomap) : fetcher :=
  {| lastCloudConfigETag := m; user := user cf |}.

(** Lines 103-133: the request for the cloud configuration. *)
Definition cloudConfigRequest (web : Web) (cf : fetcher) (cfg : Config) : http.Request :=
  let url := CloudConfig cfg in
  let cb := "?" +:+ uuid_New web in
  let nocache := url +:+ cb in
  let h : http.Header := ∅ in
  let h := if negb (String.eqb (map_get (lastCloudConfigETag cf) url) "")
           then http.Set_ ifNoneMatch (map_get (lastCloudConfigETag cf) url) h
           else h in
  let h := http.Set_ "Accept" "application/x-gzip" h in
  let h := http.Set_ "Cache-Control" "no-cache" h in
  let h := http.Set_ "Lantern-Fronted-URL" (FrontedCloudConfig cfg +:+ cb) h in
  let id := GetUserID (user cf) in
  let h := if negb (String.eqb id "") then http.Set_ userIDHeader id h else h in
  let tok := GetToken (user cf) in
  let h := if negb (String.eqb tok "") then http.Set_ tokenHeader tok h else h in
  {| http.Method := "GET"; http.URL := nocache;
     http.Request_Header := h; http.Close := true |}.

(** [fetchCloudConfig], lines 100-168. *)
Definition fetchCloudConfig {State : Type} (web : Web) (elog : errlog.ErrorLogger State)
    (cf : fetcher) (cfg : Config) : errlog.Proc State fetched :=
  let url := CloudConfig cfg in
  let nocache := url +:+ "?" +:+ uuid_New web in
  let err := http_NewRequest web "GET" nocache in
  if non_nil err then
    mret {| cf_after := cf; bytes := None;
            err := fmt_Errorf ("Unable to construct request for cloud config at "
                               +:+ nocache +:+ ": " +:+ fmt_s err);
            sent := None |}
  else
    let req := cloudConfigRequest web cf cfg in
    let '(resp, err) := Do web req in
    if non_nil err then
      mret {| cf_after := cf; bytes := None;
              err := fmt_Errorf ("Unable to fetch cloud config at "
                                 +:+ url +:+ ": " +:+ fmt_s err);
              sent := Some req |}
    else
      match resp with
      | None => errlog.panic nil_dereference
      | Some resp =>
          let '(dump, dumperr) := httputil_DumpResponse web resp in
          (if non_nil dumperr
           then errlog.Log elog dumperr [errlog.WithOp "dump-response"]
           else mret tt);;
          if (http.StatusCode resp =? 304)%Z then
            mret {| cf_after := cf; bytes := None; err := nil_error;
                    sent := Some req |}
          else if negb (http.StatusCode resp =? 200)%Z then
            if non_nil dumperr then
              mret {| cf_after := cf; bytes := None;
                      err := fmt_Errorf ("Bad config response code: "
                                         +:+ pretty (http.StatusCode resp));
                      sent := Some req |}
            else
              mret {| cf_after := cf; bytes := None;
                      err := fmt_Errorf ("Bad config resp:" +:+ newline +:+ dump);
                      sent := Some req |}
          else
            m ← errlog.lift (map_set (lastCloudConfigETag cf) url
                        (http.Get etag (http.Response_Header resp)));
            let cf := set_ETag cf m in
            let err := gzip_NewReader web (http.Body resp) in
            if non_nil err then
              mret {| cf_after := cf; bytes := None;
                      err := fmt_Errorf ("Unable to open gzip reader: " +:+ fmt_s err);
                      sent := Some req |}
            else
              let '(b, err) := ioutil_ReadAll web (http.Body resp) in
              mret {| cf_after := cf; bytes := b; err := err;
                      sent := Some req |}
      end.

(** The function [pollForConfig] returns: it does nothing, or it merges
    the bytes it was made with into the configuration. *)
Inductive mutation : Type :=
| do_nothing
| merge (bytes : string).

Record polled : Type := {
  poll_cf : fetcher;
  mutate : mutation;
  waitTime : Z;
  poll_err : error;
  poll_sent : option http.Request
}.

(** [pollForConfig], lines 57-98. *)
Definition pollForConfig {State : Type} (web : Web) (elog : errlog.ErrorLogger State)
    (cf : fetcher) (currentCfg : yamlconf_Config) (stickyConfig : bool)
    : errlog.Proc State polled :=
  let mutate := do_nothing in
  match currentCfg with
  | another_Config => errlog.panic "interface conversion"
  | a_Config cfg =>
      waitTime ← errlog.lift (cloudPollSleepTime web);
      if String.eqb (CloudConfig cfg) "" then
        mret {| poll_cf := cf; mutate := mutate; waitTime := waitTime;
                poll_err := nil_error; poll_sent := None |}
      else if stickyConfig then
        mret {| poll_cf := cf; mutate := mutate; waitTime := waitTime;
                poll_err := nil_error; poll_sent := None |}
      else
        f ← fetchCloudConfig web elog cf cfg;
        if non_nil (err f) then
          errlog.Log elog (err f) [errlog.WithOp "fetch-cloud-config"];;
          mret {| poll_cf := cf_after f; mutate := mutate; waitTime := waitTime;
                  poll_err := err f; poll_sent := sent f |}
        else
          match bytes f with
          | Some b =>
              mret {| poll_cf := cf_after f; mutate := merge b; waitTime := waitTime;
                      poll_err := nil_error; poll_sent := sent f |}
          | None =>
              mret {| poll_cf := cf_after f; mutate := mutate; waitTime := waitTime;
                      poll_err := nil_error; poll_sent := sent f |}
          end
  end.

(** ** Definitions for the properties of the poller *)

(** Lines 139-144: a failed dump of the response is logged. *)
Definition dump_logged {State : Type} (web : Web) (elog : errlog.ErrorLogger State)
    (r : http.Response) : errlog.Proc State unit :=
  if non_nil (snd (httputil_DumpResponse web r))
  then errlog.Log elog (snd (httputil_DumpResponse web r))
         [errlog.WithOp "dump-response"]
  else mret tt.

(** The ways [fetchCloudConfig] returns. *)
Inductive fetch_outcome {State : Type} (web : Web) (elog : errlog.ErrorLogger State)
    (cf : fetcher) (cfg : Config) (w w' : State) (f : fetched) : Prop :=
| no_request :
    non_nil (http_NewRequest web "GET" (CloudConfig cfg +:+ "?" +:+ uuid_New web)) = true ->
    w' = w ->
    sent f = None -> cf_after f = cf -> bytes f = None ->
    (exists text, err f = fmt_Errorf text) ->
    fetch_outcome web elog cf cfg w w' f
| no_response resp derr :
    Do web (cloudConfigRequest web cf cfg) = (resp, derr) ->
    non_nil derr = true ->
    w' = w ->
    sent f = Some (cloudConfigRequest web cf cfg) -> cf_after f = cf -> bytes f = None ->
    err f = fmt_Errorf ("Unable to fetch cloud config at " +:+ CloudConfig cfg
                        +:+ ": " +:+ fmt_s derr) ->
    fetch_outcome web elog cf cfg w w' f
| not_modified r :
    Do web (cloudConfigRequest web cf cfg) = (Some r, nil_error) ->
    dump_logged web elog r w = (w', Returns tt) ->
    http.StatusCode r = 304%Z ->
    sent f = Some (cloudConfigRequest web cf cfg) -> cf_after f = cf -> bytes f = None ->
    err f = nil_error ->
    fetch_outcome web elog cf cfg w w' f
| bad_status r :
    Do web (cloudConfigRequest web cf cfg) = (Some r, nil_error) ->
    dump_logged web elog r w = (w', Returns tt) ->
    http.StatusCode r <> 304%Z -> http.StatusCode r <> 200%Z ->
    sent f = Some (cloudConfigRequest web cf cfg) -> cf_after f = cf -> bytes f = None ->
    (exists text, err f = fmt_Errorf text) ->
    fetch_outcome web elog cf cfg w w' f
| bad_body r g :
    Do web (cloudConfigRequest web cf cfg) = (Some r, nil_error) ->
    dump_logged web elog r w = (w', Returns tt) ->
    http.StatusCode r = 200%Z ->
    lastCloudConfigETag cf = Some g ->
    non_nil (gzip_NewReader web (http.Body r)) = true ->
    sent f = Some (cloudConfigRequest web cf cfg) ->
    cf_after f = set_ETag cf (Some (<[CloudConfig cfg :=
                                       http.Get etag (http.Response_Header r)]> g)) ->
    bytes f = None ->
    (exists text, err f = fmt_Errorf text) ->
    fetch_outcome web elog cf cfg w w' f
| body_read r g :
    Do web (cloudConfigRequest web cf cfg) = (Some r, nil_error) ->
    dump_logged web elog r w = (w', Returns tt) ->
    http.StatusCode r = 200%Z ->
    lastCloudConfigETag cf = Some g ->
    non_nil (gzip_NewReader web (http.Body r)) = false ->
    sent f = Some (cloudConfigRequest web cf cfg) ->
    cf_after f = set_ETag cf (Some (<[CloudConfig cfg :=
                                       http.Get etag (http.Response_Header r)]> g)) ->
    (bytes f, err f) = ioutil_ReadAll web (http.Body r) ->
    fetch_outcome web elog cf cfg w w' f.

Definition web_answering (answer : option http.Response * error) (gz : error) : Web :=
  {| CloudConfigPollInterval := Minute;
     rand_Int63n := fun _ => 12345678901%Z;
     uuid_New := "6ba7b810-9dad-11d1-80b4-00c04fd430c8";
     http_NewRequest := fun _ _ => nil_error;
     Do := fun _ => answer;
     httputil_DumpResponse := fun _ => ("HTTP/1.1", nil_error);
     gzip_NewReader := fun _ => gz;
     ioutil_ReadAll := fun body => (Some body, nil_error) |}.

Definition ok_response (tag body : string) : http.Response :=
  {| http.StatusCode := 200;
     http.Response_Header := http.Set_ etag tag ∅;
     http.Body := body |}.

Definition cloud : Config :=
  {| CloudConfig := chainedCloudConfigURL; FrontedCloudConfig := frontedCloudConfigURL |}.

Definition anonymous : UserConfig := {| GetUserID := ""; GetToken := "" |}.

Definition unexpected_EOF : error :=
  iface (errors_errorString (Known io_ErrUnexpectedEOF)) "unexpected EOF".

Definition broken_body : Web :=
  web_answering (Some (ok_response "v7" "..."), nil_error) unexpected_EOF.

Definition fetched_broken_body : fetched :=
  {| cf_after := set_ETag (NewFetcher anonymous) (Some {[chainedCloudConfigURL := "v7"]});
     bytes := None;
     err := fmt_Errorf "Unable to open gzip reader: unexpected EOF";
     sent := Some (cloudConfigRequest broken_body (NewFetcher anonymous) cloud) |}.

Definition first_fetch : fetched :=
  {| cf_after := set_ETag (NewFetcher anonymous) (Some {[chainedCloudConfigURL := "v7"]});
     bytes := Some "...";
     err := nil_error;
     sent := Some (cloudConfigRequest
                     (web_answering (Some (ok_response "v7" "..."), nil_error) nil_error)
                     (NewFetcher anonymous) cloud) |}.

Definition refused : error :=
  iface (net_OpError "dial" "tcp" None (Some "10.0.0.1:80")
           (iface (os_SyscallError "connect"
                     (iface (syscall_Errno 111) "connection refused"))
                  "connect: connection refused"))
        "dial tcp 10.0.0.1:80: connect: connection refused".

Definition fresh_config : Web :=
  web_answering (Some (ok_response "v7" "..."), nil_error) nil_error.

(** A logger that keeps what it is given and returns. *)
Definition recorder : errlog.ErrorLogger (list (error * list errlog.option_)) :=
  {| errlog.Log := fun err with_ s => (s ++ [(err, with_)], Returns tt) |}.

End config.

(** * Package [app]: the settings

    The settings of one Lantern instance, their setters and getters,
    the loop that merges the messages of the UI into them, and their
    loading at startup.  One goroutine runs at a time: a call that has
    to wait for a lock held at that moment blocks for ever.  What the
    package does to the outside (the PAC file, the launch file, the
    settings file, the error reports, the channels of the UI) is
    recorded as a list of events; a send on a channel is an event, and
    so is the start of a goroutine.  The calls out of the package
    return. *)

Module app.

Definition messageType : string := "settings".

(** [Settings]; the embedded [sync.RWMutex] is kept apart, in [App]. *)
Record Settings : Type := {
  DeviceID : string;
  UserID : string;
  UserToken : string;
  AutoReport : bool;
  AutoLaunch : bool;
  ProxyAll : bool;
  SystemProxy : bool;
  Version : string;
  BuildDate : string;
  RevisionDate : string
}.

(** A decoded JSON value, as far as the type assertions of [checkBool]
    and [checkString] tell values apart. *)
Inductive json : Type :=
| a_bool (b : bool)
| a_string (s : string)
| another (printed : string).

(** A message of the UI channel: a [map[string]interface{}] or a value
    of another type. *)
Inductive message : Type :=
| a_map (data : gmap string json)
| not_a_map.

(** What the package does to the outside, in the order it does it.  The
    calls of the [errors] package build an error from a description or
    around a cause, add an operation and fields, and report it. *)
Inductive origin : Type :=
| from_New (desc : string)
| from_Wrap (err : error).

Inductive field : Type :=
| text_field (s : string)
| value_field (v : option json).

Inductive event : Type :=
| cyclePAC
| pacOn
| pacOff
| ui_PreferProxiedUI (val : bool)
| launcher_CreateLaunchFile (auto : bool)
| go_launcher_CreateLaunchFile (auto : bool)
| ioutil_WriteFile (filename data : string)
| errors_Report (c : origin) (op : string) (with_ : list (string * field))
| service_Out_redirectTo (addr : string)
| out_s
| ui_Register
| go_read.

(** What the package reads from outside: the path of the settings file
    and its base name, and the answers of [yaml.Marshal],
    [ioutil.WriteFile], [ioutil.ReadFile], [yaml.Unmarshal] (which
    writes into the settings it is given, also when it fails),
    [ui.PreferProxiedUI] and [ui.Register]. *)
Record Environment : Type := {
  path : string;
  filepath_Base_path : string;
  yaml_Marshal : Settings -> string * error;
  WriteFile : string -> string -> error;
  ReadFile : string -> string * error;
  yaml_Unmarshal : string -> Settings -> Settings * error;
  PreferProxiedUI : bool -> string * bool;
  Register : error
}.

(** The lock of the settings: held by a writer, or by some readers. *)
Record RWMutex : Type := {
  writer : bool;
  readers : nat
}.

(** The package variables: [settings] is the object the variable points
    to, with its lock; [once] tells whether [once.Do] has run. *)
Record App : Type := {
  environment : Environment;
  settings : Settings;
  mutex : RWMutex;
  once : bool;
  events : list event
}.

(** A call returns, or blocks for ever on a lock that the one running
    goroutine of the model holds itself, or dies on an unlock of a lock
    that is not held. *)
Inductive outcome (A : Type) : Type :=
| Done (a : A)
| Blocked
| Fatal (why : string).
Arguments Done {A} a.
Arguments Blocked {A}.
Arguments Fatal {A} why.

Definition A (X : Type) : Type := App -> App * outcome X.

#[global] Instance A_ret : MRet A := fun _ x s => (s, Done x).
#[global] Instance A_bind : MBind A := fun _ _ f m s =>
  match m s with
  | (s', Done x) => f x s'
  | (s', Blocked) => (s', Blocked)
  | (s', Fatal why) => (s', Fatal why)
  end.

Definition set_settings (v : Settings) (a : App) : App :=
  {| environment := environment a; settings := v; mutex := mutex a;
     once := once a; events := events a |}.
Definition set_mutex (m : RWMutex) (a : App) : App :=
  {| environment := environment a; settings := settings a; mutex := m;
     once := once a; events := events a |}.
Definition set_once (b : bool) (a : App) : App :=
  {| environment := environment a; settings := settings a; mutex := mutex a;
     once := b; events := events a |}.

Definition emit (e : event) : A unit := fun a =>
  ({| environment := environment a; settings := settings a; mutex := mutex a;
      once := once a; events := events a ++ [e] |}, Done tt).

Definition current : A App := fun a => (a, Done a).
Definition update (f : Settings -> Settings) : A unit := fun a =>
  (set_settings (f (settings a)) a, Done tt).

(** [sync.RWMutex] *)
Definition Lock : A unit := fun a =>
  if writer (mutex a) || negb (Nat.eqb (readers (mutex a)) 0)
  then (a, Blocked)
  else (set_mutex {| writer := true; readers := 0 |} a, Done tt).

Definition Unlock : A unit := fun a =>
  if writer (mutex a)
  then (set_mutex {| writer := false; readers := readers (mutex a) |} a, Done tt)
  else (a, Fatal "sync: Unlock of unlocked RWMutex").

Definition RLock : A unit := fun a =>
  if writer (mutex a) then (a, Blocked)
  else (set_mutex {| writer := false; readers := S (readers (mutex a)) |} a, Done tt).

Definition RUnlock : A unit := fun a =>
  match readers (mutex a) with
  | O => (a, Fatal "sync: RUnlock of unlocked RWMutex")
  | S n => (set_mutex {| writer := writer (mutex a); readers := n |} a, Done tt)
  end.

(** Field assignments. *)
Definition with_DeviceID (v : string) (s : Settings) : Settings :=
  {| DeviceID := v; UserID := UserID s; UserToken := UserToken s;
     AutoReport := AutoReport s; AutoLaunch := AutoLaunch s; ProxyAll := ProxyAll s;
     SystemProxy := SystemProxy s; Version := Version s; BuildDate := BuildDate s;
     RevisionDate := RevisionDate s |}.
Definition with_UserID (v : string) (s : Settings) : Settings :=
  {| DeviceID := DeviceID s; UserID := v; UserToken := UserToken s;
     AutoReport := AutoReport s; AutoLaunch := AutoLaunch s; ProxyAll := ProxyAll s;
     SystemProxy := SystemProxy s; Version := Version s; BuildDate := BuildDate s;
     RevisionDate := RevisionDate s |}.
Definition with_UserToken (v : string) (s : Settings) : Settings :=
  {| DeviceID := DeviceID s; UserID := UserID s; UserToken := v;
     AutoReport := AutoReport s; AutoLaunch := AutoLaunch s; ProxyAll := ProxyAll s;
     SystemProxy := SystemProxy s; Version := Version s; BuildDate := BuildDate s;
     RevisionDate := RevisionDate s |}.
Definition with_AutoReport (v : bool) (s : Settings) : Settings :=
  {| DeviceID := DeviceID s; UserID := UserID s; UserToken := UserToken s;
     AutoReport := v; AutoLaunch := AutoLaunch s; ProxyAll := ProxyAll s;
     SystemProxy := SystemProxy s; Version := Version s; BuildDate := BuildDate s;
     RevisionDate := RevisionDate s |}.
Definition with_AutoLaunch (v : bool) (s : Settings) : Settings :=
  {| DeviceID := DeviceID s; UserID := UserID s; UserToken := UserToken s;
     AutoReport := AutoReport s; AutoLaunch := v; ProxyAll := ProxyAll s;
     SystemProxy := SystemProxy s; Version := Version s; BuildDate := BuildDate s;
     RevisionDate := RevisionDate s |}.
Definition with_ProxyAll (v : bool) (s : Settings) : Settings :=
  {| DeviceID := DeviceID s; UserID := UserID s; UserToken := UserToken s;
     AutoReport := AutoReport s; AutoLaunch := AutoLaunch s; ProxyAll := v;
     SystemProxy := SystemProxy s; Version := Version s; BuildDate := BuildDate s;
     RevisionDate := RevisionDate s |}.
Definition with_versions (version buildDate revisionDate : string) (s : Settings)
    : Settings :=
  {| DeviceID := DeviceID s; UserID := UserID s; UserToken := UserToken s;
     AutoReport := AutoReport s; AutoLaunch := AutoLaunch s; ProxyAll := ProxyAll s;
     SystemProxy := SystemProxy s; Version := version; BuildDate := buildDate;
     RevisionDate := revisionDate |}.
Definition with_SystemProxy (v : bool) (s : Settings) : Settings :=
  {| DeviceID := DeviceID s; UserID := UserID s; UserToken := UserToken s;
     AutoReport := AutoReport s; AutoLaunch := AutoLaunch s; ProxyAll := ProxyAll s;
     SystemProxy := v; Version := Version s; BuildDate := BuildDate s;
     RevisionDate := RevisionDate s |}.

(** [save], lines 153-164. *)
Definition save : A unit :=
  Lock;;
  a ← current;
  let '(bytes, err) := yaml_Marshal (environment a) (settings a) in
  (if non_nil err then emit (errors_Report (from_Wrap err) "" [])
   else
     let err := WriteFile (environment a) (path (environment a)) bytes in
     emit (ioutil_WriteFile (path (environment a)) bytes);;
     if non_nil err
     then emit (errors_Report (from_Wrap err) ""
                  [("file", text_field (filepath_Base_path (environment a)))])
     else mret tt);;
  Unlock.

(** [unlockAndSave], lines 267-271. *)
Definition unlockAndSave : A unit := Unlock;; save.

(** The getters, lines 167-171, 183-187, 205-209, 226-230, 240-244. *)
Definition getter {X} (f : Settings -> X) : A X :=
  RLock;; a ← current; RUnlock;; mret (f (settings a)).

Definition GetToken : A string := getter UserToken.
Definition GetUserID : A string := getter UserID.

(** The setters, lines 174-264; the deferred [unlockAndSave] runs last. *)
Definition SetProxyAll (proxyAll : bool) : A unit :=
  Lock;; update (with_ProxyAll proxyAll);; emit cyclePAC;; unlockAndSave.

Definition SetAutoReport (auto : bool) : A unit :=
  Lock;; update (with_AutoReport auto);; unlockAndSave.

Definition SetAutoLaunch (auto : bool) : A unit :=
  Lock;; update (with_AutoLaunch auto);; emit (go_launcher_CreateLaunchFile auto);;
  unlockAndSave.

Definition SetDeviceID (deviceID : string) : A unit :=
  Lock;; update (with_DeviceID deviceID);; unlockAndSave.

Definition SetToken (token : string) : A unit :=
  Lock;; update (with_UserToken token);; unlockAndSave.

Definition SetUserID (id : string) : A unit :=
  Lock;; update (with_UserID id);; unlockAndSave.

Definition SetSystemProxy (enable : bool) : A unit :=
  Lock;;
  a ← current;
  let changed := negb (Bool.eqb enable (SystemProxy (settings a))) in
  update (with_SystemProxy enable);;
  (if changed then
     (if enable then emit pacOn else emit pacOff);;
     let '(preferredUIAddr, addrChanged) := PreferProxiedUI (environment a) enable in
     emit (ui_PreferProxiedUI enable);;
     if negb enable && addrChanged
     then emit (service_Out_redirectTo preferredUIAddr)
     else mret tt
   else mret tt);;
  unlockAndSave.

(** [checkBool] and [checkString], lines 136-150. *)
Definition checkBool (data : gmap string json) (name : string)
    (f : bool -> A unit) : A unit :=
  match data !! name with
  | Some (a_bool v) => f v
  | other =>
      emit (errors_Report (from_New "can not convert to bool") ""
              [("name", text_field name); ("value", value_field other)])
  end.

Definition checkString (data : gmap string json) (name : string)
    (f : string -> A unit) : A unit :=
  match data !! name with
  | Some (a_string v) => f v
  | other =>
      emit (errors_Report (from_New "can not convert to string") ""
              [("name", text_field name); ("value", value_field other)])
  end.

(** The body of the loop of [read], lines 113-133, for one message. *)
Definition read_message (m : message) : A unit :=
  match m with
  | not_a_map => mret tt
  | a_map data =>
      checkBool data "autoReport" SetAutoReport;;
      checkBool data "proxyAll" SetProxyAll;;
      checkBool data "autoLaunch" SetAutoLaunch;;
      checkBool data "systemProxy" SetSystemProxy;;
      checkString data "userID" SetUserID;;
      checkString data "token" SetToken;;
      emit out_s
  end.

(** [read], lines 111-134: the messages of the channel, in order. *)
Fixpoint read (messages : list message) : A unit :=
  match messages with
  | [] => mret tt
  | m :: rest => read_message m;; read rest
  end.

(** [start], lines 97-109. *)
Definition start : A error :=
  a ← current;
  emit (ui_PreferProxiedUI (SystemProxy (settings a)));;
  emit ui_Register;;
  mret (Register (environment a)).

(** The composite literal of lines 57-62. *)
Definition defaults : Settings :=
  {| DeviceID := ""; UserID := ""; UserToken := "";
     AutoReport := true; AutoLaunch := true; ProxyAll := false; SystemProxy := true;
     Version := ""; BuildDate := ""; RevisionDate := "" |}.

Definition unlocked : RWMutex := {| writer := false; readers := 0 |}.

(** [settings = &Settings{...}]: the variable gets a new object, whose
    lock is free. *)
Definition new_settings : A unit := fun a =>
  (set_mutex unlocked (set_settings defaults a), Done tt).

(** [once.Do] marks itself done when its function has returned. *)
Definition done : A unit := fun a => (set_once true a, Done tt).

(** [loadSettingsFrom], lines 52-94. *)
Definition loadSettingsFrom (version revisionDate buildDate path : string)
    : A Settings :=
  new_settings;;
  a ← current;
  (let '(bytes, err) := ReadFile (environment a) path in
   if non_nil err then mret tt
   else
     let '(loaded, err) := yaml_Unmarshal (environment a) bytes (settings a) in
     update (fun _ => loaded);;
     if non_nil err then emit (errors_Report (from_Wrap err) "load-settings" [])
     else mret tt);;
  a ← current;
  (if AutoLaunch (settings a)
   then emit (launcher_CreateLaunchFile (AutoLaunch (settings a)))
   else mret tt);;
  update (with_versions version buildDate revisionDate);;
  a ← current;
  (if once a then mret tt
   else
     (err ← start;
      if non_nil err
      then emit (errors_Report (from_Wrap err) "register-settings-service" [])
      else emit go_read);;
     done);;
  a ← current;
  mret (settings a).

(** [loadSettings], lines 47-49. *)
Definition loadSettings (version revisionDate buildDate : string) : A Settings :=
  a ← current;
  loadSettingsFrom version revisionDate buildDate (path (environment a)).

(** ** Definitions for the properties of the settings *)

(** Nobody holds the lock. *)
Definition free (a : App) : Prop := mutex a = unlocked.

(** The calls of the setters, and the field each one assigns. *)
Inductive setter : Type :=
| set_AutoReport (auto : bool)
| set_ProxyAll (proxyAll : bool)
| set_AutoLaunch (auto : bool)
| set_SystemProxy (enable : bool)
| set_DeviceID (deviceID : string)
| set_UserID (id : string)
| set_Token (token : string).

Definition exec (c : setter) : A unit :=
  match c with
  | set_AutoReport v => SetAutoReport v
  | set_ProxyAll v => SetProxyAll v
  | set_AutoLaunch v => SetAutoLaunch v
  | set_SystemProxy v => SetSystemProxy v
  | set_DeviceID v => SetDeviceID v
  | set_UserID v => SetUserID v
  | set_Token v => SetToken v
  end.

Definition assigned (c : setter) : Settings -> Settings :=
  match c with
  | set_AutoReport v => with_AutoReport v
  | set_ProxyAll v => with_ProxyAll v
  | set_AutoLaunch v => with_AutoLaunch v
  | set_SystemProxy v => with_SystemProxy v
  | set_DeviceID v => with_DeviceID v
  | set_UserID v => with_UserID v
  | set_Token v => with_UserToken v
  end.

(** What a [save] of the settings [s] does to the outside. *)
Definition saved (o : Environment) (s : Settings) : list event :=
  if non_nil (snd (yaml_Marshal o s))
  then [errors_Report (from_Wrap (snd (yaml_Marshal o s))) "" []]
  else
    ioutil_WriteFile (path o) (fst (yaml_Marshal o s))
    :: (if non_nil (WriteFile o (path o) (fst (yaml_Marshal o s)))
        then [errors_Report
                (from_Wrap (WriteFile o (path o) (fst (yaml_Marshal o s)))) ""
                [("file", text_field (filepath_Base_path o))]]
        else []).

(** What a setter does to the outside before it saves. *)
Definition switched (o : Environment) (s : Settings) (c : setter) : list event :=
  match c with
  | set_ProxyAll _ => [cyclePAC]
  | set_AutoLaunch v => [go_launcher_CreateLaunchFile v]
  | set_SystemProxy enable =>
      if Bool.eqb enable (SystemProxy s) then []
      else (if enable then pacOn else pacOff)
           :: ui_PreferProxiedUI enable
           :: (if negb enable && snd (PreferProxiedUI o enable)
               then [service_Out_redirectTo (fst (PreferProxiedUI o enable))]
               else [])
  | _ => []
  end.

(** The state after a call that ends with the lock free. *)
Definition after (a : App) (s : Settings) (ev : list event) : App :=
  {| environment := environment a; settings := s; mutex := unlocked;
     once := once a; events := events a ++ ev |}.

(** What [checkBool] and [checkString] take from the message. *)
Definition bool_of (v : option json) (old : bool) : bool :=
  match v with Some (a_bool b) => b | _ => old end.
Definition string_of (v : option json) (old : string) : string :=
  match v with Some (a_string s) => s | _ => old end.

(** The conversions that were refused: description, name and value of
    every report made from a description with two fields. *)
Definition refusal (e : event) : option (string * string * option json) :=
  match e with
  | errors_Report (from_New desc) _ [(_, text_field name); (_, value_field v)] =>
      Some (desc, name, v)
  | _ => None
  end.
Definition refusals (ev : list event) : list (string * string * option json) :=
  omap refusal ev.

Definition not_bool (data : gmap string json) (name : string)
    : list (string * string * option json) :=
  match data !! name with
  | Some (a_bool _) => []
  | other => [("can not convert to bool", name, other)]
  end.
Definition not_string (data : gmap string json) (name : string)
    : list (string * string * option json) :=
  match data !! name with
  | Some (a_string _) => []
  | other => [("can not convert to string", name, other)]
  end.

(** Kinds of events and of messages. *)
Definition is_reply (e : event) : bool :=
  match e with out_s => true | _ => false end.
Definition is_map (m : message) : bool :=
  match m with a_map _ => true | not_a_map => false end.
Definition is_pac (e : event) : bool :=
  match e with pacOn | pacOff => true | _ => false end.
Definition is_Register (e : event) : bool :=
  match e with ui_Register => true | _ => false end.

(** The settings after one check of the loop body. *)
Definition pickb (data : gmap string json) (name : string) (c : bool -> setter)
    (s : Settings) : Settings :=
  match data !! name with Some (a_bool v) => assigned (c v) s | _ => s end.
Definition picks (data : gmap string json) (name : string) (c : string -> setter)
    (s : Settings) : Settings :=
  match data !! name with Some (a_string v) => assigned (c v) s | _ => s end.

(** One step of the loop body: the state moves on, the lock is free
    again, and the events are extended. *)
Record moved (a a' : App) (g : Settings -> Settings)
    (r : list (string * string * option json)) : Prop := {
  moved_free : free a';
  moved_environment : environment a' = environment a;
  moved_once : once a' = once a;
  moved_settings : settings a' = g (settings a);
  moved_events : exists ev, events a' = events a ++ ev /\ refusals ev = r
                            /\ List.filter is_reply ev = []
                            /\ List.filter is_Register ev = []
}.

(** The number of replies among the events. *)
Definition replies (ev : list event) : nat := length (List.filter is_reply ev).

(** Loading several times, as the tests of the package do. *)
Fixpoint load_all (loads : list (string * string * string * string)) : A unit :=
  match loads with
  | [] => mret tt
  | (version, revisionDate, buildDate, file) :: rest =>
      loadSettingsFrom version revisionDate buildDate file;; load_all rest
  end.

(** Values of the examples. *)
Definition desktop : Environment :=
  {| path := "/home/user/.lantern/settings.yaml";
     filepath_Base_path := "settings.yaml";
     yaml_Marshal := fun s => ("userid: " +:+ UserID s, nil_error);
     WriteFile := fun _ _ => nil_error;
     ReadFile := fun file =>
       ("", iface (os_PathError "open" file ENOENT)
                  ("open " +:+ file +:+ ": no such file or directory"));
     yaml_Unmarshal := fun _ s => (s, nil_error);
     PreferProxiedUI := fun _ => ("127.0.0.1:16823", true);
     Register := nil_error |}.

Definition first_run : App :=
  {| environment := desktop; settings := defaults; mutex := unlocked;
     once := false; events := [] |}.

Definition signed_in : gmap string json :=
  <["userID" := a_string "1234"]> (<["token" := a_string "t0k"]>
    (<["systemProxy" := a_string "yes"]> ∅)).

End app.

(** * Properties *)

(** ** Examples of classification *)

Example parse_EOF :
  parseError EOF = Returns (mkParsed "" "io.EOF" "EOF" (Some ∅)).
Proof. reflexivity. Qed.

Example parse_ErrShortBody :
  parseError ErrShortBody
  = Returns (mkParsed "" "http.ErrShortBody" "entity body too short" (Some ∅)).
Proof. reflexivity. Qed.

Example parse_ErrNotExist_in_PathError :
  parseError (iface (os_PathError "open" "/nonexistent" ErrNotExist)
                    "open /nonexistent: file does not exist")
  = Returns (mkParsed "open" "os.PathError" "file does not exist" (Some ∅)).
Proof. reflexivity. Qed.

Example parse_dns :
  parseError (iface (net_OpError "dial" "tcp" None None
                (iface (net_DNSError "no such host" "example.invalid" "") "x")) "y")
  = Returns (mkParsed "dial" "net.DNSError" "no such host"
               (Some (<["domain":="example.invalid"]> (<["network":="tcp"]> ∅)))).
Proof. reflexivity. Qed.

Example parse_header :
  parseError (iface (tls_RecordHeaderError "oversized record"
                       [x16; x03; x01; xff; x0a]) "m")
  = Returns (mkParsed "" "tls.RecordHeaderError" "oversized record"
               (Some {["header" := "160301ff0a"]})).
Proof. reflexivity. Qed.

(** ** The classifier *)

Lemma type_String_nonempty t : type_String t <> "".
Proof. destruct t; simpl; try discriminate. destruct pkg; discriminate. Qed.

Lemma nonempty_true s : nonempty s = true -> s <> "".
Proof. intros H ->. discriminate. Qed.

Ltac split_error e :=
  let v := fresh "v" in let text := fresh "text" in
  destruct e as [|v text]; [|destruct v].

Ltac case_args :=
  repeat match goal with
         | o : option string |- _ => destruct o
         | p : ref _ |- _ => destruct p
         | s : sentinel |- _ => destruct s
         | s : protocolSentinel |- _ => destruct s
         | b : bool |- _ => destruct b
         end.

Ltac case_eqb :=
  repeat match goal with
         | |- context [String.eqb ?a ?b] => destruct (String.eqb a b)
         end.

Ltac worded_contra :=
  let Hw := fresh "Hw" in let Hd := fresh "Hd" in
  intros Hw Hd; cbn in Hd; try discriminate Hd;
  subst; unfold worded1 in Hw; cbn in Hw; try discriminate Hw;
  repeat match goal with
         | H : _ && _ = true |- _ => apply andb_prop in H; destruct H
         end;
  congruence.

Ltac sound_result_tac :=
  unfold sound_result; cbn; split; [eexists; reflexivity |
  split; [first [discriminate | apply type_String_nonempty] | worded_contra]].

Lemma switchNet_spec err o g d m :
  match switchNet err (mkParsed o g d (Some m)) with
  | Returns r => net_sound err = true /\ sound_result err r
  | Panics _ => net_sound err = false
  end.
Proof.
  split_error err;
    try (cbn; case_eqb; first [reflexivity | split; [reflexivity | sound_result_tac]]).
  split_error Err;
    cbn; first [reflexivity | split; [reflexivity | sound_result_tac]].
Qed.

Lemma switchRuntime_spec err o g d m :
  match switchRuntime err (mkParsed o g d (Some m)) with
  | Returns r => speaks err = true /\ sound_result err r
  | Panics _ => speaks err = false
  end.
Proof.
  split_error err;
    cbn; first [reflexivity | split; [reflexivity | sound_result_tac]].
Qed.

Lemma switchStruct_spec err o g d m :
  match switchStruct err (mkParsed o g d (Some m)) with
  | Returns r => struct_sound err = true /\ sound_result err r
  | Panics _ => struct_sound err = false
  end.
Proof.
  split_error err;
    try (cbn; first [reflexivity | split; [reflexivity | sound_result_tac]]).
  all: try (split_error Err;
            cbn; first [reflexivity | split; [reflexivity | sound_result_tac]]).
  all: case_args; cbn; first [reflexivity | split; [reflexivity | sound_result_tac]].
Qed.

Lemma unwrapOpError_spec err o g d m :
  exists o' m',
    unwrapOpError err (mkParsed o g d (Some m))
    = Returns (subject err, mkParsed o' g d (Some m'))
    /\ o' = match err with
            | iface (net_OpError Op _ _ _ _) _ => Op
            | _ => o
            end.
Proof.
  split_error err; try (do 2 eexists; split; reflexivity).
  destruct Source, Addr; do 2 eexists; split; reflexivity.
Qed.

Lemma subject_not_net err : implements_net_Error err = false -> subject err = err.
Proof. split_error err; first [reflexivity | discriminate]. Qed.

Lemma runtime_non_nil err : implements_runtime_Error err = true -> non_nil err = true.
Proof. destruct err; [discriminate | reflexivity]. Qed.

Lemma parseError_spec err :
  match parseError err with
  | Returns r => classifiable err = true /\ sound_result (subject err) r
  | Panics _ => classifiable err = false
  end.
Proof.
  unfold parseError, classifiable. cbv zeta.
  change (set_extra make_map zero_parsed) with (mkParsed "" "" "" (Some ∅)).
  destruct (implements_net_Error err) eqn:Hnet.
  - destruct (unwrapOpError_spec err "" "" "" ∅) as (o' & m' & -> & _).
    apply switchNet_spec.
  - rewrite (subject_not_net _ Hnet).
    destruct (implements_runtime_Error err) eqn:Hrt.
    + apply switchRuntime_spec.
    + apply switchStruct_spec.
Qed.

Lemma parseError_returns_iff err :
  returned (parseError err) <-> classifiable err = true.
Proof.
  pose proof (parseError_spec err) as H.
  destruct (parseError err); simpl; intuition congruence.
Qed.

Lemma parseError_sound err r :
  parseError err = Returns r -> sound_result (subject err) r.
Proof.
  intros E. pose proof (parseError_spec err) as H. rewrite E in H. tauto.
Qed.

Lemma Error_returns_speaks err : Error_returns err = true -> speaks err = true.
Proof. split_error err; first [discriminate | reflexivity]. Qed.

Lemma well_formed_classifiable err :
  well_formed err = true -> classifiable err = true.
Proof.
  unfold well_formed, classifiable. intros H.
  apply andb_prop in H as [Hr Hh].
  destruct (implements_net_Error err) eqn:Hnet.
  - destruct (subject err) as [|v t]; [discriminate|].
    destruct v; try reflexivity; try discriminate.
    apply Error_returns_speaks. exact Hr.
  - rewrite (subject_not_net _ Hnet) in *.
    destruct (implements_runtime_Error err);
      [apply Error_returns_speaks; exact Hr|].
    destruct err as [|v t]; [discriminate|].
    destruct v;
      first [ exact Hh | discriminate | reflexivity
            | apply Error_returns_speaks; exact Hr ].
Qed.

Lemma decorate_spec f e w :
  exists w' e', decorate f e w = (w', Returns e') /\ frame w w' /\ same_base e e'
    /\ Error_Op e' = default (Error_Op e) (pick_Op f)
    /\ Error_ProxyingInfo e' = default (Error_ProxyingInfo e) (pick_ProxyingInfo f)
    /\ Error_UserAgentInfo e' = default (Error_UserAgentInfo e) (pick_UserAgentInfo f)
    /\ (if is_WithLocale f
        then userLocales (heap w') = (userLocales (heap w) ++ [probed_UserLocale (outside w)])%list
             /\ Error_UserLocale e' = Some (length (userLocales (heap w)))
        else userLocales (heap w') = userLocales (heap w)
             /\ Error_UserLocale e' = Error_UserLocale e).
Proof.
  destruct f; do 2 eexists;
    (split; [unfold decorate, mbind, M_bind, get, new_UserLocale; cbn; reflexivity|]);
    cbn; unfold frame, same_base; cbn; tauto.
Qed.

Lemma frame_refl w : frame w w.
Proof. unfold frame. tauto. Qed.

Lemma frame_trans w1 w2 w3 : frame w1 w2 -> frame w2 w3 -> frame w1 w3.
Proof. unfold frame. intuition congruence. Qed.

Lemma same_base_trans e1 e2 e3 : same_base e1 e2 -> same_base e2 e3 -> same_base e1 e3.
Proof. unfold same_base. intuition congruence. Qed.

Lemma range_spec with_ : forall e w,
  exists w' e', range with_ e w = (w', Returns e') /\ frame w w' /\ same_base e e'
    /\ Error_Op e' = last_arg pick_Op with_ (Error_Op e)
    /\ Error_ProxyingInfo e' = last_arg pick_ProxyingInfo with_ (Error_ProxyingInfo e)
    /\ Error_UserAgentInfo e' = last_arg pick_UserAgentInfo with_ (Error_UserAgentInfo e)
    /\ locale_effect with_ e e' w w'.
Proof.
  induction with_ as [|f rest IH]; intros e w.
  - exists w, e. repeat split; try reflexivity; try apply frame_refl; discriminate.
  - destruct (decorate_spec f e w) as (w1 & e1 & E1 & F1 & B1 & O1 & P1 & U1 & L1).
    destruct (IH e1 w1) as (w2 & e2 & E2 & F2 & B2 & O2 & P2 & U2 & Lp & Lt & Lf).
    exists w2, e2. split.
    { cbn [range]. unfold mbind, M_bind. rewrite E1. exact E2. }
    split; [eapply frame_trans; eassumption|].
    split; [eapply same_base_trans; eassumption|].
    cbn [last_arg fold_left]. unfold last_arg in *.
    rewrite <- O1, <- P1, <- U1.
    repeat split; try assumption.
    + destruct (is_WithLocale f); destruct L1 as [L1 _]; rewrite L1 in Lp.
      * etrans; [|exact Lp]. by apply prefix_app_r.
      * exact Lp.
    + cbn [existsb]. intros Hex.
      destruct (existsb is_WithLocale rest) eqn:Hrest.
      * destruct (Lt eq_refl) as (a & Ha & Hle & Hlk).
        exists a. split; [exact Ha|]. split.
        -- destruct (is_WithLocale f); destruct L1 as [L1 _]; rewrite L1 in Hle;
             [rewrite length_app in Hle; cbn in Hle|]; lia.
        -- destruct F1 as (Fo & _). rewrite <- Fo. exact Hlk.
      * destruct (Lf eq_refl) as [Hp Hh].
        destruct (is_WithLocale f); [|discriminate].
        destruct L1 as [L1 L1p].
        exists (length (userLocales (heap w))).
        split; [congruence|]. split; [lia|].
        rewrite Hh, L1. rewrite lookup_app_r by lia.
        by rewrite Nat.sub_diag.
    + cbn [existsb] in H. apply orb_false_elim in H as [Hf Hr].
      rewrite Hf in L1. destruct (Lf Hr). destruct L1. congruence.
    + cbn [existsb] in H. apply orb_false_elim in H as [Hf Hr].
      rewrite Hf in L1. destruct (Lf Hr). destruct L1. congruence.
Qed.

Ltac run_M :=
  cbv [Report mbind M_bind mret M_ret get lift panic handed fmt_Printf toJSON].

Lemma Report_effect r e w :
  let w' := fst (Report r e w) in
  outside w' = outside w /\ heap w' = heap w
  /\ currentReporter w' = currentReporter w
  /\ reports w' = (reports w ++ if decide (r = nil_Reporter) then [] else [(r, e)])%list.
Proof.
  destruct r as [| |id faulty].
  - cbn. rewrite app_nil_r. tauto.
  - run_M. cbn. destruct (json_Marshal (outside w) (heap w) e); cbn; tauto.
  - destruct faulty; cbn; tauto.
Qed.



Lemma Log_spec c err with_ w :
  match parseError err with
  | Panics why => Log c err with_ w = (w, Panics why)
  | Returns p =>
      Log c err with_ w
      = Report (currentReporter w) (decorated with_ (actual_of c p) w)
          (fst (range with_ (actual_of c p) w))
  end.
Proof.
  unfold Log, mbind, M_bind, lift.
  destruct (parseError err) as [p|why]; [|reflexivity].
  destruct (range_spec with_ (actual_of c p) w) as (w1 & e1 & E & F & _).
  unfold decorated. rewrite E. cbn.
  destruct F as (_ & -> & _). reflexivity.
Qed.

Lemma Log_effect c err with_ w :
  let w' := fst (Log c err with_ w) in
  outside w' = outside w
  /\ currentReporter w' = currentReporter w
  /\ systemInfos (heap w') = systemInfos (heap w)
  /\ proxyingInfos (heap w') = proxyingInfos (heap w)
  /\ userAgentInfos (heap w') = userAgentInfos (heap w)
  /\ userLocales (heap w) `prefix_of` userLocales (heap w')
  /\ reports w' = (reports w ++ Log_hands c err with_ w)%list.
Proof.
  pose proof (Log_spec c err with_ w) as HL. unfold Log_hands.
  destruct (parseError err) as [p|why].
  - destruct (range_spec with_ (actual_of c p) w)
      as (w1 & e1 & E & F & _ & _ & _ & _ & Lp & _).
    rewrite HL. rewrite E in *. cbn [fst].
    destruct (Report_effect (currentReporter w) (decorated with_ (actual_of c p) w) w1)
      as (Ro & Rh & Rc & Rr).
    destruct F as (Fo & Fc & _ & Fr & Fs & Fp & Fu).
    rewrite Rh. rewrite Ro, Rc, Rr, Fo, Fc, Fr, Fs, Fp, Fu. repeat split; try reflexivity. exact Lp.
  - rewrite HL. cbn. rewrite app_nil_r. repeat split; reflexivity.
Qed.

Lemma handed_since_app w w' l :
  reports w' = (reports w ++ l)%list -> handed_since w w' = l.
Proof. intros E. unfold handed_since. rewrite E. apply drop_app_length. Qed.

Lemma Log_handed_since c err with_ w :
  handed_since w (fst (Log c err with_ w)) = Log_hands c err with_ w.
Proof. apply handed_since_app, Log_effect. Qed.

Lemma decorated_base with_ e w : same_base e (decorated with_ e w).
Proof.
  destruct (range_spec with_ e w) as (w' & e' & E & _ & B & _).
  unfold decorated. rewrite E. exact B.
Qed.

Lemma record_of_decorated c err p with_ w :
  parseError err = Returns p ->
  record_of c err (decorated with_ (actual_of c p) w).
Proof.
  intros E. exists p. split; [exact E|].
  destruct (decorated_base with_ (actual_of c p) w) as (B1 & B2 & B3 & B4 & B5).
  rewrite B1, B2, B3, B4, B5. cbn. tauto.
Qed.

Lemma step_effect w k :
  outside (step w k) = outside w
  /\ currentReporter (step w k)
     = match k with call_ReportTo r => r | _ => currentReporter w end
  /\ systemInfos (heap w) `prefix_of` systemInfos (heap (step w k))
  /\ userLocales (heap w) `prefix_of` userLocales (heap (step w k))
  /\ proxyingInfos (heap (step w k)) = proxyingInfos (heap w)
  /\ userAgentInfos (heap (step w k)) = userAgentInfos (heap w)
  /\ reports (step w k) = (reports w ++ step_hands w k)%list.
Proof.
  destruct k as [pkg|r|c err with_]; cbn [step step_hands].
  - cbn. rewrite app_nil_r. repeat split; try reflexivity. by apply prefix_app_r.
  - cbn. rewrite app_nil_r. repeat split; reflexivity.
  - destruct (Log_effect c err with_ w) as (Ho & Hc & Hs & Hp & Hu & Hl & Hr).
    rewrite Hs. repeat split; try assumption. reflexivity.
Qed.

Lemma run_cons k calls w : run (k :: calls) w = run calls (step w k).
Proof. reflexivity. Qed.

Lemma run_app calls1 calls2 w : run (calls1 ++ calls2) w = run calls2 (run calls1 w).
Proof. unfold run. apply fold_left_app. Qed.

Lemma run_effect calls : forall w,
  outside (run calls w) = outside w
  /\ systemInfos (heap w) `prefix_of` systemInfos (heap (run calls w))
  /\ userLocales (heap w) `prefix_of` userLocales (heap (run calls w))
  /\ proxyingInfos (heap (run calls w)) = proxyingInfos (heap w)
  /\ userAgentInfos (heap (run calls w)) = userAgentInfos (heap w)
  /\ reports w `prefix_of` reports (run calls w).
Proof.
  induction calls as [|k calls IH]; intros w.
  - cbn. repeat split; reflexivity.
  - rewrite run_cons.
    destruct (IH (step w k)) as (Io & Is & Il & Ip & Iu & Ir).
    destruct (step_effect w k) as (So & _ & Ss & Sl & Sp & Su & Sr).
    rewrite Io, So, Ip, Sp, Iu, Su. repeat split; try reflexivity.
    + etrans; eassumption.
    + etrans; eassumption.
    + etrans; [|exact Ir]. rewrite Sr. by apply prefix_app_r.
Qed.

Lemma parseError_classifiable err :
  classifiable err = true -> exists p, parseError err = Returns p.
Proof.
  intros H. apply parseError_returns_iff in H.
  destruct (parseError err) as [p|]; [eauto | contradiction].
Qed.

Lemma parseError_unclassifiable err :
  classifiable err = false -> exists why, parseError err = Panics why.
Proof.
  intros H. pose proof (parseError_spec err) as S.
  destruct (parseError err) as [p|why]; [|eauto].
  destruct S. congruence.
Qed.

Lemma later_Logs_routed later : forall w r,
  currentReporter w = r -> r <> nil_Reporter ->
  forallb (fun k => negb (is_ReportTo k)) later = true ->
  exists new,
    reports (run later w) = (reports w ++ new)%list
    /\ Forall (fun d => d.1 = r) new
    /\ Forall2 (delivers r) (List.filter produces_record later) new.
Proof.
  induction later as [|k later IH]; intros w r Hr Hnil Hno.
  - exists []. cbn. rewrite app_nil_r. repeat split; constructor.
  - cbn [forallb] in Hno. apply andb_prop in Hno as [Hk Hno].
    destruct (step_effect w k) as (_ & Sc & _ & _ & _ & _ & Sr).
    assert (Hc : currentReporter (step w k) = r).
    { rewrite Sc. destruct k; try assumption. discriminate. }
    destruct (IH (step w k) r Hc Hnil Hno) as (new & Inew & Iall & Ieach).
    rewrite run_cons, Inew, Sr, <- app_assoc.
    eexists. split; [reflexivity|].
    destruct k as [pkg|r'|c err with_]; cbn [step_hands List.filter produces_record];
      [tauto | discriminate |].
    unfold Log_hands.
    destruct (classifiable err) eqn:Hcl.
    + destruct (parseError_classifiable _ Hcl) as [p Hp]. rewrite Hp.
      rewrite Hr. destruct (decide (r = nil_Reporter)); [contradiction|].
      split; constructor; try assumption; [reflexivity|].
      split; [reflexivity|]. by apply record_of_decorated.
    + destruct (parseError_unclassifiable _ Hcl) as [why Hp]. rewrite Hp.
      tauto.
Qed.

Lemma last_arg_app {A} (pick : withFunc -> option A) pre post a :
  last_arg pick (pre ++ post) a = last_arg pick post (last_arg pick pre a).
Proof. unfold last_arg. apply fold_left_app. Qed.

Lemma last_arg_last {A} (pick : withFunc -> option A) f x pre post a :
  pick f = Some x ->
  Forall (fun g => pick g = None) post ->
  last_arg pick (pre ++ f :: post) a = x.
Proof.
  intros Hf Hpost. rewrite last_arg_app. cbn. rewrite Hf. cbn.
  generalize x. induction Hpost as [|g post Hg _ IH]; intros y; [reflexivity|].
  cbn. rewrite Hg. apply IH.
Qed.

Lemma no_same_kind f post :
  forallb (fun g => negb (same_kind f g)) post = true ->
  (is_Some (pick_Op f) -> Forall (fun g => pick_Op g = None) post)
  /\ (is_Some (pick_ProxyingInfo f) -> Forall (fun g => pick_ProxyingInfo g = None) post)
  /\ (is_Some (pick_UserAgentInfo f) -> Forall (fun g => pick_UserAgentInfo g = None) post).
Proof.
  intros H. rewrite forallb_forall in H.
  repeat split; intros [x Hx]; apply Forall_forall; intros g Hg;
    apply list_elem_of_In, H in Hg; destruct f, g; try discriminate; reflexivity.
Qed.

(** A record that a call of [Log] handed over is the decorated record of
    that call, and went to the reporter current at the call. *)
Lemma Log_handed_record c err with_ w r e :
  (r, e) ∈ handed_since w (fst (Log c err with_ w)) ->
  r = currentReporter w /\ r <> nil_Reporter
  /\ handed_since w (fst (Log c err with_ w)) = [(r, e)]
  /\ exists p, parseError err = Returns p
       /\ e = decorated with_ (actual_of c p) w
       /\ same_base (actual_of c p) e
       /\ Error_Op e = last_arg pick_Op with_ (op p)
       /\ Error_ProxyingInfo e = last_arg pick_ProxyingInfo with_ None
       /\ Error_UserAgentInfo e = last_arg pick_UserAgentInfo with_ None
       /\ locale_effect with_ (actual_of c p) e w (fst (Log c err with_ w)).
Proof.
  rewrite Log_handed_since. unfold Log_hands.
  pose proof (Log_spec c err with_ w) as HL.
  destruct (parseError err) as [p|why]; [|intros H; inversion H].
  destruct (decide (currentReporter w = nil_Reporter)) as [|Hn]; [intros H; inversion H|].
  intros H. apply list_elem_of_singleton in H. injection H as -> ->.
  do 3 (split; [done|]). exists p. split; [done|]. split; [done|].
  destruct (range_spec with_ (actual_of c p) w) as (w1 & e1 & E & F & B & O & P & U & L).
  assert (D : decorated with_ (actual_of c p) w = e1) by (unfold decorated; by rewrite E).
  rewrite D. do 4 (split; [done|]).
  rewrite HL, E. cbn [fst].
  destruct (Report_effect (currentReporter w) (decorated with_ (actual_of c p) w) w1)
    as (_ & Rh & _).
  unfold locale_effect in *. rewrite Rh. exact L.
Qed.

(** ** Kinds of the struct types *)

(** Every case of the struct switch but the one of [*os.LinkError] gives
    the name of its own type, without the star. *)
Lemma struct_case_Kind v text p :
  struct_case v = true ->
  protocol_key (iface v text) = None ->
  (forall Op Old New Err, v <> os_LinkError Op Old New Err) ->
  parseError (iface v text) = Returns p ->
  goType p = type_String (base_type (typeOf v)).
Proof.
  intros Hs Hk Hl.
  destruct v; try discriminate Hs;
    try (cbn; intros [= <-]; reflexivity);
    try (destruct pointer; cbn; intros [= <-]; reflexivity).
  - destruct p0 as [s|a]; [discriminate Hk|]. cbn. intros [= <-]. reflexivity.
  - exfalso. eapply Hl. reflexivity.
  - cbn. destruct (Error_ Err); cbn; [intros [= <-]; reflexivity | discriminate].
  - cbn. destruct (Error_ Err); cbn; [intros [= <-]; reflexivity | discriminate].
  - cbn. destruct (Error_ Err); cbn; [intros [= <-]; reflexivity | discriminate].
  - cbn. destruct (Error_ Err); cbn; [intros [= <-]; reflexivity | discriminate].
Qed.

(** C1 (the code departs from the claim): a [*os.LinkError] is given
    the Kind of [textproto.ProtocolError], so the two shapes are
    classified under the same Kind, and no link error is ever classified
    as [os.LinkError]. *)
Theorem LinkError_classified_as_ProtocolError
    (Op Old New : string) (Err : error) (text : string)
    (pointer : bool) (text' : string) :
  parseError (iface (os_LinkError Op Old New Err) text)
  = Returns (mkParsed "" "textproto.ProtocolError" text (Some ∅))
  /\ parseError (iface (textproto_ProtocolError pointer) text')
     = Returns (mkParsed "" "textproto.ProtocolError" text' (Some ∅))
  /\ type_String (base_type (typeOf (os_LinkError Op Old New Err))) = "os.LinkError".
Proof. repeat split. Qed.

Example rename_failed_Kind :
  parseError rename_failed
  = Returns (mkParsed "" "textproto.ProtocolError"
               "rename a b: no such file or directory" (Some ∅)).
Proof. reflexivity. Qed.

(** ** [Log] and the reporter *)

Example NewErrorCollector_flashlight marshal :
  NewErrorCollector "flashlight" (start (host marshal))
  = (booted marshal, Returns flashlight).
Proof. reflexivity. Qed.




(** C3: after [ReportTo(r)], as long as no other reporter is installed,
    every record that a call of [Log] produces is handed over once, to
    [r]: the records handed over since are, in order, those of the later
    calls of [Log] that classified their error, and each went to [r]. *)
Theorem ReportTo_routes_later_Logs (before later : list call) (r : Reporter)
    (w : World) :
  r <> nil_Reporter ->
  forallb (fun k => negb (is_ReportTo k)) later = true ->
  exists new,
    reports (run (before ++ call_ReportTo r :: later) w)
    = (reports (run (before ++ [call_ReportTo r]) w) ++ new)%list
    /\ Forall (fun d => d.1 = r) new
    /\ Forall2 (delivers r) (List.filter produces_record later) new.
Proof.
  intros Hnil Hno.
  replace (before ++ call_ReportTo r :: later)
    with ((before ++ [call_ReportTo r]) ++ later) by (by rewrite <- app_assoc).
  rewrite (run_app _ later).
  apply later_Logs_routed; [|exact Hnil|exact Hno].
  rewrite run_app. reflexivity.
Qed.

Lemma ReportTo_routes_later_Logs_witness :
  Custom 1 false <> nil_Reporter
  /\ forallb (fun k => negb (is_ReportTo k))
       [call_Log flashlight EOF [WithOp OpRead]; call_Log flashlight nil_error []] = true
  /\ exists new,
       reports (run ([call_Log flashlight EOF []]
                     ++ call_ReportTo (Custom 1 false)
                        :: [call_Log flashlight EOF [WithOp OpRead];
                            call_Log flashlight nil_error []])
                  (booted some_json))
       = (reports (run ([call_Log flashlight EOF []] ++ [call_ReportTo (Custom 1 false)])
                     (booted some_json)) ++ new)%list
       /\ Forall (fun d => d.1 = Custom 1 false) new
       /\ Forall2 (delivers (Custom 1 false))
            (List.filter produces_record
               [call_Log flashlight EOF [WithOp OpRead]; call_Log flashlight nil_error []])
            new.
Proof.
  split; [discriminate|]. split; [reflexivity|].
  apply (ReportTo_routes_later_Logs [call_Log flashlight EOF []]
           [call_Log flashlight EOF [WithOp OpRead]; call_Log flashlight nil_error []]
           (Custom 1 false) (booted some_json)); [discriminate | reflexivity].
Defined.

Example swap_mid_run :
  reports (run [call_Log flashlight EOF [];
                call_ReportTo (Custom 1 false);
                call_Log flashlight ErrNotExist []]
             (booted some_json))
  = [ (StdReporter,
       mkError "flashlight" "io.EOF" "EOF" "" (Some ∅) (Some 0) None None None);
      (Custom 1 false,
       mkError "flashlight" "os.ErrNotExist" "file does not exist" "" (Some ∅)
               (Some 0) None None None) ].
Proof. reflexivity. Qed.

(** ** Sentinels *)

Lemma miscErrors_assoc s name : In (s, name) miscErrors -> assoc s miscErrors = Some name.
Proof.
  unfold miscErrors. cbn [In].
  intros H. repeat (destruct H as [[= <- <-]|H]; [reflexivity|]). contradiction.
Qed.

Lemma miscErrors_names s name :
  In (s, name) miscErrors -> name <> "*errors.errorString".
Proof.
  unfold miscErrors. cbn [In].
  intros H. repeat (destruct H as [[= <- <-]|H]; [discriminate|]). contradiction.
Qed.

(** C4 (counterexample): [io.EOF] inside a [*net.OpError] is classified
    by its dynamic type name, not as [io.EOF]. *)
Lemma wrapped_EOF_not_by_table :
  parseError read_EOF
  = Returns (mkParsed "read" "*errors.errorString" "EOF"
               (Some (<["network":="tcp"]> {["remoteAddr" := "10.0.0.1:443"]}))).
Proof. reflexivity. Qed.

(** C4 (amended): a sentinel of the table handed to [parseError] itself
    gets the Kind of the table and not the dynamic type name; inside a
    [*net.OpError] it is classified in the network branch, which does not
    read the table, and gets the dynamic type name. *)
Theorem sentinel_Kind (s : sentinel) (name text : string) :
  In (s, name) miscErrors ->
  parseError (iface (errors_errorString (Known s)) text)
  = Returns (mkParsed "" name text (Some ∅))
  /\ name <> type_String (typeOf (errors_errorString (Known s)))
  /\ forall Op Net Source Addr wrapper_text,
       exists m,
         parseError (iface (net_OpError Op Net Source Addr
                              (iface (errors_errorString (Known s)) text))
                           wrapper_text)
         = Returns (mkParsed Op "*errors.errorString" text (Some m)).
Proof.
  intros Hin. split; [|split].
  - unfold parseError, switchStruct, index.
    cbn [implements_net_Error implements_runtime_Error hashable sentinel_key
         Error_ mbind result_bind option_bind].
    rewrite (miscErrors_assoc _ _ Hin). reflexivity.
  - by apply miscErrors_names in Hin.
  - intros Op Net [src|] [addr|] wt; eexists; reflexivity.
Qed.

Lemma sentinel_Kind_witness :
  In (io_EOF, "io.EOF") miscErrors
  /\ parseError EOF = Returns (mkParsed "" "io.EOF" "EOF" (Some ∅))
  /\ "io.EOF" <> type_String (typeOf (errors_errorString (Known io_EOF)))
  /\ forall Op Net Source Addr wrapper_text,
       exists m,
         parseError (iface (net_OpError Op Net Source Addr EOF) wrapper_text)
         = Returns (mkParsed Op "*errors.errorString" "EOF" (Some m)).
Proof.
  assert (H : In (io_EOF, "io.EOF") miscErrors) by (cbn; tauto).
  split; [exact H|].
  exact (sentinel_Kind io_EOF "io.EOF" "EOF" H).
Defined.

(** ** Kind and Description of the record *)

Lemma switch_unnamed v text o g d m p :
  unnamed v = true ->
  switchNet (iface v text) (mkParsed o g d (Some m)) = Returns p
  \/ switchRuntime (iface v text) (mkParsed o g d (Some m)) = Returns p
  \/ switchStruct (iface v text) (mkParsed o g d (Some m)) = Returns p ->
  goType p = type_String (typeOf v) /\ desc p = text.
Proof.
  intros Hu H. destruct v; try discriminate Hu.
  - destruct p0; [discriminate Hu|].
    destruct H as [H|[H|H]]; cbn in H; injection H as <-; split; reflexivity.
  - destruct H as [H|[H|H]]; [| |destruct comparable; [|discriminate H]];
      cbn in H; injection H as <-; split; reflexivity.
Qed.

Lemma parseError_unnamed err v text p :
  subject err = iface v text ->
  unnamed v = true ->
  parseError err = Returns p ->
  goType p = type_String (typeOf v) /\ desc p = text.
Proof.
  intros Hs Hu. unfold parseError. cbv zeta.
  change (set_extra make_map zero_parsed) with (mkParsed "" "" "" (Some ∅)).
  destruct (implements_net_Error err) eqn:Hnet.
  - destruct (unwrapOpError_spec err "" "" "" ∅) as (o' & m' & -> & _).
    cbn [mbind result_bind]. rewrite Hs. intros H.
    eapply switch_unnamed; [exact Hu | left; exact H].
  - rewrite (subject_not_net _ Hnet) in Hs. subst err.
    destruct (implements_runtime_Error _); intros H;
      eapply switch_unnamed; try exact Hu; [right; left; exact H | right; right; exact H].
Qed.

(** C5 (counterexample): the record of an error whose message is empty,
    and the record of the error of [time.Parse], have an empty
    description. *)
Lemma empty_Description :
  reports (fst (Log flashlight (errors_New 1 "") [] (booted some_json)))
  = [ (StdReporter,
       mkError "flashlight" "*errors.errorString" "" "" (Some ∅) (Some 0)
               None None None) ]
  /\ reports (fst (Log flashlight bad_time [] (booted some_json)))
     = [ (StdReporter,
          mkError "flashlight" "time.ParseError" "" "" (Some ∅) (Some 0)
                  None None None) ].
Proof. split; reflexivity. Qed.

(** C5 (amended): [Log] hands the record of a well-formed error to the
    reporter; every record it hands over has a non-empty Kind, has a
    non-empty Description when the message strings of the error are not
    empty, and has the dynamic type name as Kind and the message of the
    error as Description when no case of the classifier names the type. *)
Theorem handed_record_Kind_and_Description (c : ErrorCollector) (err : error)
    (with_ : list withFunc) (w : World) :
  (well_formed err = true -> currentReporter w <> nil_Reporter ->
   exists e, handed_since w (fst (Log c err with_ w)) = [(currentReporter w, e)])
  /\ forall r e,
       (r, e) ∈ handed_since w (fst (Log c err with_ w)) ->
       GoType e <> ""
       /\ (worded err = true -> Desc e <> "")
       /\ (forall v text,
             subject err = iface v text -> unnamed v = true ->
             GoType e = type_String (typeOf v) /\ Desc e = text).
Proof.
  split.
  - intros Hwf Hnil. rewrite Log_handed_since. unfold Log_hands.
    apply well_formed_classifiable, parseError_classifiable in Hwf as [p ->].
    destruct (decide (currentReporter w = nil_Reporter)); [contradiction|].
    eexists. reflexivity.
  - intros r e Hin.
    destruct (Log_handed_record _ _ _ _ _ _ Hin)
      as (_ & _ & _ & p & Hp & _ & (_ & Bt & Bd & _) & _).
    cbn in Bt, Bd. rewrite Bt, Bd.
    destruct (parseError_sound _ _ Hp) as (_ & Hty & Hdesc).
    split; [exact Hty|]. split; [exact Hdesc|].
    intros v text Hs Hu. eapply parseError_unnamed; eassumption.
Qed.

Lemma handed_record_Kind_and_Description_witness :
  well_formed Get_failed = true
  /\ currentReporter (booted some_json) <> nil_Reporter
  /\ worded Get_failed = true
  /\ exists e,
       handed_since (booted some_json)
         (fst (Log flashlight Get_failed [] (booted some_json)))
       = [(currentReporter (booted some_json), e)]
       /\ GoType e <> "" /\ Desc e <> "".
Proof.
  split; [reflexivity|]. split; [discriminate|]. split; [reflexivity|].
  destruct (handed_record_Kind_and_Description flashlight Get_failed []
              (booted some_json)) as [Hex Hall].
  destruct (Hex eq_refl) as [e He]; [discriminate|].
  exists e. split; [exact He|].
  destruct (Hall (currentReporter (booted some_json)) e) as (Hk & Hd & _).
  - rewrite He. apply list_elem_of_singleton. reflexivity.
  - split; [exact Hk | exact (Hd eq_refl)].
Defined.

(** ** URL errors *)

(** C6: a [*url.Error] whose cause has the message [d] is classified as
    [url.Error] with its own operation, also inside a [*net.OpError],
    whatever the operation of the wrapper. *)
Theorem url_Error_Operation (Op URL : string) (Err : error) (text d : string) :
  Error_ Err = Returns d ->
  parseError (iface (url_Error Op URL Err) text)
  = Returns (mkParsed Op "url.Error" d (Some ∅))
  /\ forall wrapper_Op Net Source Addr wrapper_text,
       exists m,
         parseError (iface (net_OpError wrapper_Op Net Source Addr
                              (iface (url_Error Op URL Err) text))
                           wrapper_text)
         = Returns (mkParsed Op "url.Error" d (Some m)).
Proof.
  intros Hd.
  split; [cbn; rewrite Hd; reflexivity|].
  intros wOp Net [src|] [addr|] wt; eexists; cbn; rewrite Hd; reflexivity.
Qed.

Lemma url_Error_Operation_witness :
  Error_ EOF = Returns "EOF"
  /\ parseError Get_failed = Returns (mkParsed "Get" "url.Error" "EOF" (Some ∅))
  /\ forall wrapper_Op Net Source Addr wrapper_text,
       exists m,
         parseError (iface (net_OpError wrapper_Op Net Source Addr Get_failed)
                           wrapper_text)
         = Returns (mkParsed "Get" "url.Error" "EOF" (Some m)).
Proof.
  split; [reflexivity|].
  exact (url_Error_Operation "Get" "http://example.invalid/" EOF
           "Get http://example.invalid/: EOF" "EOF" eq_refl).
Defined.

Example wrapped_url_Error :
  parseError (iface (net_OpError "dial" "tcp" None None Get_failed) "dial tcp: Get")
  = Returns (mkParsed "Get" "url.Error" "EOF" (Some {["network" := "tcp"]})).
Proof. reflexivity. Qed.

(** ** Context blocks *)

Lemma existsb_middle {A} (P : A -> bool) pre f post :
  P f = true -> existsb P (pre ++ f :: post) = true.
Proof.
  intros H. rewrite existsb_app. cbn. rewrite H. apply orb_true_r.
Qed.

(** C7 (counterexample): two calls of [Log] decorated with the same
    [*ProxyingInfo] hand over records that point to the same block; a
    write of the caller through its pointer changes what both records
    show. *)
Lemma proxy_block_shared :
  let w0 := store_ProxyingInfo 7 proxy_block (booted some_json) in
  let w2 := run [call_Log flashlight EOF [WithProxy (Some 7)];
                 call_Log flashlight ErrNotExist [WithProxy (Some 7)]] w0 in
  let e1 := mkError "flashlight" "io.EOF" "EOF" "" (Some ∅) (Some 0)
                    (Some 7) None None in
  let e2 := mkError "flashlight" "os.ErrNotExist" "file does not exist" ""
                    (Some ∅) (Some 0) (Some 7) None None in
  let changed :=
    {| ProxyingInfo_ProxyType := FrontedProxy; LocalAddr := ""; ProxyAddr := "";
       ProxyDC := ""; OriginSite := ""; Scheme := "https" |} in
  reports w2 = [(StdReporter, e1); (StdReporter, e2)]
  /\ Error_ProxyingInfo e1 = Error_ProxyingInfo e2
  /\ ProxyingInfo_at (heap w2) (Error_ProxyingInfo e1) = Some proxy_block
  /\ ProxyingInfo_at (heap (store_ProxyingInfo 7 changed w2)) (Error_ProxyingInfo e1)
     = Some changed
  /\ ProxyingInfo_at (heap (store_ProxyingInfo 7 changed w2)) (Error_ProxyingInfo e2)
     = Some changed.
Proof. cbv zeta. repeat split. Qed.

(** C7 (amended): a decorator passed to two calls of [Log], as the last
    of its kind.  [WithProxy] and [WithUserAgent] put the pointer of the
    caller into both records and copy no block; [WithLocale] gives each
    record a block of its own, allocated during its call. *)
Theorem blocks_of_two_records (c1 c2 : ErrorCollector) (err1 err2 : error)
    (pre1 post1 pre2 post2 : list withFunc) (between : list call)
    (f : withFunc) (w : World) (r1 r2 : Reporter) (e1 e2 : Error) :
  let w1 := fst (Log c1 err1 (pre1 ++ f :: post1) w) in
  let w2 := run between w1 in
  let w3 := fst (Log c2 err2 (pre2 ++ f :: post2) w2) in
  forallb (fun g => negb (same_kind f g)) post1 = true ->
  forallb (fun g => negb (same_kind f g)) post2 = true ->
  (r1, e1) ∈ handed_since w w1 ->
  (r2, e2) ∈ handed_since w2 w3 ->
  match f with
  | WithOp _ => True
  | WithProxy info =>
      Error_ProxyingInfo e1 = info /\ Error_ProxyingInfo e2 = info
      /\ proxyingInfos (heap w3) = proxyingInfos (heap w)
  | WithUserAgent info =>
      Error_UserAgentInfo e1 = info /\ Error_UserAgentInfo e2 = info
      /\ userAgentInfos (heap w3) = userAgentInfos (heap w)
  | WithLocale =>
      exists a1 a2,
        Error_UserLocale e1 = Some a1 /\ Error_UserLocale e2 = Some a2
        /\ a1 <> a2
        /\ length (userLocales (heap w)) <= a1
        /\ userLocales (heap w3) !! a1 = Some (probed_UserLocale (outside w))
        /\ userLocales (heap w3) !! a2 = Some (probed_UserLocale (outside w))
  end.
Proof.
  intros w1 w2 w3 Hp1 Hp2 H1 H2.
  destruct (Log_handed_record _ _ _ _ _ _ H1)
    as (_ & _ & _ & p1 & _ & _ & _ & _ & P1 & U1 & L1p & L1t & _).
  destruct (Log_handed_record _ _ _ _ _ _ H2)
    as (_ & _ & _ & p2 & _ & _ & _ & _ & P2 & U2 & L2p & L2t & _).
  destruct (no_same_kind _ _ Hp1) as (_ & N1p & N1u).
  destruct (no_same_kind _ _ Hp2) as (_ & N2p & N2u).
  destruct (Log_effect c1 err1 (pre1 ++ f :: post1) w) as (O1 & _ & _ & Ep1 & Eu1 & _).
  destruct (run_effect between w1) as (Or & _ & Lr & Epr & Eur & _).
  destruct (Log_effect c2 err2 (pre2 ++ f :: post2) w2) as (O2 & _ & _ & Ep2 & Eu2 & _).
  fold w1 in O1, Ep1, Eu1, L1p, L1t. fold w2 in Or, Lr, Epr, Eur.
  fold w3 in O2, Ep2, Eu2, L2p, L2t.
  destruct f as [o|info| |info]; [exact I| | |].
  - rewrite P1, P2.
    rewrite !(last_arg_last pick_ProxyingInfo (WithProxy info) info) by eauto.
    repeat split. congruence.
  - destruct L1t as (a1 & A1 & Hle1 & Hlk1); [by apply existsb_middle|].
    destruct L2t as (a2 & A2 & Hle2 & Hlk2); [by apply existsb_middle|].
    exists a1, a2. split; [exact A1|]. split; [exact A2|].
    apply lookup_lt_Some in Hlk1 as Hlt1.
    pose proof (prefix_length _ _ Lr) as Hlen.
    split; [lia|]. split; [exact Hle1|]. split.
    + eapply prefix_lookup_Some; [|exact L2p].
      eapply prefix_lookup_Some; [|exact Lr]. exact Hlk1.
    + rewrite Hlk2. by rewrite Or, O1.
  - rewrite U1, U2.
    rewrite !(last_arg_last pick_UserAgentInfo (WithUserAgent info) info) by eauto.
    repeat split. congruence.
Qed.

Lemma blocks_of_two_records_witness :
  (StdReporter, EOF_record (Some 7) (Some 0))
    ∈ handed_since proxied
        (fst (Log flashlight EOF [WithProxy (Some 7); WithLocale] proxied))
  /\ (StdReporter, EOF_record (Some 7) (Some 1))
       ∈ handed_since
           (fst (Log flashlight EOF [WithProxy (Some 7); WithLocale] proxied))
           (fst (Log flashlight EOF [WithLocale; WithProxy (Some 7)]
                   (fst (Log flashlight EOF [WithProxy (Some 7); WithLocale] proxied))))
  /\ Error_ProxyingInfo (EOF_record (Some 7) (Some 0)) = Some 7
  /\ Error_ProxyingInfo (EOF_record (Some 7) (Some 1)) = Some 7.
Proof.
  assert (H1 : (StdReporter, EOF_record (Some 7) (Some 0))
                 ∈ handed_since proxied
                     (fst (Log flashlight EOF ([] ++ WithProxy (Some 7) :: [WithLocale])
                             proxied))).
  { apply list_elem_of_singleton. reflexivity. }
  assert (H2 : (StdReporter, EOF_record (Some 7) (Some 1))
                 ∈ handed_since
                     (run [] (fst (Log flashlight EOF
                                     ([] ++ WithProxy (Some 7) :: [WithLocale]) proxied)))
                     (fst (Log flashlight EOF ([WithLocale] ++ WithProxy (Some 7) :: [])
                             (run [] (fst (Log flashlight EOF
                                             ([] ++ WithProxy (Some 7) :: [WithLocale])
                                             proxied)))))).
  { apply list_elem_of_singleton. reflexivity. }
  split; [exact H1|]. split; [exact H2|].
  destruct (blocks_of_two_records flashlight flashlight EOF EOF
              [] [WithLocale] [WithLocale] [] [] (WithProxy (Some 7)) proxied
              StdReporter StdReporter
              (EOF_record (Some 7) (Some 0)) (EOF_record (Some 7) (Some 1))
              eq_refl eq_refl H1 H2) as (P1 & P2 & _).
  split; [exact P1 | exact P2].
Defined.

(** ** The operation *)

(** C8 (counterexample): the list holds [WithOp("dial")], yet the
    operation of the record is that of the later [WithOp("read")]. *)
Lemma earlier_WithOp_overridden :
  In (WithOp OpDial) [WithOp OpDial; WithOp OpRead]
  /\ reports (fst (Log flashlight EOF [WithOp OpDial; WithOp OpRead] (booted some_json)))
     = [ (StdReporter,
          mkError "flashlight" "io.EOF" "EOF" OpRead (Some ∅) (Some 0)
                  None None None) ]
  /\ OpRead <> OpDial.
Proof. split; [cbn; tauto|]. split; [reflexivity | discriminate]. Qed.

(** C8 (amended): the operation of the record that [Log] hands over is
    the argument of the last [WithOp] of the list, whatever the
    classifier inferred. *)
Theorem last_WithOp_sets_Operation (c : ErrorCollector) (err : error)
    (pre post : list withFunc) (o : Op) (w : World) (r : Reporter) (e : Error) :
  forallb (fun g => negb (is_WithOp g)) post = true ->
  (r, e) ∈ handed_since w (fst (Log c err (pre ++ WithOp o :: post) w)) ->
  Error_Op e = o.
Proof.
  intros Hpost Hin.
  destruct (Log_handed_record _ _ _ _ _ _ Hin) as (_ & _ & _ & p & _ & _ & _ & O & _).
  rewrite O. apply (last_arg_last pick_Op (WithOp o)); [reflexivity|].
  apply Forall_forall. intros g Hg. rewrite forallb_forall in Hpost.
  apply list_elem_of_In, Hpost in Hg. destruct g; [discriminate Hg| | |]; reflexivity.
Qed.

Lemma last_WithOp_sets_Operation_witness :
  forallb (fun g => negb (is_WithOp g)) [WithLocale] = true
  /\ (StdReporter,
      mkError "flashlight" "url.Error" "EOF" OpDial (Some ∅) (Some 0)
              None (Some 0) None)
       ∈ handed_since (booted some_json)
           (fst (Log flashlight Get_failed ([WithOp OpRead] ++ WithOp OpDial :: [WithLocale])
                   (booted some_json)))
  /\ Error_Op (mkError "flashlight" "url.Error" "EOF" OpDial (Some ∅) (Some 0)
                       None (Some 0) None) = OpDial.
Proof.
  assert (H : (StdReporter,
               mkError "flashlight" "url.Error" "EOF" OpDial (Some ∅) (Some 0)
                       None (Some 0) None)
                ∈ handed_since (booted some_json)
                    (fst (Log flashlight Get_failed
                            ([WithOp OpRead] ++ WithOp OpDial :: [WithLocale])
                            (booted some_json)))).
  { apply list_elem_of_singleton. reflexivity. }
  split; [reflexivity|]. split; [exact H|].
  exact (last_WithOp_sets_Operation flashlight Get_failed [WithOp OpRead] [WithLocale]
           OpDial (booted some_json) StdReporter _ eq_refl H).
Defined.

(** ** No decorators *)

Lemma NewErrorCollector_spec goPackage w :
  NewErrorCollector goPackage w
  = (fst (NewErrorCollector goPackage w),
     Returns {| goPackage := goPackage;
                ErrorCollector_systemInfo := Some (length (systemInfos (heap w))) |})
  /\ systemInfos (heap (fst (NewErrorCollector goPackage w)))
     = systemInfos (heap w) ++ [snapshot (outside w)].
Proof. split; reflexivity. Qed.

(** C9: the record that [Log] hands over when it is called without
    decorators, at any later time, on a collector made by
    [NewErrorCollector], points to the system information taken when the
    collector was made, and has no proxy, locale or user agent block; for
    a well-formed error and a reporter there is such a record. *)
Theorem Log_without_decorators (goPackage : string) (between : list call)
    (err : error) (w : World) :
  exists c,
    snd (NewErrorCollector goPackage w) = Returns c
    /\ let w1 := fst (NewErrorCollector goPackage w) in
       let w2 := run between w1 in
       let w3 := fst (Log c err [] w2) in
       (well_formed err = true -> currentReporter w2 <> nil_Reporter ->
        exists e, handed_since w2 w3 = [(currentReporter w2, e)])
       /\ forall r e,
            (r, e) ∈ handed_since w2 w3 ->
            Error_systemInfo e = ErrorCollector_systemInfo c
            /\ systemInfo_at (heap w3) (Error_systemInfo e) = Some (snapshot (outside w))
            /\ Error_ProxyingInfo e = None
            /\ Error_UserLocale e = None
            /\ Error_UserAgentInfo e = None.
Proof.
  destruct (NewErrorCollector_spec goPackage w) as [Hc Hs].
  eexists. split; [rewrite Hc; reflexivity|]. cbv zeta.
  set (c := {| goPackage := goPackage;
               ErrorCollector_systemInfo := Some (length (systemInfos (heap w))) |}).
  set (w1 := fst (NewErrorCollector goPackage w)) in *.
  set (w2 := run between w1).
  split.
  - intros Hwf Hnil. rewrite Log_handed_since. unfold Log_hands.
    apply well_formed_classifiable, parseError_classifiable in Hwf as [p ->].
    destruct (decide (currentReporter w2 = nil_Reporter)); [contradiction|].
    eexists. reflexivity.
  - intros r e Hin.
    destruct (Log_handed_record _ _ _ _ _ _ Hin)
      as (_ & _ & _ & p & _ & _ & (_ & _ & _ & _ & Bs) & _ & P & U & _ & _ & L).
    destruct (L eq_refl) as [Ll _]. cbn in Bs, P, U, Ll.
    repeat split; try assumption.
    rewrite Bs. cbn.
    destruct (run_effect between w1) as (_ & Sr & _).
    destruct (Log_effect c err [] w2) as (_ & _ & Sl & _).
    rewrite Sl. eapply prefix_lookup_Some; [|exact Sr].
    rewrite Hs. rewrite lookup_app_r by lia. by rewrite Nat.sub_diag.
Qed.

Lemma Log_without_decorators_witness :
  well_formed Get_failed = true
  /\ exists e,
       handed_since (booted some_json)
         (fst (Log flashlight Get_failed [] (booted some_json)))
       = [(StdReporter, e)]
       /\ systemInfo_at (heap (fst (Log flashlight Get_failed [] (booted some_json))))
            (Error_systemInfo e)
          = Some (snapshot (host some_json))
       /\ Error_ProxyingInfo e = None
       /\ Error_UserLocale e = None
       /\ Error_UserAgentInfo e = None.
Proof.
  split; [reflexivity|].
  destruct (Log_without_decorators "flashlight" [] Get_failed (start (host some_json)))
    as (c & Hc & Hex & Hall).
  injection Hc as <-.
  destruct (Hex eq_refl) as [e He]; [discriminate|].
  exists e. split; [exact He|].
  destruct (Hall StdReporter e) as (_ & Hs & Hp & Hl & Hu).
  - change (run [] (fst (NewErrorCollector "flashlight" (start (host some_json)))))
      with (booted some_json) in *.
    rewrite He. apply list_elem_of_singleton. reflexivity.
  - repeat split; assumption.
Defined.

(** ** Totality *)




(** Errors that are not nil and not well formed: a link error and a
    path error whose chain of causes ends in nil, whose [Error] methods
    panic on the nil cause; a host name error without its certificate,
    whose [Error] method panics; an error list, which cannot be hashed.
    [parseError] panics in the method of the host name error. *)
Example not_well_formed :
  well_formed (iface (os_LinkError "rename" "a" "b" nil_error) "rename a b: ") = false
  /\ well_formed
       (iface (os_PathError "open" "/x"
                 (iface (os_LinkError "rename" "a" "b" nil_error) "rename a b: "))
              "open /x: rename a b: ") = false
  /\ well_formed
       (iface (Faulting (TNamed "x509" "HostnameError") false false nil_dereference) "")
     = false
  /\ parseError
       (iface (Faulting (TNamed "x509" "HostnameError") false false nil_dereference) "")
     = Panics nil_dereference
  /\ well_formed ErrorList = false.
Proof. repeat split. Qed.

(** A faulting value stands for one whose case calls its [Error]
    method: [parseError] panics with the value of that panic. *)
Lemma parseError_Faulting ty isNetError isRuntimeError why text :
  parseError (iface (Faulting ty isNetError isRuntimeError why) text) = Panics why.
Proof. destruct isNetError, isRuntimeError; reflexivity. Qed.

(** [parseError] returns exactly on the classifiable errors, which
    include the well-formed ones. *)
Lemma parseError_returns_or_panics err :
  (classifiable err = true /\ returned (parseError err))
  \/ (classifiable err = false /\ panicked (parseError err)).
Proof.
  pose proof (parseError_spec err) as H.
  destruct (parseError err); cbn; tauto.
Qed.

(** * Further properties of the error collector *)

Ltac extra_tac :=
  cbn; intros [= <-]; eexists; (split; [reflexivity|]);
  (split; [try rewrite !dom_insert; set_solver|]);
  (split; [intros k Hk; rewrite ?lookup_insert_ne; [reflexivity|..]; set_solver|]).

Ltac extra_tac3 :=
  cbn; intros [= <-]; eexists; (split; [reflexivity|]);
  (split; [try rewrite !dom_insert; set_solver|]);
  intros k Hk; rewrite ?lookup_insert_ne; [reflexivity|..]; set_solver.

Lemma switchNet_extra err o g d m p :
  switchNet err (mkParsed o g d (Some m)) = Returns p ->
  exists m', extra p = Some m'
    /\ dom m' ⊆ dom m ∪ shape_keys
    /\ (forall k, k ∈ wrapper_keys -> m' !! k = m !! k)
    /\ (op p = o \/ exists uOp URL e t, err = iface (url_Error uOp URL e) t /\ op p = uOp).
Proof.
  split_error err; try (extra_tac; by left).
  - cbn. case_eqb; extra_tac; by left.
  - cbn. destruct (Error_ Err); [|cbn; discriminate]. extra_tac. right. eauto 6.
Qed.

Lemma switchRuntime_extra err o g d m p :
  switchRuntime err (mkParsed o g d (Some m)) = Returns p ->
  extra p = Some m /\ op p = o.
Proof.
  split_error err; cbn; first [discriminate | intros [= <-]; split; reflexivity].
Qed.

Lemma switchStruct_extra err o g d m p :
  switchStruct err (mkParsed o g d (Some m)) = Returns p ->
  exists m', extra p = Some m'
    /\ dom m' ⊆ dom m ∪ shape_keys
    /\ (forall k, k ∈ wrapper_keys -> m' !! k = m !! k).
Proof.
  split_error err; try extra_tac3.
  all: try (cbn; destruct (Error_ Err); [|cbn; discriminate]; extra_tac3).
  all: case_args; first [extra_tac3 | intros HH; vm_compute in HH; discriminate HH].
Qed.

Lemma unwrapOpError_extra Op Net Source Addr Err text :
  exists m0,
    unwrapOpError (iface (net_OpError Op Net Source Addr Err) text)
      (mkParsed "" "" "" (Some ∅))
    = Returns (Err, mkParsed Op "" "" (Some m0))
    /\ m0 !! "network" = Some Net
    /\ m0 !! "localAddr" = Source
    /\ m0 !! "remoteAddr" = Addr
    /\ dom m0 ⊆ wrapper_keys.
Proof.
  destruct Source, Addr; eexists; (split; [reflexivity|]);
    repeat split; try reflexivity; try rewrite !dom_insert; set_solver.
Qed.

Lemma parseError_OpError Op Net Source Addr Err text :
  parseError (iface (net_OpError Op Net Source Addr Err) text)
  = '(err, r) ← unwrapOpError (iface (net_OpError Op Net Source Addr Err) text)
                  (mkParsed "" "" "" (Some ∅));
    switchNet err r.
Proof. reflexivity. Qed.

(** X1: the fields of a [*net.OpError] reach the result whatever error it
    wraps: no case of the inner switch writes one of the keys of the
    wrapper, and only a [*url.Error] replaces the operation. *)
Theorem OpError_fields_kept (Op Net : string) (Source Addr : option string)
    (Err : error) (text : string) (p : parsed) :
  parseError (iface (net_OpError Op Net Source Addr Err) text) = Returns p ->
  exists m,
    extra p = Some m
    /\ m !! "network" = Some Net
    /\ m !! "localAddr" = Source
    /\ m !! "remoteAddr" = Addr
    /\ (op p = Op
        \/ exists uOp URL e t, Err = iface (url_Error uOp URL e) t /\ op p = uOp).
Proof.
  rewrite parseError_OpError.
  destruct (unwrapOpError_extra Op Net Source Addr Err text)
    as (m0 & -> & Hn & Hl & Hr & _).
  cbn [mbind result_bind]. intros H.
  destruct (switchNet_extra _ _ _ _ _ _ H) as (m & Hm & _ & Hk & Hop).
  exists m. split; [exact Hm|].
  rewrite !Hk by (unfold wrapper_keys; set_solver). auto.
Qed.

Lemma OpError_fields_kept_witness :
  parseError read_EOF
  = Returns (mkParsed "read" "*errors.errorString" "EOF"
               (Some (<["network":="tcp"]> {["remoteAddr" := "10.0.0.1:443"]})))
  /\ exists m : gmap string string,
       Some (<["network":="tcp"]> {["remoteAddr" := "10.0.0.1:443"]}) = Some m
       /\ m !! "network" = Some "tcp"
       /\ m !! "localAddr" = None
       /\ m !! "remoteAddr" = Some "10.0.0.1:443"
       /\ ("read" = "read"
           \/ exists uOp URL e t, EOF = iface (url_Error uOp URL e) t /\ "read" = uOp).
Proof.
  split; [reflexivity|].
  exact (OpError_fields_kept "read" "tcp" None (Some "10.0.0.1:443") EOF
           "read tcp 10.0.0.1:443: EOF"
           (mkParsed "read" "*errors.errorString" "EOF"
              (Some (<["network":="tcp"]> {["remoteAddr" := "10.0.0.1:443"]})))
           eq_refl).
Defined.

(** X2: every key of the extra map is one of eleven names: the three of the
    network wrapper, present only for a [*net.OpError], and the eight of the
    shapes. *)
Theorem Extra_keys_are_known (err : error) (p : parsed) :
  parseError err = Returns p ->
  exists m,
    extra p = Some m
    /\ dom m ⊆ (if is_OpError err then wrapper_keys else ∅) ∪ shape_keys.
Proof.
  destruct (is_OpError err) eqn:Hw.
  - destruct err as [|v text]; [discriminate|]. destruct v; try discriminate Hw.
    rewrite parseError_OpError.
    match goal with
    | |- context [unwrapOpError (iface (net_OpError ?a ?b ?c ?d ?e) ?t) _] =>
        destruct (unwrapOpError_extra a b c d e t) as (m0 & -> & _ & _ & _ & Hd)
    end.
    cbn [mbind result_bind]. intros H.
    destruct (switchNet_extra _ _ _ _ _ _ H) as (m & Hm & Hdom & _).
    exists m. split; [exact Hm|]. set_solver.
  - unfold parseError. cbv zeta.
    change (set_extra make_map zero_parsed) with (mkParsed "" "" "" (Some ∅)).
    destruct (implements_net_Error err) eqn:Hnet.
    + assert (Hu : unwrapOpError err (mkParsed "" "" "" (Some ∅))
                   = Returns (err, mkParsed "" "" "" (Some ∅))).
      { destruct err as [|v text]; [reflexivity|]. destruct v; try reflexivity.
        discriminate Hw. }
      rewrite Hu. cbn [mbind result_bind]. intros H.
      destruct (switchNet_extra _ _ _ _ _ _ H) as (m & Hm & Hdom & _).
      exists m. split; [exact Hm|]. set_solver.
    + destruct (implements_runtime_Error err).
      * intros H. apply switchRuntime_extra in H as [Hm _].
        exists ∅. split; [exact Hm|]. set_solver.
      * intros H.
        destruct (switchStruct_extra _ _ _ _ _ _ H) as (m & Hm & Hdom & _).
        exists m. split; [exact Hm|]. set_solver.
Qed.

Lemma Extra_keys_are_known_witness :
  parseError Get_failed = Returns (mkParsed "Get" "url.Error" "EOF" (Some ∅))
  /\ exists m : gmap string string,
       Some ∅ = Some m /\ dom m ⊆ (∅ ∪ shape_keys : gset string).
Proof.
  split; [reflexivity|].
  exact (Extra_keys_are_known Get_failed
           (mkParsed "Get" "url.Error" "EOF" (Some ∅)) eq_refl).
Defined.

Lemma assoc_In {K} `{EqDecision K} (k : K) m name :
  assoc k m = Some name -> In (k, name) m.
Proof.
  induction m as [|[k' n'] m IH]; cbn; [discriminate|].
  destruct (decide (k' = k)) as [->|]; [intros [= ->]; by left | auto].
Qed.

Lemma miscErrors_complete s : exists name, assoc s miscErrors = Some name.
Proof. destruct s; eexists; reflexivity. Qed.

Lemma httpProtocolErrors_complete s : exists name, assoc s httpProtocolErrors = Some name.
Proof. destruct s; eexists; reflexivity. Qed.

Lemma NoDup_snd_inj {K} (m : list (K * string)) k1 k2 n :
  NoDup (map snd m) ->
  In (k1, n) m -> In (k2, n) m -> k1 = k2.
Proof.
  intros Hn. induction m as [|[k n'] m IH]; cbn; [contradiction|].
  cbn in Hn. apply NoDup_cons in Hn as [Hnotin Hn].
  intros [E1|H1] [E2|H2].
  - congruence.
  - injection E1 as -> ->. exfalso.
    apply Hnotin, list_elem_of_In. exact (in_map snd m (k2, n) H2).
  - injection E2 as -> ->. exfalso.
    apply Hnotin, list_elem_of_In. exact (in_map snd m (k1, n) H1).
  - by apply IH.
Qed.

Lemma sentinel_parse err :
  is_sentinel err = true ->
  exists name d,
    parseError err = Returns (mkParsed "" name d (Some ∅))
    /\ ((exists s, sentinel_key err = Some s /\ In (s, name) miscErrors)
        \/ (exists s, protocol_key err = Some s /\ In (s, name) httpProtocolErrors)).
Proof.
  destruct err as [|v text]; [discriminate|].
  destruct v; try discriminate; destruct p as [s|a]; try discriminate; intros _.
  - destruct (httpProtocolErrors_complete s) as [name Hn].
    exists name, ErrorString. split.
    + unfold parseError, switchStruct, index.
      cbn [implements_net_Error implements_runtime_Error hashable protocol_key
           mbind result_bind option_bind].
      rewrite Hn. reflexivity.
    + right. exists s. split; [reflexivity|]. by apply assoc_In.
  - destruct (miscErrors_complete s) as [name Hn].
    exists name, text. split.
    + unfold parseError, switchStruct, index.
      cbn [implements_net_Error implements_runtime_Error hashable sentinel_key
           Error_ mbind result_bind option_bind].
      rewrite Hn. reflexivity.
    + left. exists s. split; [reflexivity|]. by apply assoc_In.
Qed.

Lemma all_sentinels_NoDup :
  NoDup (map snd all_sentinels ++ ["http.ProtocolError"; "*errors.errorString"]).
Proof. apply (bool_decide_unpack _). vm_compute. exact I. Qed.

Lemma In_all_l s n : In (s, n) miscErrors -> In (inl s, n) all_sentinels.
Proof.
  intros H. apply in_or_app. left.
  exact (in_map (fun kn => (inl (fst kn), snd kn)) miscErrors (s, n) H).
Qed.

Lemma In_all_r s n : In (s, n) httpProtocolErrors -> In (inr s, n) all_sentinels.
Proof.
  intros H. apply in_or_app. right.
  exact (in_map (fun kn => (inr (fst kn), snd kn)) httpProtocolErrors (s, n) H).
Qed.

(** X3: the Kind of a singleton of one of the two tables identifies the
    singleton: two of them with the same Kind are the same value, and the
    Kind is none of the two generic names. *)
Theorem sentinel_Kind_identifies (e1 e2 : error) (p1 p2 : parsed) :
  is_sentinel e1 = true -> is_sentinel e2 = true ->
  parseError e1 = Returns p1 -> parseError e2 = Returns p2 ->
  goType p1 <> "http.ProtocolError" /\ goType p1 <> "*errors.errorString"
  /\ (goType p1 = goType p2 -> same_identity e1 e2).
Proof.
  intros H1 H2 E1 E2.
  destruct (sentinel_parse _ H1) as (n1 & d1 & P1 & I1).
  destruct (sentinel_parse _ H2) as (n2 & d2 & P2 & I2).
  rewrite P1 in E1. rewrite P2 in E2. injection E1 as <-. injection E2 as <-.
  cbn [goType].
  pose proof all_sentinels_NoDup as ND.
  apply NoDup_app in ND as (NDs & Hdisj & _).
  assert (A1 : exists k1, In (k1, n1) all_sentinels
              /\ (forall s, k1 = inl s -> sentinel_key e1 = Some s)
              /\ (forall s, k1 = inr s -> protocol_key e1 = Some s)).
  { destruct I1 as [(s & K & I)|(s & K & I)].
    - exists (inl s). split; [by apply In_all_l|]. split; [congruence|discriminate].
    - exists (inr s). split; [by apply In_all_r|]. split; [discriminate|congruence]. }
  assert (A2 : exists k2, In (k2, n2) all_sentinels
              /\ (forall s, k2 = inl s -> sentinel_key e2 = Some s)
              /\ (forall s, k2 = inr s -> protocol_key e2 = Some s)).
  { destruct I2 as [(s & K & I)|(s & K & I)].
    - exists (inl s). split; [by apply In_all_l|]. split; [congruence|discriminate].
    - exists (inr s). split; [by apply In_all_r|]. split; [discriminate|congruence]. }
  destruct A1 as (k1 & In1 & L1 & R1). destruct A2 as (k2 & In2 & L2 & R2).
  assert (Hn1 : n1 ∈ map snd all_sentinels).
  { apply list_elem_of_In. exact (in_map snd all_sentinels (k1, n1) In1). }
  split; [|split].
  - intros ->. apply (Hdisj _ Hn1). set_solver.
  - intros ->. apply (Hdisj _ Hn1). set_solver.
  - intros <-.
    pose proof (NoDup_snd_inj all_sentinels k1 k2 n1 NDs In1 In2) as <-.
    destruct k1 as [s|s].
    + specialize (L1 s eq_refl). specialize (L2 s eq_refl).
      destruct e1 as [|v1 t1]; [discriminate|]. destruct e2 as [|v2 t2]; [discriminate|].
      destruct v1; try discriminate L1. destruct v2; try discriminate L2.
      destruct p, p0; try discriminate. cbn in *. congruence.
    + specialize (R1 s eq_refl). specialize (R2 s eq_refl).
      destruct e1 as [|v1 t1]; [discriminate|]. destruct e2 as [|v2 t2]; [discriminate|].
      destruct v1; try discriminate R1. destruct v2; try discriminate R2.
      destruct p, p0; try discriminate. cbn in *. congruence.
Qed.

Lemma sentinel_Kind_identifies_witness :
  is_sentinel EOF = true
  /\ is_sentinel EOF = true
  /\ "io.EOF" <> "http.ProtocolError" /\ "io.EOF" <> "*errors.errorString"
  /\ same_identity EOF EOF.
Proof.
  split; [reflexivity|]. split; [reflexivity|].
  destruct (sentinel_Kind_identifies EOF
              EOF
              (mkParsed "" "io.EOF" "EOF" (Some ∅))
              (mkParsed "" "io.EOF" "EOF" (Some ∅))
              eq_refl eq_refl eq_refl eq_refl) as (H1 & H2 & H3).
  split; [exact H1|]. split; [exact H2|]. exact (H3 eq_refl).
Defined.

Lemma case_name_inj v1 v2 :
  struct_case v1 = true -> struct_case v2 = true ->
  case_name v1 = case_name v2 ->
  base_type (typeOf v1) = base_type (typeOf v2).
Proof.
  intros H1 H2.
  destruct v1; try discriminate H1; destruct v2; try discriminate H2;
    try reflexivity; try (cbn; discriminate);
    repeat match goal with b : bool |- _ => destruct b end;
    try reflexivity; cbn; discriminate.
Qed.

Lemma own_name_case_Kind v text p :
  own_name_case v = true ->
  parseError (iface v text) = Returns p ->
  goType p = case_name v.
Proof.
  unfold own_name_case. intros H.
  apply andb_prop in H as [H Hk]. apply andb_prop in H as [Hs Hl].
  apply struct_case_Kind; [exact Hs | |].
  - destruct v; try reflexivity. destruct p0; [discriminate Hk | reflexivity].
  - intros Op Old New Err ->. discriminate Hl.
Qed.

(** X4: apart from [*os.LinkError], the Kind of a struct case tells its
    type: two errors of these cases with the same Kind have the same type,
    up to the pointer. *)
Theorem struct_Kind_identifies_type (v1 v2 : value) (t1 t2 : string)
    (p1 p2 : parsed) :
  own_name_case v1 = true -> own_name_case v2 = true ->
  parseError (iface v1 t1) = Returns p1 ->
  parseError (iface v2 t2) = Returns p2 ->
  goType p1 = goType p2 ->
  base_type (typeOf v1) = base_type (typeOf v2).
Proof.
  intros H1 H2 E1 E2 Hk.
  rewrite (own_name_case_Kind _ _ _ H1 E1), (own_name_case_Kind _ _ _ H2 E2) in Hk.
  unfold own_name_case in H1, H2.
  apply andb_prop in H1 as [H1 _]. apply andb_prop in H1 as [H1 _].
  apply andb_prop in H2 as [H2 _]. apply andb_prop in H2 as [H2 _].
  by apply case_name_inj.
Qed.

Lemma struct_Kind_identifies_type_witness :
  own_name_case (url_EscapeError false) = true
  /\ own_name_case (url_EscapeError true) = true
  /\ parseError (iface (url_EscapeError false) "invalid URL escape %zz")
     = Returns (mkParsed "" "url.EscapeError" "invalid URL escape" (Some ∅))
  /\ parseError (iface (url_EscapeError true) "invalid URL escape %")
     = Returns (mkParsed "" "url.EscapeError" "invalid URL escape" (Some ∅))
  /\ base_type (typeOf (url_EscapeError false))
     = base_type (typeOf (url_EscapeError true)).
Proof.
  do 4 (split; [reflexivity|]).
  exact (struct_Kind_identifies_type (url_EscapeError false) (url_EscapeError true)
           "invalid URL escape %zz" "invalid URL escape %"
           (mkParsed "" "url.EscapeError" "invalid URL escape" (Some ∅))
           (mkParsed "" "url.EscapeError" "invalid URL escape" (Some ∅))
           eq_refl eq_refl eq_refl eq_refl eq_refl).
Defined.

Lemma hex_byte_digits b :
  hex_byte (hex_digit (N.shiftr (Byte.to_N b) 4)) (hex_digit (N.land (Byte.to_N b) 15))
  = Some b.
Proof. destruct b; vm_compute; reflexivity. Qed.

Lemma hex_bytes_Encode l : hex_bytes (hex_EncodeToString l) = Some l.
Proof.
  induction l as [|b l IH]; [reflexivity|].
  cbn [hex_EncodeToString hex_bytes]. rewrite hex_byte_digits. cbn. rewrite IH. reflexivity.
Qed.

Lemma hex_Encode_length l : String.length (hex_EncodeToString l) = 2 * length l.
Proof. induction l as [|b l IH]; cbn [hex_EncodeToString String.length length]; lia. Qed.

(** X5: the header of a TLS record header error is reported in full: the
    one extra field, [header], holds the hexadecimal encoding of the
    record header, which has two digits per byte, decodes to the header,
    and is the encoding of no other header. *)
Theorem RecordHeader_reported_in_full (Msg : string) (RecordHeader : list byte)
    (text : string) :
  parseError (iface (tls_RecordHeaderError Msg RecordHeader) text)
  = Returns (mkParsed "" "tls.RecordHeaderError" Msg
               (Some {["header" := hex_EncodeToString RecordHeader]}))
  /\ String.length (hex_EncodeToString RecordHeader) = 2 * length RecordHeader
  /\ hex_bytes (hex_EncodeToString RecordHeader) = Some RecordHeader
  /\ forall other,
       hex_EncodeToString other = hex_EncodeToString RecordHeader ->
       other = RecordHeader.
Proof.
  split; [reflexivity|]. split; [apply hex_Encode_length|].
  split; [apply hex_bytes_Encode|].
  intros other H.
  pose proof (hex_bytes_Encode other) as H1. rewrite H in H1.
  rewrite hex_bytes_Encode in H1. congruence.
Qed.

Lemma range_app pre post e w :
  range (pre ++ post) e w = (e' ← range pre e; range post e') w.
Proof.
  revert e w. induction pre as [|f pre IH]; intros e w.
  - reflexivity.
  - cbn [app range]. unfold mbind, M_bind in *.
    destruct (decorate f e w) as [w1 [e1|why]]; [apply IH | reflexivity].
Qed.

Lemma decorate_swap f g e w :
  same_kind f g = false ->
  (e1 ← decorate f e; decorate g e1) w = (e1 ← decorate g e; decorate f e1) w.
Proof.
  destruct f, g; try discriminate; intros _; reflexivity.
Qed.

(** X6: two neighbouring decorators made by different constructors can be
    swapped: [Log] hands over the same record and leaves the same state. *)
Theorem decorators_of_different_kinds_commute (c : ErrorCollector) (err : error)
    (pre post : list withFunc) (f g : withFunc) (w : World) :
  same_kind f g = false ->
  Log c err (pre ++ f :: g :: post) w = Log c err (pre ++ g :: f :: post) w.
Proof.
  intros Hk. unfold Log, mbind, M_bind, lift.
  destruct (parseError err) as [p|why]; [|reflexivity].
  rewrite !range_app. unfold mbind, M_bind.
  destruct (range pre (actual_of c p) w) as [w1 [e1|why]]; [|reflexivity].
  cbn [range]. pose proof (decorate_swap f g e1 w1 Hk) as Hs.
  unfold mbind, M_bind in *.
  destruct (decorate f e1 w1) as [wf [ef|whyf]] eqn:Ef;
    destruct (decorate g e1 w1) as [wg [eg|whyg]] eqn:Eg.
  - destruct (decorate g ef wf) as [w2 [e2|why2]];
      destruct (decorate f eg wg) as [w2' [e2'|why2']];
      try discriminate Hs; injection Hs as -> ->; reflexivity.
  - exfalso. destruct (decorate_spec g e1 w1) as (? & ? & E & _). congruence.
  - exfalso. destruct (decorate_spec f e1 w1) as (? & ? & E & _). congruence.
  - exfalso. destruct (decorate_spec f e1 w1) as (? & ? & E & _). congruence.
Qed.

Lemma decorators_of_different_kinds_commute_witness :
  same_kind WithLocale (WithOp OpDial) = false
  /\ Log flashlight EOF ([WithProxy (Some 7)] ++ WithLocale :: WithOp OpDial :: [])
       (booted some_json)
     = Log flashlight EOF ([WithProxy (Some 7)] ++ WithOp OpDial :: WithLocale :: [])
         (booted some_json).
Proof.
  split; [reflexivity|].
  exact (decorators_of_different_kinds_commute flashlight EOF [WithProxy (Some 7)] []
           WithLocale (WithOp OpDial) (booted some_json) eq_refl).
Defined.

Lemma Report_stdout r e w :
  stdout (fst (Report r e w))
  = stdout w ++ match r with
                | StdReporter =>
                    match json_Marshal (outside w) (heap w) e with
                    | inl b => [b]
                    | inr _ => []
                    end
                | _ => []
                end.
Proof.
  destruct r as [| |id faulty].
  - cbn. by rewrite app_nil_r.
  - run_M. cbn. destruct (json_Marshal (outside w) (heap w) e); cbn;
      [reflexivity | by rewrite app_nil_r].
  - destruct faulty; cbn; by rewrite app_nil_r.
Qed.

(** X7: what [Log] writes to standard output: the text [json.Marshal] gives
    for the decorated record, once, when the reporter is the default one and
    classification and serialization succeed; nothing otherwise. *)
Theorem Log_stdout (c : ErrorCollector) (err : error) (with_ : list withFunc)
    (w : World) :
  stdout (fst (Log c err with_ w))
  = stdout w
    ++ match parseError err, currentReporter w with
       | Returns p, StdReporter =>
           match json_Marshal (outside w)
                   (heap (fst (range with_ (actual_of c p) w)))
                   (decorated with_ (actual_of c p) w) with
           | inl b => [b]
           | inr _ => []
           end
       | _, _ => []
       end.
Proof.
  pose proof (Log_spec c err with_ w) as HL.
  destruct (parseError err) as [p|why].
  - rewrite HL, Report_stdout.
    destruct (range_spec with_ (actual_of c p) w) as (w1 & e1 & E & F & _).
    rewrite E. cbn [fst]. destruct F as (-> & _ & -> & _).
    destruct (currentReporter w); reflexivity.
  - rewrite HL. cbn. by rewrite app_nil_r.
Qed.

(** X8: [Log] leaves alone the reporter, the outside, the system information
    blocks and the blocks of the callers; it keeps the locale blocks and the
    records that were there, hands over at most one record, and does nothing
    at all when classification panics. *)
Theorem Log_frame (c : ErrorCollector) (err : error) (with_ : list withFunc)
    (w : World) :
  let w' := fst (Log c err with_ w) in
  outside w' = outside w
  /\ currentReporter w' = currentReporter w
  /\ systemInfos (heap w') = systemInfos (heap w)
  /\ proxyingInfos (heap w') = proxyingInfos (heap w)
  /\ userAgentInfos (heap w') = userAgentInfos (heap w)
  /\ (forall a l, userLocales (heap w) !! a = Some l ->
                  userLocales (heap w') !! a = Some l)
  /\ (exists new, reports w' = reports w ++ new /\ length new <= 1)
  /\ (panicked (parseError err) -> w' = w).
Proof.
  destruct (Log_effect c err with_ w) as (Ho & Hc & Hs & Hp & Hu & Hl & Hr).
  cbv zeta. repeat split; try assumption.
  - intros a l Hal. eapply prefix_lookup_Some; eassumption.
  - eexists. split; [exact Hr|]. unfold Log_hands.
    destruct (parseError err); [|cbn; lia].
    destruct (decide _); cbn; lia.
  - intros Hpanic. pose proof (Log_spec c err with_ w) as HL.
    destruct (parseError err); [contradiction|]. by rewrite HL.
Qed.

Lemma Log_nil_Reporter c err with_ w :
  currentReporter w = nil_Reporter ->
  reports (fst (Log c err with_ w)) = reports w
  /\ stdout (fst (Log c err with_ w)) = stdout w
  /\ currentReporter (fst (Log c err with_ w)) = nil_Reporter
  /\ (classifiable err = true -> snd (Log c err with_ w) = Panics nil_dereference).
Proof.
  intros Hn.
  destruct (Log_effect c err with_ w) as (_ & Hc & _ & _ & _ & _ & Hr).
  pose proof (Log_spec c err with_ w) as HL.
  split; [|split; [|split]].
  - rewrite Hr. unfold Log_hands. destruct (parseError err); [|by rewrite app_nil_r].
    rewrite Hn. cbn. by rewrite app_nil_r.
  - destruct (parseError err) as [p|why]; rewrite HL; [|reflexivity].
    rewrite Report_stdout, Hn.
    destruct (range_spec with_ (actual_of c p) w) as (w1 & e1 & E & F & _).
    rewrite E. cbn [fst]. destruct F as (_ & _ & -> & _). by rewrite app_nil_r.
  - congruence.
  - intros Hcl. apply parseError_classifiable in Hcl as [p Hp].
    rewrite Hp in HL. rewrite HL, Hn. reflexivity.
Qed.

(** X9: after [ReportTo(nil)], until a reporter is installed again, nothing
    is handed over or printed, and every call of [Log] whose error is
    classified panics on the nil reporter. *)
Theorem nil_Reporter_stops_reporting (before later : list call) (w : World) :
  forallb (fun k => negb (is_ReportTo k)) later = true ->
  let w1 := run (before ++ [call_ReportTo nil_Reporter]) w in
  let w2 := run later w1 in
  reports w2 = reports w1
  /\ stdout w2 = stdout w1
  /\ forall c err with_,
       classifiable err = true ->
       snd (Log c err with_ w2) = Panics nil_dereference.
Proof.
  intros Hno w1 w2.
  assert (H1 : currentReporter w1 = nil_Reporter).
  { unfold w1. rewrite run_app. reflexivity. }
  assert (H : reports w2 = reports w1 /\ stdout w2 = stdout w1
              /\ currentReporter w2 = nil_Reporter).
  { subst w2. clearbody w1. revert w1 H1.
    induction later as [|k later IH]; intros w1 H1; [cbn; auto|].
    cbn [forallb] in Hno. apply andb_prop in Hno as [Hk Hno].
    rewrite run_cons.
    assert (Hs : reports (step w1 k) = reports w1 /\ stdout (step w1 k) = stdout w1
                 /\ currentReporter (step w1 k) = nil_Reporter).
    { destruct k as [pkg|r|c err with_]; [cbn; auto | discriminate Hk |].
      destruct (Log_nil_Reporter c err with_ w1 H1) as (? & ? & ? & _). by cbn. }
    destruct Hs as (Sr & So & Sc).
    destruct (IH Hno (step w1 k) Sc) as (Ir & Io & Ic).
    rewrite Ir, Io, Sr, So. by rewrite Ic. }
  destruct H as (Hr & Ho & Hc). split; [exact Hr|]. split; [exact Ho|].
  intros c err with_ Hcl. by apply Log_nil_Reporter.
Qed.

Lemma nil_Reporter_stops_reporting_witness :
  forallb (fun k => negb (is_ReportTo k))
    [call_Log flashlight EOF [WithLocale]; call_NewErrorCollector "client"] = true
  /\ reports (run [call_Log flashlight EOF [WithLocale]; call_NewErrorCollector "client"]
                (run ([call_Log flashlight EOF []] ++ [call_ReportTo nil_Reporter])
                   (booted some_json)))
     = reports (run ([call_Log flashlight EOF []] ++ [call_ReportTo nil_Reporter])
                  (booted some_json))
  /\ classifiable read_EOF = true
  /\ snd (Log flashlight read_EOF []
            (run [call_Log flashlight EOF [WithLocale]; call_NewErrorCollector "client"]
               (run ([call_Log flashlight EOF []] ++ [call_ReportTo nil_Reporter])
                  (booted some_json))))
     = Panics nil_dereference.
Proof.
  split; [reflexivity|].
  destruct (nil_Reporter_stops_reporting [call_Log flashlight EOF []]
              [call_Log flashlight EOF [WithLocale]; call_NewErrorCollector "client"]
              (booted some_json) eq_refl) as (Hr & _ & Hp).
  split; [exact Hr|]. split; [reflexivity|].
  exact (Hp flashlight read_EOF [] eq_refl).
Defined.

(** X10: every collector has a system information block of its own, filled
    when the collector is made; making a second collector, and whatever runs
    in between, leaves the block of the first as it was. *)
Theorem collectors_own_their_snapshot (goPackage1 goPackage2 : string)
    (between : list call) (w : World) :
  let w1 := fst (NewErrorCollector goPackage1 w) in
  let w2 := run between w1 in
  let w3 := fst (NewErrorCollector goPackage2 w2) in
  exists c1 c2,
    snd (NewErrorCollector goPackage1 w) = Returns c1
    /\ snd (NewErrorCollector goPackage2 w2) = Returns c2
    /\ goPackage c1 = goPackage1 /\ goPackage c2 = goPackage2
    /\ ErrorCollector_systemInfo c1 <> ErrorCollector_systemInfo c2
    /\ systemInfo_at (heap w3) (ErrorCollector_systemInfo c1) = Some (snapshot (outside w))
    /\ systemInfo_at (heap w3) (ErrorCollector_systemInfo c2) = Some (snapshot (outside w)).
Proof.
  intros w1 w2 w3.
  destruct (NewErrorCollector_spec goPackage1 w) as [E1 S1].
  destruct (NewErrorCollector_spec goPackage2 w2) as [E2 S2].
  fold w1 in E1, S1. fold w3 in E2, S2.
  destruct (run_effect between w1) as (Ob & Sb & _). fold w2 in Ob, Sb.
  assert (O1 : outside w1 = outside w) by reflexivity.
  assert (L1 : systemInfos (heap w2) !! length (systemInfos (heap w))
               = Some (snapshot (outside w))).
  { eapply prefix_lookup_Some; [|exact Sb]. rewrite S1.
    rewrite lookup_app_r by lia. by rewrite Nat.sub_diag. }
  do 2 eexists. rewrite E1, E2. cbn [snd].
  do 4 (split; [reflexivity|]). cbn [ErrorCollector_systemInfo systemInfo_at].
  split; [|split].
  - apply lookup_lt_Some in L1. intros [= H]. lia.
  - cbn. rewrite S2. by apply lookup_app_l_Some.
  - cbn. rewrite S2. rewrite lookup_app_r by lia. rewrite Nat.sub_diag.
    cbn. by rewrite Ob, O1.
Qed.

(** * Properties of the poller *)

Example canonical_keys :
  map textproto.CanonicalMIMEHeaderKey
    ["X-Lantern-Etag"; "X-Lantern-If-None-Match"; "Lantern-Fronted-URL";
     "accept"; "Cache-Control"; "not a token"]
  = ["X-Lantern-Etag"; "X-Lantern-If-None-Match"; "Lantern-Fronted-Url";
     "Accept"; "Cache-Control"; "not a token"].
Proof. reflexivity. Qed.

Import config.

Lemma wrap64_small z : (- 2 ^ 63 <= z < 2 ^ 63)%Z -> wrap64 z = z.
Proof. intros H. unfold wrap64. rewrite Z.mod_small; lia. Qed.

(** X11: the time to wait before the next poll lies between half the poll
    interval and one and a half times the interval, for an interval that is
    positive and at most 2^62 nanoseconds (so that the sum does not wrap
    around). *)
Theorem cloudPollSleepTime_bounds (web : Web) :
  (0 < CloudConfigPollInterval web <= 2 ^ 62)%Z ->
  (0 <= rand_Int63n web (CloudConfigPollInterval web) < CloudConfigPollInterval web)%Z ->
  exists t,
    cloudPollSleepTime web = Returns t
    /\ (Z.quot (CloudConfigPollInterval web) 2 <= t
        < Z.quot (CloudConfigPollInterval web) 2 + CloudConfigPollInterval web)%Z.
Proof.
  intros Hi Hr. unfold cloudPollSleepTime.
  destruct (Z.leb_spec (CloudConfigPollInterval web) 0) as [|_]; [lia|].
  eexists. split; [reflexivity|].
  assert (0 <= Z.quot (CloudConfigPollInterval web) 2 <= CloudConfigPollInterval web)%Z.
  { rewrite Z.quot_div_nonneg by lia. split; [apply Z.div_pos; lia|].
    apply Z.div_le_upper_bound; lia. }
  rewrite wrap64_small; lia.
Qed.

Lemma cloudPollSleepTime_panics web :
  (CloudConfigPollInterval web <= 0)%Z ->
  cloudPollSleepTime web = Panics "invalid argument to Int63n".
Proof.
  intros H. unfold cloudPollSleepTime.
  destruct (Z.leb_spec (CloudConfigPollInterval web) 0); [reflexivity | lia].
Qed.

Lemma non_nil_false e : non_nil e = false -> e = nil_error.
Proof. destruct e; [reflexivity | discriminate]. Qed.

Lemma fetchCloudConfig_inv {State} web (elog : errlog.ErrorLogger State) cf cfg w w' f :
  fetchCloudConfig web elog cf cfg w = (w', Returns f) ->
  fetch_outcome web elog cf cfg w w' f.
Proof.
  unfold fetchCloudConfig. cbv zeta.
  destruct (non_nil (http_NewRequest web "GET" _)) eqn:Hreq.
  { intros [= <- <-]. apply no_request; eauto. }
  destruct (Do web (cloudConfigRequest web cf cfg)) as [resp derr] eqn:HDo.
  destruct (non_nil derr) eqn:Hderr.
  { intros [= <- <-]. eapply no_response; eauto. }
  apply non_nil_false in Hderr as ->.
  destruct resp as [r|]; [|discriminate].
  destruct (httputil_DumpResponse web r) as [dump dumperr] eqn:Hd.
  unfold mbind at 1. unfold errlog.Proc_bind at 1.
  assert (Hl : dump_logged web elog r w
               = (if non_nil dumperr
                  then errlog.Log elog dumperr [errlog.WithOp "dump-response"]
                  else mret tt) w).
  { unfold dump_logged. rewrite Hd. reflexivity. }
  rewrite <- Hl.
  destruct (dump_logged web elog r w) as [w1 [[]|why]] eqn:Hlog; [|discriminate].
  destruct (Z.eqb_spec (http.StatusCode r) 304) as [H304|H304].
  { intros [= <- <-]. eapply not_modified; eauto. }
  destruct (Z.eqb_spec (http.StatusCode r) 200) as [H200|H200]; cbn [negb].
  2:{ destruct (non_nil dumperr); intros [= <- <-]; eapply bad_status; eauto. }
  unfold mbind, errlog.Proc_bind, errlog.lift, map_set.
  destruct (lastCloudConfigETag cf) as [g|] eqn:Hg; [|discriminate].
  destruct (non_nil (gzip_NewReader web (http.Body r))) eqn:Hgz.
  { intros [= <- <-]. eapply bad_body; eauto. }
  destruct (ioutil_ReadAll web (http.Body r)) as [b rerr] eqn:Hr.
  intros [= <- <-]. eapply body_read; eauto.
Qed.

(** X12: the ETag table changes only after a response with status 200, and
    then only at the key of the configuration URL, where the ETag header of
    the response is stored, also when the body then fails to decompress;
    every other way of returning leaves the table as it was. *)
Theorem ETag_recorded_only_on_200 {State : Type} (web : Web) (elog : errlog.ErrorLogger State)
    (cf : fetcher) (cfg : Config) (w w' : State) (f : fetched) :
  fetchCloudConfig web elog cf cfg w = (w', Returns f) ->
  user (cf_after f) = user cf
  /\ match sent f with
     | None => lastCloudConfigETag (cf_after f) = lastCloudConfigETag cf
     | Some req =>
         match Do web req with
         | (Some r, nil_error) =>
             if (http.StatusCode r =? 200)%Z
             then exists g,
                    lastCloudConfigETag cf = Some g
                    /\ lastCloudConfigETag (cf_after f)
                       = Some (<[CloudConfig cfg :=
                                  http.Get etag (http.Response_Header r)]> g)
             else lastCloudConfigETag (cf_after f) = lastCloudConfigETag cf
         | _ => lastCloudConfigETag (cf_after f) = lastCloudConfigETag cf
         end
     end.
Proof.
  intros H. apply fetchCloudConfig_inv in H.
  destruct H as [? ? S C|resp derr HD Hn ? S C|r HD ? H3 S C|r HD ? H3 H2 S C
                 |r g HD ? H2 Hg ? S C|r g HD ? H2 Hg ? S C];
    rewrite S, C; try rewrite HD.
  - split; reflexivity.
  - split; [reflexivity|]. destruct resp; [|reflexivity].
    destruct derr; [discriminate Hn | reflexivity].
  - split; [reflexivity|]. rewrite H3. reflexivity.
  - split; [reflexivity|]. destruct (Z.eqb_spec (http.StatusCode r) 200); [contradiction|].
    reflexivity.
  - split; [reflexivity|]. rewrite H2. cbn. eauto.
  - split; [reflexivity|]. rewrite H2. cbn. eauto.
Qed.

Lemma ETag_recorded_only_on_200_witness :
  fetchCloudConfig broken_body recorder (NewFetcher anonymous) cloud []
  = ([], Returns fetched_broken_body)
  /\ exists g,
       lastCloudConfigETag (NewFetcher anonymous) = Some g
       /\ lastCloudConfigETag (cf_after fetched_broken_body)
          = Some (<[chainedCloudConfigURL := "v7"]> g).
Proof.
  split; [reflexivity|].
  exact (proj2 (ETag_recorded_only_on_200 broken_body recorder (NewFetcher anonymous)
                  cloud [] [] fetched_broken_body
                  eq_refl)).
Defined.

Lemma fetch_sent {State} web (elog : errlog.ErrorLogger State) cf cfg w w' f req :
  fetchCloudConfig web elog cf cfg w = (w', Returns f) ->
  sent f = Some req -> req = cloudConfigRequest web cf cfg.
Proof.
  intros H S. apply fetchCloudConfig_inv in H.
  destruct H as [? ? S'|? ? ? ? ? S'|? ? ? ? S'|? ? ? ? ? S'|? ? ? ? ? ? ? S'|? ? ? ? ? ? ? S'];
    congruence.
Qed.

Lemma eqb_empty s : String.eqb s "" = true -> s = "".
Proof. apply String.eqb_eq. Qed.

Lemma cloudConfigRequest_headers web cf cfg :
  let req := cloudConfigRequest web cf cfg in
  let h := http.Request_Header req in
  http.Method req = "GET"
  /\ http.URL req = CloudConfig cfg +:+ "?" +:+ uuid_New web
  /\ http.Close req = true
  /\ http.Get "Lantern-Fronted-URL" h = FrontedCloudConfig cfg +:+ "?" +:+ uuid_New web
  /\ http.Get "Accept" h = "application/x-gzip"
  /\ http.Get "Cache-Control" h = "no-cache"
  /\ http.Get ifNoneMatch h = map_get (lastCloudConfigETag cf) (CloudConfig cfg)
  /\ http.Get userIDHeader h = GetUserID (user cf)
  /\ http.Get tokenHeader h = GetToken (user cf).
Proof.
  cbv zeta. unfold cloudConfigRequest. cbv zeta.
  destruct (String.eqb (map_get _ _) "") eqn:E1;
    destruct (String.eqb (GetUserID (user cf)) "") eqn:E2;
    destruct (String.eqb (GetToken (user cf)) "") eqn:E3;
    try apply eqb_empty in E1; try apply eqb_empty in E2; try apply eqb_empty in E3;
    try rewrite E1; try rewrite E2; try rewrite E3;
    repeat split; reflexivity.
Qed.

(** X13: the request handed to the HTTP fetcher. It is a GET that closes the
    connection; its URL and the fronted URL carry the same cache buster;
    none of the headers overwrites another; the ETag, user id and token
    headers hold the stored ETag, the user id and the token, and are absent
    (read as the empty string) when those are empty. *)
Theorem request_of_fetchCloudConfig {State : Type} (web : Web) (elog : errlog.ErrorLogger State)
    (cf : fetcher) (cfg : Config) (w w' : State) (f : fetched) (req : http.Request) :
  fetchCloudConfig web elog cf cfg w = (w', Returns f) ->
  sent f = Some req ->
  let h := http.Request_Header req in
  http.Method req = "GET"
  /\ http.URL req = CloudConfig cfg +:+ "?" +:+ uuid_New web
  /\ http.Close req = true
  /\ http.Get "Lantern-Fronted-URL" h = FrontedCloudConfig cfg +:+ "?" +:+ uuid_New web
  /\ http.Get "Accept" h = "application/x-gzip"
  /\ http.Get "Cache-Control" h = "no-cache"
  /\ http.Get ifNoneMatch h = map_get (lastCloudConfigETag cf) (CloudConfig cfg)
  /\ http.Get userIDHeader h = GetUserID (user cf)
  /\ http.Get tokenHeader h = GetToken (user cf).
Proof.
  intros H S. rewrite (fetch_sent _ _ _ _ _ _ _ _ H S).
  apply cloudConfigRequest_headers.
Qed.

Lemma request_of_fetchCloudConfig_witness :
  fetchCloudConfig broken_body recorder (NewFetcher anonymous) cloud []
  = ([], Returns fetched_broken_body)
  /\ http.URL (cloudConfigRequest broken_body (NewFetcher anonymous) cloud)
     = "http://config.getiantem.org/cloud.yaml.gz?6ba7b810-9dad-11d1-80b4-00c04fd430c8"
  /\ http.Get "Lantern-Fronted-URL"
       (http.Request_Header (cloudConfigRequest broken_body (NewFetcher anonymous) cloud))
     = "http://d2wi0vwulmtn99.cloudfront.net/cloud.yaml.gz?6ba7b810-9dad-11d1-80b4-00c04fd430c8"
  /\ http.Get ifNoneMatch
       (http.Request_Header (cloudConfigRequest broken_body (NewFetcher anonymous) cloud))
     = "".
Proof.
  split; [reflexivity|].
  destruct (request_of_fetchCloudConfig broken_body recorder (NewFetcher anonymous)
              cloud [] [] fetched_broken_body
              (cloudConfigRequest broken_body (NewFetcher anonymous) cloud)
              eq_refl eq_refl) as (_ & Hu & _ & Hf & _ & _ & He & _).
  split; [exact Hu|]. split; [exact Hf | exact He].
Defined.

(** X14: the ETag of a response with status 200 comes back in the next
    request for the same URL: its [X-Lantern-If-None-Match] header reads as
    the ETag header of that response. *)
Theorem ETag_sent_back {State : Type} (web1 web2 : Web) (elog1 elog2 : errlog.ErrorLogger State)
    (cf : fetcher) (cfg : Config) (w w1 w2 w3 : State) (f1 f2 : fetched)
    (r : http.Response) (req1 req2 : http.Request) :
  fetchCloudConfig web1 elog1 cf cfg w = (w1, Returns f1) ->
  sent f1 = Some req1 ->
  Do web1 req1 = (Some r, nil_error) ->
  http.StatusCode r = 200%Z ->
  fetchCloudConfig web2 elog2 (cf_after f1) cfg w2 = (w3, Returns f2) ->
  sent f2 = Some req2 ->
  http.Get ifNoneMatch (http.Request_Header req2)
  = http.Get etag (http.Response_Header r).
Proof.
  intros H1 S1 HD H200 H2 S2.
  rewrite (fetch_sent _ _ _ _ _ _ _ _ H2 S2).
  rewrite (fetch_sent _ _ _ _ _ _ _ _ H1 S1) in HD.
  destruct (cloudConfigRequest_headers web2 (cf_after f1) cfg)
    as (_ & _ & _ & _ & _ & _ & -> & _).
  apply fetchCloudConfig_inv in H1.
  destruct H1 as [? ? S C|resp derr HD' Hn ? S C|r' HD' ? H3 S C|r' HD' ? H3 H2' S C
                  |r' g HD' ? H2' Hg ? S C|r' g HD' ? H2' Hg ? S C].
  - congruence.
  - rewrite HD in HD'. injection HD' as <- <-. discriminate Hn.
  - rewrite HD in HD'. injection HD' as <-. lia.
  - rewrite HD in HD'. injection HD' as <-. lia.
  - rewrite HD in HD'. injection HD' as <-. rewrite C. cbn. by rewrite lookup_insert_eq.
  - rewrite HD in HD'. injection HD' as <-. rewrite C. cbn. by rewrite lookup_insert_eq.
Qed.

Lemma ETag_sent_back_witness :
  fetchCloudConfig (web_answering (Some (ok_response "v7" "..."), nil_error) nil_error)
    recorder (NewFetcher anonymous) cloud []
  = ([], Returns first_fetch)
  /\ http.Get ifNoneMatch
       (http.Request_Header (cloudConfigRequest broken_body (cf_after first_fetch) cloud))
     = "v7".
Proof.
  split; [reflexivity|].
  exact (ETag_sent_back
           (web_answering (Some (ok_response "v7" "..."), nil_error) nil_error)
           broken_body recorder recorder (NewFetcher anonymous) cloud
           [] [] [] []
           first_fetch
           {| cf_after := set_ETag (cf_after first_fetch)
                            (Some (<[chainedCloudConfigURL := "v7"]>
                                     {[chainedCloudConfigURL := "v7"]}));
              bytes := None;
              err := fmt_Errorf "Unable to open gzip reader: unexpected EOF";
              sent := Some (cloudConfigRequest broken_body (cf_after first_fetch) cloud) |}
           (ok_response "v7" "...") _ _ eq_refl eq_refl eq_refl eq_refl eq_refl eq_refl).
Defined.

(** X15: when the request is built and the HTTP fetcher fails, whatever
    its error, the poll logs once: it calls [Log] of its logger with a new
    error whose text names the configuration URL and the error of the
    fetcher, and with the operation [fetch-cloud-config]; it ends as that
    call ends, and when the call returns it returns that error with the
    function that does nothing, the sleep time and the fetcher as it
    was. *)
Theorem fetch_failure_reported {State : Type} (web : Web) (elog : errlog.ErrorLogger State)
    (cf : fetcher) (cfg : Config) (w : State) (t : Z) (resp : option http.Response)
    (e : error) :
  cloudPollSleepTime web = Returns t ->
  CloudConfig cfg <> "" ->
  http_NewRequest web "GET" (CloudConfig cfg +:+ "?" +:+ uuid_New web) = nil_error ->
  Do web (cloudConfigRequest web cf cfg) = (resp, e) ->
  non_nil e = true ->
  let msg := "Unable to fetch cloud config at " +:+ CloudConfig cfg +:+ ": " +:+ fmt_s e in
  pollForConfig web elog cf (a_Config cfg) false w
  = (errlog.Log elog (fmt_Errorf msg) [errlog.WithOp "fetch-cloud-config"];;
     mret {| poll_cf := cf; mutate := do_nothing; waitTime := t;
             poll_err := fmt_Errorf msg;
             poll_sent := Some (cloudConfigRequest web cf cfg) |}) w.
Proof.
  intros Ht Hurl Hreq HD He msg.
  unfold pollForConfig. rewrite Ht. unfold errlog.lift.
  unfold mbind at 1. unfold errlog.Proc_bind at 1.
  apply String.eqb_neq in Hurl. rewrite Hurl.
  unfold mbind at 1. unfold errlog.Proc_bind at 1.
  unfold fetchCloudConfig. cbv zeta. rewrite Hreq. cbn [non_nil].
  rewrite HD, He. cbn [mret errlog.Proc_ret err non_nil fmt_Errorf cf_after sent].
  reflexivity.
Qed.

Lemma fetch_failure_reported_witness :
  cloudPollSleepTime (web_answering (None, refused) nil_error)
  = Returns 42345678901%Z
  /\ fst (pollForConfig (web_answering (None, refused) nil_error) recorder
            (NewFetcher anonymous) (a_Config cloud) false [])
     = [ (fmt_Errorf "Unable to fetch cloud config at http://config.getiantem.org/cloud.yaml.gz: dial tcp 10.0.0.1:80: connect: connection refused",
          [errlog.WithOp "fetch-cloud-config"]) ].
Proof.
  split; [reflexivity|].
  rewrite (fetch_failure_reported (web_answering (None, refused) nil_error) recorder
             (NewFetcher anonymous) cloud [] 42345678901%Z None refused
             eq_refl); [reflexivity | discriminate | reflexivity | reflexivity | reflexivity].
Defined.

(** X16: the function a poll returns merges bytes only when the poll was not
    sticky, the fetcher answered 200 without error, the body could be
    decompressed and was read without error; the bytes are those that were
    read, and the poll returns no error. *)
Theorem merge_only_a_fresh_config {State : Type} (web : Web) (elog : errlog.ErrorLogger State) (cf : fetcher)
    (cfg : Config) (stickyConfig : bool) (w w' : State) (p : polled) (b : string) :
  pollForConfig web elog cf (a_Config cfg) stickyConfig w = (w', Returns p) ->
  mutate p = merge b ->
  stickyConfig = false /\ CloudConfig cfg <> ""
  /\ poll_err p = nil_error
  /\ exists r,
       Do web (cloudConfigRequest web cf cfg) = (Some r, nil_error)
       /\ http.StatusCode r = 200%Z
       /\ gzip_NewReader web (http.Body r) = nil_error
       /\ ioutil_ReadAll web (http.Body r) = (Some b, nil_error).
Proof.
  unfold pollForConfig. unfold mbind at 1. unfold errlog.Proc_bind at 1. unfold errlog.lift.
  destruct (cloudPollSleepTime web) as [t|why]; [|discriminate].
  destruct (String.eqb (CloudConfig cfg) "") eqn:Hurl; [intros [= <- <-]; discriminate|].
  destruct stickyConfig; [intros [= <- <-]; discriminate|].
  unfold mbind at 1. unfold errlog.Proc_bind at 1.
  destruct (fetchCloudConfig web elog cf cfg w) as [w1 [f|why]] eqn:Hf; [|discriminate].
  apply fetchCloudConfig_inv in Hf.
  apply String.eqb_neq in Hurl.
  destruct (non_nil (err f)) eqn:He.
  { unfold mbind, errlog.Proc_bind.
    destruct (errlog.Log elog (err f) _ w1) as [w2 [[]|why]]; [|discriminate].
    intros [= <- <-]. discriminate. }
  apply non_nil_false in He.
  destruct (bytes f) as [b'|] eqn:Hb; intros [= <- <-]; [|discriminate].
  intros [= ->]. do 3 (split; [done|]).
  destruct Hf as [? ? S C B|resp derr HD Hn ? S C B|r HD ? H3 S C B|r HD ? H3 H2 S C B
                  |r g HD ? H2 Hg Hgz S C B|r g HD ? H2 Hg Hgz S C B];
    try congruence.
  exists r. apply non_nil_false in Hgz. rewrite Hb, He in B. auto.
Qed.

Lemma merge_only_a_fresh_config_witness :
  pollForConfig fresh_config recorder (NewFetcher anonymous) (a_Config cloud) false
    []
  = ([],
     Returns {| poll_cf := cf_after first_fetch; mutate := merge "...";
                waitTime := 42345678901; poll_err := nil_error;
                poll_sent := sent first_fetch |})
  /\ false = false /\ CloudConfig cloud <> ""
  /\ nil_error = nil_error
  /\ exists r,
       Do fresh_config (cloudConfigRequest fresh_config (NewFetcher anonymous) cloud)
       = (Some r, nil_error)
       /\ http.StatusCode r = 200%Z
       /\ gzip_NewReader fresh_config (http.Body r) = nil_error
       /\ ioutil_ReadAll fresh_config (http.Body r) = (Some "...", nil_error).
Proof.
  split; [reflexivity|].
  exact (merge_only_a_fresh_config fresh_config recorder (NewFetcher anonymous) cloud
           false [] []
           {| poll_cf := cf_after first_fetch; mutate := merge "...";
              waitTime := 42345678901; poll_err := nil_error;
              poll_sent := sent first_fetch |} "..." eq_refl eq_refl).
Defined.

(** X17: a poll changes nothing when the configuration names no cloud URL,
    when the sticky flag is set, or when the fetcher answers 304 and the
    response could be dumped: it returns the function that does nothing and
    no error, the ETag table and the process stay as they were, and in the
    first two cases no request is made. *)
Theorem poll_without_change {State : Type} (web : Web) (elog : errlog.ErrorLogger State) (cf : fetcher)
    (cfg : Config) (stickyConfig : bool) (w : State) (t : Z) :
  cloudPollSleepTime web = Returns t ->
  (CloudConfig cfg = "" \/ stickyConfig = true
   \/ (http_NewRequest web "GET" (CloudConfig cfg +:+ "?" +:+ uuid_New web) = nil_error
       /\ exists r, Do web (cloudConfigRequest web cf cfg) = (Some r, nil_error)
            /\ http.StatusCode r = 304%Z
            /\ snd (httputil_DumpResponse web r) = nil_error)) ->
  pollForConfig web elog cf (a_Config cfg) stickyConfig w
  = (w, Returns {| poll_cf := cf; mutate := do_nothing; waitTime := t;
                   poll_err := nil_error;
                   poll_sent := if (String.eqb (CloudConfig cfg) "" || stickyConfig)%bool
                                then None
                                else Some (cloudConfigRequest web cf cfg) |}).
Proof.
  intros Ht H. unfold pollForConfig. rewrite Ht.
  unfold errlog.lift. unfold mbind at 1. unfold errlog.Proc_bind at 1.
  destruct (String.eqb (CloudConfig cfg) "") eqn:Hurl; [reflexivity|].
  destruct stickyConfig; [reflexivity|]. cbn [orb].
  destruct H as [H|[H|(Hreq & r & HD & H304 & Hdump)]]; [|discriminate|].
  { apply String.eqb_neq in Hurl. contradiction. }
  unfold mbind at 1. unfold errlog.Proc_bind at 1.
  unfold fetchCloudConfig. cbv zeta. rewrite Hreq. cbn [non_nil]. rewrite HD.
  cbn [non_nil]. destruct (httputil_DumpResponse web r) as [dump dumperr].
  cbn [snd] in Hdump. subst dumperr. cbn [non_nil].
  unfold mbind at 1. unfold errlog.Proc_bind at 1. cbn [mret errlog.Proc_ret].
  rewrite H304. reflexivity.
Qed.

Lemma poll_without_change_witness :
  cloudPollSleepTime fresh_config = Returns 42345678901%Z
  /\ pollForConfig fresh_config recorder (NewFetcher anonymous) (a_Config cloud) true
       []
     = ([],
        Returns {| poll_cf := NewFetcher anonymous; mutate := do_nothing;
                   waitTime := 42345678901; poll_err := nil_error; poll_sent := None |}).
Proof.
  split; [reflexivity|].
  exact (poll_without_change fresh_config recorder (NewFetcher anonymous) cloud true
           [] 42345678901%Z eq_refl (or_intror (or_introl eq_refl))).
Defined.

Lemma cloudPollSleepTime_bounds_witness :
  (0 < CloudConfigPollInterval fresh_config <= 2 ^ 62)%Z
  /\ exists t,
       cloudPollSleepTime fresh_config = Returns t
       /\ (30000000000 <= t < 90000000000)%Z.
Proof.
  assert (Hi : (0 < CloudConfigPollInterval fresh_config <= 2 ^ 62)%Z)
    by (vm_compute; split; [reflexivity | discriminate]).
  split; [exact Hi|].
  assert (Hr : (0 <= rand_Int63n fresh_config (CloudConfigPollInterval fresh_config)
                < CloudConfigPollInterval fresh_config)%Z)
    by (vm_compute; split; [discriminate | reflexivity]).
  destruct (cloudPollSleepTime_bounds fresh_config Hi Hr) as (t & E & B).
  exists t. split; [exact E|]. exact B.
Defined.

(** * Properties of the settings *)

Import app.

Ltac run_A :=
  cbv [save unlockAndSave Lock Unlock RLock RUnlock getter current update emit
       mbind mret A_bind A_ret set_settings set_mutex set_once
       environment settings mutex once events writer readers unlocked after
       orb negb Nat.eqb andb].

Lemma save_spec (a : App) :
  free a -> save a = (after a (settings a) (saved (environment a) (settings a)), Done tt).
Proof.
  destruct a as [o s m on ev]. unfold free. cbn. intros ->.
  unfold saved. run_A.
  destruct (yaml_Marshal o s) as [bytes err] eqn:E. cbn [fst snd].
  destruct (non_nil err).
  - reflexivity.
  - destruct (non_nil (WriteFile o (path o) bytes)).
    + cbn. rewrite <- app_assoc. reflexivity.
    + reflexivity.
Qed.

Lemma setter_spec (c : setter) (a : App) :
  free a ->
  exec c a = (after a (assigned c (settings a))
                (switched (environment a) (settings a) c
                 ++ saved (environment a) (assigned c (settings a))), Done tt).
Proof.
  destruct a as [o s m on ev]. unfold free. cbn. intros ->.
  destruct c; cbn [exec assigned switched];
    unfold SetAutoReport, SetProxyAll, SetAutoLaunch, SetSystemProxy, SetDeviceID,
      SetUserID, SetToken;
    cbv [unlockAndSave Lock Unlock current update emit
         mbind mret A_bind A_ret set_settings set_mutex
         environment settings mutex once events writer readers unlocked
         orb negb Nat.eqb].
  all: try (rewrite save_spec by reflexivity; unfold after; cbn;
            rewrite <- ?app_assoc; reflexivity).
  destruct (PreferProxiedUI o enable) as [addr addrChanged] eqn:E.
  destruct enable, (SystemProxy s), addrChanged; cbn;
    rewrite save_spec by reflexivity; unfold after; cbn;
    rewrite <- ?app_assoc; reflexivity.
Qed.

Lemma refusals_app (u v : list event) : refusals (u ++ v) = refusals u ++ refusals v.
Proof. unfold refusals. apply omap_app. Qed.

Lemma filter_app' {X} (p : X -> bool) (u v : list X) :
  List.filter p (u ++ v) = List.filter p u ++ List.filter p v.
Proof. apply List.filter_app. Qed.

Lemma saved_quiet (o : Environment) (s : Settings) :
  refusals (saved o s) = [] /\ List.filter is_reply (saved o s) = []
  /\ List.filter is_pac (saved o s) = [] /\ List.filter is_Register (saved o s) = [].
Proof.
  unfold saved.
  destruct (non_nil (snd (yaml_Marshal o s))); [repeat split; reflexivity|].
  destruct (non_nil (WriteFile o (path o) (fst (yaml_Marshal o s))));
    repeat split; reflexivity.
Qed.

Lemma switched_quiet (o : Environment) (s : Settings) (c : setter) :
  refusals (switched o s c) = [] /\ List.filter is_reply (switched o s c) = []
  /\ List.filter is_Register (switched o s c) = [].
Proof.
  destruct c; cbn; try (repeat split; reflexivity).
  destruct (Bool.eqb enable (SystemProxy s)); [repeat split; reflexivity|].
  destruct enable, (snd (PreferProxiedUI o _)); repeat split; reflexivity.
Qed.

Lemma setter_moved (c : setter) (a : App) :
  free a -> exists a', exec c a = (a', Done tt) /\ moved a a' (assigned c) [].
Proof.
  intros F. eexists. split; [apply (setter_spec c a F)|].
  destruct (saved_quiet (environment a) (assigned c (settings a))) as (Q1 & Q2 & Q3 & Q4).
  destruct (switched_quiet (environment a) (settings a) c) as (P1 & P2 & P3).
  split; try reflexivity.
  eexists. split; [reflexivity|].
  rewrite refusals_app, !filter_app', Q1, Q2, Q4, P1, P2, P3. repeat split; reflexivity.
Qed.

Lemma emit_moved (e : event) (a : App) :
  free a -> is_reply e = false -> is_Register e = false ->
  exists a', emit e a = (a', Done tt)
             /\ moved a a' (fun s => s) (match refusal e with Some r => [r] | None => [] end).
Proof.
  intros F R1 R2. eexists. split; [reflexivity|].
  split; try reflexivity; try exact F.
  exists [e]. cbn. rewrite R1, R2. destruct (refusal e); repeat split; reflexivity.
Qed.

Lemma checkBool_moved (data : gmap string json) (name : string) (c : bool -> setter)
    (a : App) :
  free a ->
  exists a', checkBool data name (fun v => exec (c v)) a = (a', Done tt)
             /\ moved a a' (pickb data name c) (not_bool data name).
Proof.
  intros F. unfold checkBool, pickb, not_bool.
  destruct (data !! name) as [[b|s|p]|].
  - apply setter_moved, F.
  - exact (emit_moved (errors_Report _ _ _) a F eq_refl eq_refl).
  - exact (emit_moved (errors_Report _ _ _) a F eq_refl eq_refl).
  - exact (emit_moved (errors_Report _ _ _) a F eq_refl eq_refl).
Qed.

Lemma checkString_moved (data : gmap string json) (name : string) (c : string -> setter)
    (a : App) :
  free a ->
  exists a', checkString data name (fun v => exec (c v)) a = (a', Done tt)
             /\ moved a a' (picks data name c) (not_string data name).
Proof.
  intros F. unfold checkString, picks, not_string.
  destruct (data !! name) as [[b|s|p]|].
  - exact (emit_moved (errors_Report _ _ _) a F eq_refl eq_refl).
  - apply setter_moved, F.
  - exact (emit_moved (errors_Report _ _ _) a F eq_refl eq_refl).
  - exact (emit_moved (errors_Report _ _ _) a F eq_refl eq_refl).
Qed.

Lemma moved_trans (a b c : App) g h r q :
  moved a b g r -> moved b c h q -> moved a c (fun s => h (g s)) (r ++ q).
Proof.
  intros [F1 O1 N1 S1 (e1 & E1 & R1 & P1 & G1)] [F2 O2 N2 S2 (e2 & E2 & R2 & P2 & G2)].
  split.
  - exact F2.
  - congruence.
  - congruence.
  - rewrite S2, S1. reflexivity.
  - exists (e1 ++ e2). rewrite E2, E1, <- app_assoc, refusals_app, !filter_app'.
    rewrite R1, R2, P1, P2, G1, G2. repeat split; reflexivity.
Qed.

Lemma bind_Done {X Y} (m : A X) (k : X -> A Y) (a a' : App) (x : X) :
  m a = (a', Done x) -> (m ≫= k) a = k x a'.
Proof. intros E. unfold mbind, A_bind. rewrite E. reflexivity. Qed.

Lemma pickb_other {X} (F : Settings -> X) data name c s :
  (forall v s, F (assigned (c v) s) = F s) -> F (pickb data name c s) = F s.
Proof. intros H. unfold pickb. destruct (data !! name) as [[?|?|?]|]; auto. Qed.

Lemma picks_other {X} (F : Settings -> X) data name c s :
  (forall v s, F (assigned (c v) s) = F s) -> F (picks data name c s) = F s.
Proof. intros H. unfold picks. destruct (data !! name) as [[?|?|?]|]; auto. Qed.

Lemma pickb_own (F : Settings -> bool) data name c s :
  (forall v s, F (assigned (c v) s) = v) ->
  F (pickb data name c s) = bool_of (data !! name) (F s).
Proof. intros H. unfold pickb, bool_of. destruct (data !! name) as [[?|?|?]|]; auto. Qed.

Lemma picks_own (F : Settings -> string) data name c s :
  (forall v s, F (assigned (c v) s) = v) ->
  F (picks data name c s) = string_of (data !! name) (F s).
Proof. intros H. unfold picks, string_of. destruct (data !! name) as [[?|?|?]|]; auto. Qed.

Ltac settings_field F :=
  repeat first
    [ rewrite (picks_own F) by (intros; reflexivity)
    | rewrite (pickb_own F) by (intros; reflexivity)
    | rewrite (picks_other F) by (intros; reflexivity)
    | rewrite (pickb_other F) by (intros; reflexivity) ];
  reflexivity.

Lemma read_message_moved (data : gmap string json) (a : App) :
  free a ->
  exists a' b,
    read_message (a_map data) a = (a', Done tt)
    /\ events a' = events b ++ [out_s] /\ mutex a' = mutex b /\ settings a' = settings b
    /\ moved a b
         (fun s => picks data "token" set_Token
                     (picks data "userID" set_UserID
                        (pickb data "systemProxy" set_SystemProxy
                           (pickb data "autoLaunch" set_AutoLaunch
                              (pickb data "proxyAll" set_ProxyAll
                                 (pickb data "autoReport" set_AutoReport s))))))
         (not_bool data "autoReport" ++ not_bool data "proxyAll"
          ++ not_bool data "autoLaunch" ++ not_bool data "systemProxy"
          ++ not_string data "userID" ++ not_string data "token").
Proof.
  intros F0. unfold read_message.
  destruct (checkBool_moved data "autoReport" set_AutoReport a F0) as (a1 & E1 & M1).
  destruct (checkBool_moved data "proxyAll" set_ProxyAll a1 (moved_free _ _ _ _ M1))
    as (a2 & E2 & M2).
  destruct (checkBool_moved data "autoLaunch" set_AutoLaunch a2 (moved_free _ _ _ _ M2))
    as (a3 & E3 & M3).
  destruct (checkBool_moved data "systemProxy" set_SystemProxy a3 (moved_free _ _ _ _ M3))
    as (a4 & E4 & M4).
  destruct (checkString_moved data "userID" set_UserID a4 (moved_free _ _ _ _ M4))
    as (a5 & E5 & M5).
  destruct (checkString_moved data "token" set_Token a5 (moved_free _ _ _ _ M5))
    as (a6 & E6 & M6).
  change SetAutoReport with (fun v => exec (set_AutoReport v)).
  change SetProxyAll with (fun v => exec (set_ProxyAll v)).
  change SetAutoLaunch with (fun v => exec (set_AutoLaunch v)).
  change SetSystemProxy with (fun v => exec (set_SystemProxy v)).
  change SetUserID with (fun v => exec (set_UserID v)).
  change SetToken with (fun v => exec (set_Token v)).
  rewrite (bind_Done _ _ _ _ _ E1), (bind_Done _ _ _ _ _ E2), (bind_Done _ _ _ _ _ E3),
    (bind_Done _ _ _ _ _ E4), (bind_Done _ _ _ _ _ E5), (bind_Done _ _ _ _ _ E6).
  eexists. exists a6. split; [reflexivity|].
  split; [reflexivity|]. split; [reflexivity|]. split; [reflexivity|].
  pose proof (moved_trans _ _ _ _ _ _ _
                (moved_trans _ _ _ _ _ _ _
                   (moved_trans _ _ _ _ _ _ _
                      (moved_trans _ _ _ _ _ _ _
                         (moved_trans _ _ _ _ _ _ _ M1 M2) M3) M4) M5) M6) as M.
  rewrite <- !app_assoc in M. exact M.
Qed.

(** X18: a message that is a map is merged into the settings key by key:
    each of autoReport, proxyAll, autoLaunch and systemProxy that holds a
    bool, and each of userID and token that holds a string, replaces the
    field (token replaces UserToken); a key that is missing or holds a value
    of another type leaves its field as it was and is reported once, in the
    order of the checks; DeviceID and the three version fields are never
    touched; the call returns with the lock free and its last act is the one
    reply. *)
Theorem read_message_merges (data : gmap string json) (a : App) :
  free a ->
  exists a' ev,
    read_message (a_map data) a = (a', Done tt)
    /\ free a'
    /\ AutoReport (settings a') = bool_of (data !! "autoReport") (AutoReport (settings a))
    /\ ProxyAll (settings a') = bool_of (data !! "proxyAll") (ProxyAll (settings a))
    /\ AutoLaunch (settings a') = bool_of (data !! "autoLaunch") (AutoLaunch (settings a))
    /\ SystemProxy (settings a')
       = bool_of (data !! "systemProxy") (SystemProxy (settings a))
    /\ UserID (settings a') = string_of (data !! "userID") (UserID (settings a))
    /\ UserToken (settings a') = string_of (data !! "token") (UserToken (settings a))
    /\ DeviceID (settings a') = DeviceID (settings a)
    /\ Version (settings a') = Version (settings a)
    /\ BuildDate (settings a') = BuildDate (settings a)
    /\ RevisionDate (settings a') = RevisionDate (settings a)
    /\ events a' = events a ++ ev ++ [out_s]
    /\ List.filter is_reply ev = []
    /\ refusals ev
       = not_bool data "autoReport" ++ not_bool data "proxyAll"
         ++ not_bool data "autoLaunch" ++ not_bool data "systemProxy"
         ++ not_string data "userID" ++ not_string data "token".
Proof.
  intros F.
  destruct (read_message_moved data a F)
    as (a' & b & E & Ev & Mu & Se & [Fb Ob Nb Sb (ev & Eb & Rb & Pb & Gb)]).
  exists a', ev. split; [exact E|].
  split; [unfold free; rewrite Mu; exact Fb|].
  rewrite Se, Sb.
  split; [settings_field AutoReport|]. split; [settings_field ProxyAll|]. split; [settings_field AutoLaunch|].
  split; [settings_field SystemProxy|]. split; [settings_field UserID|]. split; [settings_field UserToken|].
  split; [settings_field DeviceID|]. split; [settings_field Version|]. split; [settings_field BuildDate|].
  split; [settings_field RevisionDate|].
  split; [rewrite Ev, Eb, <- app_assoc; reflexivity|].
  split; [exact Pb|exact Rb].
Qed.

(** X19: [read] answers every message that is a map with exactly one reply
    and ignores every other message: over any list of messages, from a state
    with the lock free, it returns with the lock free and the number of
    replies sent grows by the number of maps received. *)
Theorem read_replies_once_per_map (messages : list message) (a : App) :
  free a ->
  exists a',
    read messages a = (a', Done tt)
    /\ free a'
    /\ replies (events a') = replies (events a) + length (List.filter is_map messages).
Proof.
  revert a. induction messages as [|m rest IH]; intros a F.
  - exists a. cbn. split; [reflexivity|]. split; [exact F|lia].
  - destruct m as [data|].
    + destruct (read_message_merges data a F)
        as (a1 & ev & E & F1 & _ & _ & _ & _ & _ & _ & _ & _ & _ & _ & Ev & Q & _).
      destruct (IH a1 F1) as (a' & E' & F' & R').
      exists a'. cbn [read]. rewrite (bind_Done _ _ _ _ _ E).
      split; [exact E'|]. split; [exact F'|].
      rewrite R'. unfold replies. rewrite Ev, !filter_app', Q, !length_app. cbn. lia.
    + destruct (IH a F) as (a' & E' & F' & R').
      exists a'. cbn [read]. split; [exact E'|]. split; [exact F'|].
      rewrite R'. cbn. lia.
Qed.



Lemma loadSettingsFrom_spec (version revisionDate buildDate file : string) (a : App) :
  exists a' s,
    loadSettingsFrom version revisionDate buildDate file a = (a', Done s)
    /\ settings a' = s
    /\ environment a' = environment a
    /\ free a'
    /\ once a' = true
    /\ (exists loaded, s = with_versions version buildDate revisionDate loaded
          /\ (non_nil (snd (ReadFile (environment a) file)) = true -> loaded = defaults)
          /\ (AutoLaunch loaded = true ->
              In (launcher_CreateLaunchFile true) (events a')))
    /\ List.filter is_Register (events a')
       = List.filter is_Register (events a) ++ (if once a then [] else [ui_Register]).
Proof.
  destruct a as [o s m on ev].
  unfold loadSettingsFrom, new_settings, start, done.
  cbv [current update emit mbind mret A_bind A_ret set_settings set_mutex set_once
       environment settings mutex once events].
  destruct (ReadFile o file) as [bytes err] eqn:ER. cbn [snd].
  destruct (non_nil err) eqn:Eerr.
  - cbn. destruct on; cbn.
    + do 2 eexists. split; [reflexivity|]. cbn.
      repeat split; try reflexivity.
      * exists defaults. split; [reflexivity|]. split; [reflexivity|].
        intros _. apply in_or_app. right. left. reflexivity.
      * rewrite filter_app'. cbn. rewrite app_nil_r. reflexivity.
    + destruct (non_nil (Register o)); cbn.
      all: do 2 eexists; (split; [reflexivity|]); cbn; repeat split; try reflexivity.
      all: try (exists defaults; split; [reflexivity|]; split; [reflexivity|];
                intros _; rewrite !in_app_iff; cbn; tauto).
      all: rewrite ?filter_app'; cbn; rewrite ?app_nil_r, <- ?app_assoc; reflexivity.
  - destruct (yaml_Unmarshal o bytes defaults) as [loaded err'] eqn:EU.
    cbn. destruct (non_nil err'), (AutoLaunch loaded) eqn:EA, on; cbn;
      try destruct (non_nil (Register o)); cbn.
    all: do 2 eexists; (split; [reflexivity|]); cbn; repeat split; try reflexivity.
    all: try (exists loaded; split; [reflexivity|]; split; [discriminate|];
              rewrite ?EA; try discriminate;
              intros _; rewrite !in_app_iff; cbn; tauto).
    all: rewrite ?filter_app'; cbn; rewrite ?app_nil_r, <- ?app_assoc; reflexivity.
Qed.

(** X22: whatever the settings file holds and whatever state the package is
    in, [loadSettingsFrom] returns settings whose Version, BuildDate and
    RevisionDate are the ones passed in, leaves a free lock on the new
    settings object, and has run [once.Do]; when the file cannot be read the
    other fields are the defaults (AutoReport, AutoLaunch and SystemProxy
    on, ProxyAll off, no ids), and whenever the loaded AutoLaunch is on the
    launch file is created. *)
Theorem loadSettingsFrom_overrides_versions
    (version revisionDate buildDate file : string) (a : App) :
  exists a' s loaded,
    loadSettingsFrom version revisionDate buildDate file a = (a', Done s)
    /\ settings a' = s
    /\ free a'
    /\ once a' = true
    /\ s = with_versions version buildDate revisionDate loaded
    /\ Version s = version /\ BuildDate s = buildDate /\ RevisionDate s = revisionDate
    /\ (non_nil (snd (ReadFile (environment a) file)) = true -> loaded = defaults)
    /\ (AutoLaunch s = true -> In (launcher_CreateLaunchFile true) (events a')).
Proof.
  destruct (loadSettingsFrom_spec version revisionDate buildDate file a)
    as (a' & s & E & S & O & F & N & (loaded & L & D & C) & R).
  exists a', s, loaded. subst s.
  split; [exact E|]. rewrite L. split; [reflexivity|]. split; [exact F|].
  split; [exact N|]. split; [reflexivity|]. split; [reflexivity|].
  split; [reflexivity|]. split; [reflexivity|]. split; [exact D|].
  intros H. apply C. exact H.
Qed.

(** X23: the settings service is registered with the UI at most once: over
    any sequence of loads, [ui.Register] is called once, by the first load,
    if [once.Do] had not run before, and never if it had. *)
Theorem UI_registered_once (loads : list (string * string * string * string))
    (a : App) :
  exists a',
    load_all loads a = (a', Done tt)
    /\ List.filter is_Register (events a')
       = List.filter is_Register (events a)
         ++ (if once a then [] else match loads with [] => [] | _ => [ui_Register] end).
Proof.
  revert a. induction loads as [|[[[v r] b] f] rest IH]; intros a.
  - exists a. split; [reflexivity|]. destruct (once a); rewrite app_nil_r; reflexivity.
  - destruct (loadSettingsFrom_spec v r b f a) as (a1 & s & E & _ & _ & _ & N & _ & R).
    destruct (IH a1) as (a' & E' & R').
    exists a'. cbn [load_all]. rewrite (bind_Done _ _ _ _ _ E).
    split; [exact E'|].
    rewrite R', N, R, app_nil_r. reflexivity.
Qed.

Lemma read_message_merges_witness :
  free first_run
  /\ exists a',
       read_message (a_map signed_in) first_run = (a', Done tt)
       /\ UserID (settings a') = "1234" /\ UserToken (settings a') = "t0k"
       /\ SystemProxy (settings a') = true.
Proof.
  split; [reflexivity|].
  destruct (read_message_merges signed_in first_run eq_refl)
    as (a' & ev & E & _ & _ & _ & _ & S & U & T & _).
  exists a'. split; [exact E|]. split; [exact U|]. split; [exact T|exact S].
Defined.

Lemma read_replies_once_per_map_witness :
  free first_run
  /\ exists a',
       read [not_a_map; a_map signed_in; a_map ∅] first_run = (a', Done tt)
       /\ replies (events a') = 2.
Proof.
  split; [reflexivity|].
  destruct (read_replies_once_per_map [not_a_map; a_map signed_in; a_map ∅]
              first_run eq_refl) as (a' & E & _ & R).
  exists a'. split; [exact E|exact R].
Defined.





